(** * A data-access layer over a relational store: embedding and properties

    The development embeds the repository layer of the recruiting
    application (db/db_utils.py, models/*.py, services/*.py) and proves
    properties of its operations.

    - Python [str] values are sequences of Unicode code points.
    - Python dicts, keyword arguments and table rows are finite maps from
      column names to values ([gmap string value]).
    - The asynchronous calls against the connection pool are run one at a
      time; an operation is a function from the state of the world (the
      store, the clock, the log) to an outcome (a returned value or a raised
      exception) and a new state of the world. *)

From stdpp Require Import gmap strings list fin_maps.
From Stdlib Require Import ZArith NArith Ascii String.

Local Open Scope string_scope.
Local Open Scope list_scope.

(* ===================================================================== *)
(** * Part I: the embedding                                               *)
(* ===================================================================== *)

(** ** Python strings *)

Module PyStr.

Definition codepoint := N.

(** A [str] is the sequence of its code points. *)
Definition str := list codepoint.

(** The string written as an ASCII literal. *)
Definition of_string (s : string) : str :=
  map N_of_ascii (list_ascii_of_string s).

Definition chr (a : ascii) : codepoint := N_of_ascii a.

(** [s.replace(old, new)] where [old] is a single character, which is the
    case at every call site of the repository. *)
Definition replace (old : codepoint) (new : str) (s : str) : str :=
  flat_map (fun c => if (c =? old)%N then new else [c]) s.

(** The Unicode character database, as far as [str.lower] consults it:
    the full lower-case mapping of a code point, and the test CPython makes
    at position [i] of a string to decide whether a capital sigma becomes
    a final sigma. *)
Record casing := {
  to_lower_full : codepoint -> str;
  final_sigma : str -> nat -> bool
}.

Definition capital_sigma : codepoint := 931%N.   (* U+03A3 *)
Definition small_sigma : codepoint := 963%N.     (* U+03C3 *)
Definition small_final_sigma : codepoint := 962%N. (* U+03C2 *)

(** [s.lower()]: every code point is replaced by its full lower-case
    mapping, except capital sigma, which is decided by its context. *)
Fixpoint lower_from (U : casing) (whole : str) (i : nat) (rest : str) : str :=
  match rest with
  | [] => []
  | c :: rest' =>
      (if (c =? capital_sigma)%N
       then [if final_sigma U whole i then small_final_sigma else small_sigma]
       else to_lower_full U c)
      ++ lower_from U whole (S i) rest'
  end.

Definition lower (U : casing) (s : str) : str := lower_from U s 0 s.

Definition ascii_lower (c : codepoint) : codepoint :=
  if ((65 <=? c) && (c <=? 90))%N then (c + 32)%N else c.

(** What the proofs use of the character database: on ASCII it is the
    usual mapping of [A-Z] to [a-z]; a code point produced by a lower-case
    mapping is mapped to itself and is not capital sigma; the two small
    sigmas are mapped to themselves. *)
Record casing_ok (U : casing) : Prop := {
  lower_ascii : forall c, (c < 128)%N -> to_lower_full U c = [ascii_lower c];
  lower_stable : forall c d,
    In d (to_lower_full U c) -> to_lower_full U d = [d] /\ d <> capital_sigma;
  sigma_stable :
    to_lower_full U small_sigma = [small_sigma] /\
    to_lower_full U small_final_sigma = [small_final_sigma]
}.

(** The character database restricted to Basic Latin and Latin-1
    Supplement (code points below U+0100), where lower-casing adds 32 to
    the capital letters; capital sigma has its simple mapping and no other
    code point is changed. *)
Definition latin1_lower (c : codepoint) : codepoint :=
  if ((65 <=? c) && (c <=? 90))%N then (c + 32)%N
  else if ((192 <=? c) && (c <=? 222) && negb (c =? 215))%N then (c + 32)%N
  else if (c =? capital_sigma)%N then small_sigma
  else c.

Definition latin1 : casing :=
  {| to_lower_full := fun c => [latin1_lower c];
     final_sigma := fun _ _ => false |}.

(** A code point that [lower] leaves alone. *)
Definition settled (U : casing) (c : codepoint) : Prop :=
  to_lower_full U c = [c] /\ c <> capital_sigma.

End PyStr.

Import PyStr.

(** ** Values, rows and exceptions *)

(** A Python value as it is bound to a statement parameter or held in a
    model field. [J] is the type of JSON documents (what [json.loads]
    returns). *)
Inductive value (J : Type) : Type :=
| VNull                    (* None / SQL NULL *)
| VBool (b : bool)
| VInt (n : Z)
| VText (s : str)
| VTime (t : Z)            (* a datetime *)
| VJson (j : J).           (* a dict holding a JSON document *)

Arguments VNull {J}.
Arguments VBool {J} b.
Arguments VInt {J} n.
Arguments VText {J} s.
Arguments VTime {J} t.
Arguments VJson {J} j.


Definition is_null {J} (v : value J) : bool :=
  match v with VNull => true | _ => false end.

(** SQL equality of a column with a bound parameter: NULL equals nothing,
    and documents are not compared. *)
Definition sql_eq {J} (a b : value J) : bool :=
  match a, b with
  | VBool x, VBool y => bool_decide (x = y)
  | VInt x, VInt y => bool_decide (x = y)
  | VText x, VText y => bool_decide (x = y)
  | VTime x, VTime y => bool_decide (x = y)
  | _, _ => false
  end.

(** A dict of keyword arguments, a model instance (field to value) or a
    table row (column to value). *)
Abbreviation row J := (gmap string (value J)) (only parsing).

(** [model_dump(exclude_none=True)]. *)
Definition model_dump {J} (obj : row J) : row J :=
  filter (fun kv => is_null kv.2 = false) obj.

Inductive exn :=
| StorageError (detail : string)   (* raised by the driver for a statement *)
| ValidationError (msg : string)   (* raised when a model is constructed *)
| IndexError.                      (* [results[0]] on an empty list *)

Inductive outcome (A : Type) :=
| Ret (a : A)
| Raise (e : exn).

Arguments Ret {A} a.
Arguments Raise {A} e.

(** What the code calls in the Python runtime and its libraries. *)
Record runtime (J : Type) := {
  unicode : casing;                        (* unicodedata behind [str.lower] *)
  json_dumps : J -> str;                   (* [json.dumps] *)
  json_loads : str -> option J;            (* [json.loads]; [None] is JSONDecodeError *)
  md5_hexdigest : str -> str;              (* [hashlib.md5(s.encode('utf-8')).hexdigest()] *)
  email_str : str -> bool;                 (* pydantic's [EmailStr] check *)
  parse_datetime : str -> str -> option str (* date and time to ISO text *)
}.

Arguments unicode {J} _.
Arguments json_dumps {J} _ _.
Arguments json_loads {J} _ _.
Arguments md5_hexdigest {J} _ _.
Arguments email_str {J} _ _.
Arguments parse_datetime {J} _ _ _.

(** ** The store *)

(** The statements the services send, with their bound parameters. *)
Inductive sql (J : Type) :=
| SELECT (tbl col : string) (v : value J)
    (* SELECT * FROM tbl WHERE col = $1 *)
| INSERT (tbl : string) (data : row J)
    (* INSERT INTO tbl (columns of data) VALUES (...) RETURNING * *)
| UPDATE (tbl : string) (set : row J) (col : string) (v : value J)
    (* UPDATE tbl SET (columns of set) WHERE col = $1 RETURNING * *)
| DELETE (tbl col : string) (v : value J).
    (* DELETE FROM tbl WHERE col = $1 [RETURNING col] *)

Arguments SELECT {J} tbl col v.
Arguments INSERT {J} tbl data.
Arguments UPDATE {J} tbl set col v.
Arguments DELETE {J} tbl col v.

(** A table: its rows in insertion order and, when its [id] column is a
    serial, the next value of the sequence. *)
Record table (J : Type) := {
  rows : list (row J);
  serial : option Z
}.

Arguments rows {J} _.
Arguments serial {J} _.

Abbreviation database J := (gmap string (table J)) (only parsing).

Definition matches {J} (col : string) (v : value J) (r : row J) : bool :=
  match r !! col with
  | Some x => sql_eq x v
  | None => false
  end.

(** The effect of one statement on the store and the rows it returns;
    [None] when the table does not exist. This is what the store does with
    a statement it accepted, on the values bound whatever their types: the
    driver refusing a parameter is a failure of the statement, given by
    [faults] in [conn_fetch]. *)
Definition run_sql {J} (q : sql J) (d : database J)
    : option (list (row J) * database J) :=
  match q with
  | SELECT tbl col v =>
      match d !! tbl with
      | Some t => Some (List.filter (matches col v) (rows t), d)
      | None => None
      end
  | INSERT tbl data =>
      match d !! tbl with
      | Some t =>
          let '(r, s) :=
            match serial t, data !! "id" with
            | Some n, None => (<["id" := VInt n]> data, Some (n + 1)%Z)
            | s, _ => (data, s)
            end in
          Some ([r], <[tbl := {| rows := rows t ++ [r]; serial := s |}]> d)
      | None => None
      end
  | UPDATE tbl set col v =>
      match d !! tbl with
      | Some t =>
          let upd := fun r : row J => if matches col v r then set ∪ r else r in
          Some (List.map (fun r => set ∪ r) (List.filter (matches col v) (rows t)),
                <[tbl := {| rows := List.map upd (rows t); serial := serial t |}]> d)
      | None => None
      end
  | DELETE tbl col v =>
      match d !! tbl with
      | Some t =>
          Some (List.filter (matches col v) (rows t),
                <[tbl := {| rows := List.filter (fun r => negb (matches col v r)) (rows t);
                            serial := serial t |}]> d)
      | None => None
      end
  end.

(** ** The world and the monad of operations *)

Inductive event (J : Type) :=
| Sent (q : sql J)        (* a statement was sent to the store *)
| Begin                   (* a transaction was opened *)
| Commit
| Rollback
| LogError (e : exn)      (* [logger.error] *)
| LogDebug (q : sql J).   (* [logger.debug] with the statement and its parameters *)

Arguments Sent {J} q.
Arguments Begin {J}.
Arguments Commit {J}.
Arguments Rollback {J}.
Arguments LogError {J} e.
Arguments LogDebug {J} q.

(** The world an operation runs in. [faults n] is the failure with which
    the store answers the [n]-th statement it is sent, if it fails it;
    [clock n] is the [n]-th reading of [datetime.utcnow()]; [uuids n] the
    [n]-th value of [uuid.uuid4()]. The trace has the latest event first. *)
Record world (J : Type) := {
  db : database J;
  faults : nat -> option string;
  issued : nat;
  clock : nat -> Z;
  reads : nat;
  uuids : nat -> str;
  drawn : nat;
  trace : list (event J)
}.

Arguments db {J} _.
Arguments faults {J} _ _.
Arguments issued {J} _.
Arguments clock {J} _ _.
Arguments reads {J} _.
Arguments uuids {J} _ _.
Arguments drawn {J} _.
Arguments trace {J} _.

Definition set_db {J} (d : database J) (w : world J) : world J :=
  {| db := d; faults := faults w; issued := issued w; clock := clock w;
     reads := reads w; uuids := uuids w; drawn := drawn w; trace := trace w |}.

Definition push {J} (ev : event J) (w : world J) : world J :=
  {| db := db w; faults := faults w; issued := issued w; clock := clock w;
     reads := reads w; uuids := uuids w; drawn := drawn w; trace := ev :: trace w |}.

Definition next_statement {J} (w : world J) : world J :=
  {| db := db w; faults := faults w; issued := S (issued w); clock := clock w;
     reads := reads w; uuids := uuids w; drawn := drawn w; trace := trace w |}.

Definition next_reading {J} (w : world J) : world J :=
  {| db := db w; faults := faults w; issued := issued w; clock := clock w;
     reads := S (reads w); uuids := uuids w; drawn := drawn w; trace := trace w |}.

Definition next_uuid {J} (w : world J) : world J :=
  {| db := db w; faults := faults w; issued := issued w; clock := clock w;
     reads := reads w; uuids := uuids w; drawn := S (drawn w); trace := trace w |}.

Definition M (J A : Type) : Type := world J -> outcome A * world J.

Definition ret {J A} (a : A) : M J A := fun w => (Ret a, w).

Definition bind {J A B} (m : M J A) (k : A -> M J B) : M J B :=
  fun w =>
    match m w with
    | (Ret a, w') => k a w'
    | (Raise e, w') => (Raise e, w')
    end.

Definition raise {J A} (e : exn) : M J A := fun w => (Raise e, w).

(** [try: m  except Exception as e: handler e]. *)
Definition try_except {J A} (m : M J A) (handler : exn -> M J A) : M J A :=
  fun w =>
    match m w with
    | (Ret a, w') => (Ret a, w')
    | (Raise e, w') => handler e w'
    end.

#[global] Instance M_ret {J} : MRet (M J) := fun A => @ret J A.
#[global] Instance M_bind {J} : MBind (M J) := fun A B k m => @bind J A B m k.

Definition log {J} (ev : event J) : M J unit := fun w => (Ret tt, push ev w).

(** [datetime.utcnow()]. *)
Definition utcnow {J} : M J Z :=
  fun w => (Ret (clock w (reads w)), next_reading w).

(** [str(uuid.uuid4())]. *)
Definition uuid4 {J} : M J str :=
  fun w => (Ret (uuids w (drawn w)), next_uuid w).

(** ** db/db_utils.py *)

Module db_utils.

(** [conn.fetch(query, *args)] and [conn.execute(query, *args)]: the store
    runs the statement, or fails it. The failure can be the driver's: a
    parameter it cannot encode for its column (a dict, the pool having no
    codec for it; an integer out of range) fails the statement, and
    [faults] gives that failure like any other. *)
Definition conn_fetch {J} (q : sql J) : M J (list (row J)) :=
  fun w =>
    let w1 := push (Sent q) (next_statement w) in
    match faults w (issued w) with
    | Some detail => (Raise (StorageError detail), w1)
    | None =>
        match run_sql q (db w) with
        | Some (rs, d) => (Ret rs, set_db d w1)
        | None => (Raise (StorageError "undefined table"), w1)
        end
    end.

Definition conn_execute {J} (q : sql J) : M J unit :=
  conn_fetch q ;; mret tt.

(** [execute_query(query, *args)] with the default [fetch=True], as every
    caller has it. The connection is taken as acquired: [get_pool()] and
    [pool.acquire()] come before the [try], and a failure of theirs, raised
    unlogged with no statement sent, is outside the model. *)
Definition execute_query {J} (q : sql J) : M J (list (row J)) :=
  try_except (conn_fetch q)
    (fun e => log (LogError e) ;; log (LogDebug q) ;; raise e).

Fixpoint execute_all {J} (queries : list (sql J)) : M J unit :=
  match queries with
  | [] => mret tt
  | q :: rest => conn_execute q ;; execute_all rest
  end.

(** [execute_transaction(queries)]: [async with conn.transaction()] commits
    when the body returns and rolls the store back when it raises. *)
Definition execute_transaction {J} (queries : list (sql J)) : M J unit :=
  fun w =>
    match execute_all queries (push Begin w) with
    | (Ret _, w') => (Ret tt, push Commit w')
    | (Raise e, w') => (Raise e, push Rollback (set_db (db w) w'))
    end.

End db_utils.

Import db_utils.

(** ** models/*.py *)

Module Models.

(** The constructors below are those of the classes on keyword arguments
    that pydantic takes as they are: each a field of the class, with a
    value of the type the field declares ([typed], further down, says so
    for three of the classes). On other arguments the class converts the
    value, raises its validation error or, for a key that is no field,
    drops the key; the constructors here keep such a value or key. *)

(** A field that has no default must be given and must not be [None]. *)
Definition required {J} (fields : list string) (kw : row J) : M J unit :=
  if forallb (fun f => match kw !! f with
                       | Some v => negb (is_null v)
                       | None => false
                       end) fields
  then mret tt
  else raise (ValidationError "Field required").

(** A field with a plain default takes it when the key is missing. *)
Definition with_default {J} (f : string) (v : value J) (kw : row J) : row J :=
  match kw !! f with
  | Some _ => kw
  | None => <[f := v]> kw
  end.

(** models/base.py, [TimestampModel]: [created_at] and [updated_at] have
    [default_factory=datetime.utcnow], called when the key is missing. *)
Definition TimestampModel {J} (kw : row J) : M J (row J) :=
  kw1 ← match kw !! "created_at" with
        | Some _ => mret kw
        | None => t ← utcnow; mret (<["created_at" := VTime t]> kw)
        end;
  match kw1 !! "updated_at" with
  | Some _ => mret kw1
  | None => t ← utcnow; mret (<["updated_at" := VTime t]> kw1)
  end.

(** models/recruit.py, [Recruit.validate_email]. *)
Definition validate_email {J} (v : option (value J)) : M J unit :=
  match v with
  | Some (VText s) =>
      if existsb (fun c => (c =? chr "@")%N) s then mret tt
      else raise (ValidationError "Invalid email format")
  | _ => mret tt
  end.

Definition Recruit {J} (kw : row J) : M J (row J) :=
  d ← TimestampModel kw;
  required ["user_id"] d ;;
  validate_email (d !! "email_address") ;;
  mret d.

(** models/gpt_cache.py, [GPTCache.validate_result_json]. *)
Definition validate_result_json {J} (R : runtime J) (v : value J) : M J (value J) :=
  match v with
  | VText s =>
      match json_loads R s with
      | Some j => mret (VJson j)
      | None => raise (ValidationError "Invalid JSON format for result_json")
      end
  | _ => mret v
  end.

Definition GPTCache {J} (R : runtime J) (kw : row J) : M J (row J) :=
  d ← TimestampModel kw;
  required ["content_hash"; "result_json"] d ;;
  match d !! "result_json" with
  | Some v => j ← validate_result_json R v; mret (<["result_json" := j]> d)
  | None => mret d
  end.

(** models/feedback.py, [ExtractionFeedback.validate_json_fields]. *)
Definition validate_json_fields {J} (R : runtime J) (v : value J) : M J (value J) :=
  match v with
  | VText s =>
      match json_loads R s with
      | Some j => mret (VJson j)
      | None => raise (ValidationError "Invalid JSON format")
      end
  | _ => mret v
  end.

(** A validator applied to a field that was given. *)
Definition validated {J} (f : string) (check : value J -> M J (value J))
    (d : row J) : M J (row J) :=
  match d !! f with
  | Some v => v' ← check v; mret (<[f := v']> d)
  | None => mret d
  end.

Definition ExtractionFeedback {J} (R : runtime J) (kw : row J) : M J (row J) :=
  d ← TimestampModel kw;
  required ["user_id"; "email_id"; "recruit_id";
            "original_extraction"; "corrected_values"] d ;;
  d ← validated "original_extraction" (validate_json_fields R) d;
  d ← validated "corrected_values" (validate_json_fields R) d;
  mret (with_default "used_cache" (VBool false) d).

(** models/team.py, [Team.set_normalized_name]: the validator receives the
    raw [normalized_name] ([None] or a string) and the fields validated
    before it. *)
Definition set_normalized_name {J} (U : casing) (v : option str)
    (values : row J) : option str :=
  match v with
  | Some (_ :: _) => v
  | _ =>
      match values !! "name" with
      | Some (VText ((_ :: _) as name)) =>
          Some (replace (chr " ") (of_string "_") (lower U name))
      | _ => v
      end
  end.

(** The constructor of [Team]: [normalized_name] has no default, so it must be given
    (possibly as [None] or as the empty string) for the validator to run;
    what the validator returns must be a string. *)
Definition Team {J} (R : runtime J) (kw : row J) : M J (row J) :=
  d ← TimestampModel kw;
  required ["name"] d ;;
  raw ← match d !! "normalized_name" with
        | Some VNull => mret None
        | Some (VText s) => mret (Some s)
        | Some _ => raise (ValidationError "Input should be a valid string")
        | None => raise (ValidationError "Field required")
        end;
  match set_normalized_name (unicode R) raw d with
  | Some s => mret (<["normalized_name" := VText s]> d)
  | None => raise (ValidationError "Input should be a valid string")
  end.

Definition TeamAlias {J} (kw : row J) : M J (row J) :=
  d ← TimestampModel kw;
  required ["team_id"; "alias"] d ;;
  mret d.

(** models/email.py *)
Inductive ProcessingStatus := QUEUED | PROCESSING | COMPLETED | FAILED.

Definition status_value (s : ProcessingStatus) : str :=
  match s with
  | QUEUED => of_string "QUEUED"
  | PROCESSING => of_string "PROCESSING"
  | COMPLETED => of_string "COMPLETED"
  | FAILED => of_string "FAILED"
  end.

Definition EmailQueue {J} (kw : row J) : M J (row J) :=
  d ← TimestampModel kw;
  required ["user_id"; "email_id"; "provider"; "folder_id"] d ;;
  mret (with_default "priority" (VInt 0)
          (with_default "status" (VText (status_value QUEUED)) d)).

(** models/user.py *)
Definition User {J} (R : runtime J) (kw : row J) : M J (row J) :=
  d ← TimestampModel kw;
  d ← match d !! "id" with
      | Some _ => mret d
      | None => u ← uuid4; mret (<["id" := VText u]> d)
      end;
  required ["email"] d ;;
  match d !! "email" with
  | Some (VText e) =>
      if email_str R e then mret tt
      else raise (ValidationError "value is not a valid email address")
  | _ => raise (ValidationError "value is not a valid email address")
  end ;;
  mret (with_default "has_completed_setup" (VBool false)
          (with_default "has_consented" (VBool false)
             (with_default "is_admin" (VBool false)
                (with_default "is_new_user" (VInt 1) d)))).

Definition UserSettings {J} (kw : row J) : M J (row J) :=
  required ["user_id"] kw ;;
  mret (with_default "batch_process_enabled" (VBool false)
          (with_default "fetch_frequency" (VText (of_string "manual")) kw)).

(** models/schedule.py *)
Definition Schedule {J} (kw : row J) : M J (row J) :=
  d ← TimestampModel kw;
  required ["user_id"; "date"] d ;;
  mret (with_default "source" (VText (of_string "manual"))
          (with_default "is_master" (VBool false) d)).

(** One of the two blocks of [Schedule.to_dict] that decode a participants
    field: the field is decoded when it is a non-empty string, and the
    entry of [result] is left as it was when decoding fails. [VJson j] is
    whatever the text decodes to, [None] for the text null included. *)
Definition decode_participants {J} (R : runtime J) (field : string)
    (self result : row J) : row J :=
  match self !! field with
  | Some (VText ((_ :: _) as text)) =>
      match json_loads R text with
      | Some j => <[field := VJson j]> result
      | None => result
      end
  | _ => result
  end.

(** [Schedule.to_dict]. *)
Definition Schedule_to_dict {J} (R : runtime J) (self : row J) : outcome (row J) :=
  let result := model_dump self in
  let result := decode_participants R "home_participants" self result in
  let result := decode_participants R "away_participants" self result in
  let result :=
    match self !! "date" with
    | Some (VText ((_ :: _) as date_str)) =>
        let time_str :=
          match self !! "time" with
          | Some (VText ((_ :: _) as t)) => t
          | _ => of_string "00:00"
          end in
        match parse_datetime R date_str time_str with
        | Some iso => <["formatted_datetime" := VText iso]> result
        | None => result
        end
    | _ => result
    end in
  Ret result.

End Models.

(** ** services/base_service.py *)

Module BaseService.

(** The annotation of a model's [id] field. *)
Inductive annotation :=
| Int
| Str
| Optional (a : annotation).

(** A service: what [BaseService.__init__] records. *)
Record service (J : Type) := {
  model_class : row J -> M J (row J);
  table_name : string;
  id_annotation : option annotation
}.

Arguments model_class {J} _ _.
Arguments table_name {J} _.
Arguments id_annotation {J} _.

(** What [update] accepts: a model instance or a dict of fields. *)
Inductive payload (J : Type) :=
| Model (obj : row J)
| Dict (d : row J).

Arguments Model {J} obj.
Arguments Dict {J} d.

Definition get_by_id {J} (self : service J) (id_value : value J)
    : M J (option (row J)) :=
  results ← execute_query (SELECT (table_name self) "id" id_value);
  match results with
  | [] => mret None
  | r :: _ => obj ← model_class self r; mret (Some obj)
  end.

(** [getattr(id_type, '__origin__', id_type) is int]: the origin of
    [Optional[int]] is [Union], so only a bare [int] counts. *)
Definition _is_id_auto_assigned {J} (self : service J) : bool :=
  match id_annotation self with
  | Some Int => true
  | _ => false
  end.

Definition create {J} (self : service J) (obj : row J) : M J (row J) :=
  let data := model_dump obj in
  let data :=
    match data !! "id" with
    | Some v =>
        if is_null v || _is_id_auto_assigned self then base.delete "id" data
        else data
    | None => data
    end in
  results ← execute_query (INSERT (table_name self) data);
  match results with
  | [] => raise IndexError
  | r :: _ => model_class self r
  end.

Definition update {J} (self : service J) (id_value : value J) (obj : payload J)
    : M J (option (row J)) :=
  let data :=
    match obj with
    | Model o => model_dump o
    | Dict d => d
    end in
  let data := base.delete "id" data in
  if decide (dom data = ∅) then get_by_id self id_value
  else
    results ← execute_query (UPDATE (table_name self) data "id" id_value);
    match results with
    | [] => mret None
    | r :: _ => obj ← model_class self r; mret (Some obj)
    end.

Definition delete {J} (self : service J) (id_value : value J) : M J bool :=
  results ← execute_query (DELETE (table_name self) "id" id_value);
  mret (0 <? List.length results)%nat.

End BaseService.

Import BaseService.

(** An optional string argument as a bound parameter. *)
Definition opt_text {J} (s : option str) : value J :=
  match s with
  | Some x => VText x
  | None => VNull
  end.

(** ** services/recruit_service.py *)

Module RecruitService.

Definition self {J} : service J :=
  {| model_class := Models.Recruit;
     table_name := "recruits";
     id_annotation := Some (Optional Int) |}.

Definition delete_cascade {J} (recruit_id : Z) : M J bool :=
  try_except
    (recruit ← BaseService.get_by_id self (VInt recruit_id);
     match recruit with
     | None => mret false
     | Some _ =>
         execute_transaction
           [DELETE "extraction_feedback" "recruit_id" (VInt recruit_id);
            DELETE "schedules" "recruit_id" (VInt recruit_id);
            DELETE "recruits" "id" (VInt recruit_id)] ;;
         mret true
     end)
    (fun e => log (LogError e) ;; mret false).

End RecruitService.

(** ** services/gpt_cache_service.py *)

Module GPTCacheService.

Definition self {J} (R : runtime J) : service J :=
  {| model_class := Models.GPTCache R;
     table_name := "gpt_cache";
     id_annotation := Some (Optional Int) |}.

Definition generate_hash {J} (R : runtime J) (content : str) : str :=
  md5_hexdigest R content.

Definition get_by_content_hash {J} (R : runtime J) (content_hash : str)
    : M J (option (row J)) :=
  results ← execute_query (SELECT "gpt_cache" "content_hash" (VText content_hash));
  match results with
  | [] => mret None
  | r :: _ => obj ← Models.GPTCache R r; mret (Some obj)
  end.

Definition create_or_update {J} (R : runtime J) (content : str) (result : J)
    (email : option str) : M J (row J) :=
  let content_hash := generate_hash R content in
  existing ← get_by_content_hash R content_hash;
  match existing with
  | Some _ =>
      now ← utcnow;
      let result_json := json_dumps R result in
      results ← execute_query
        (UPDATE "gpt_cache"
           {[ "result_json" := VText result_json;
              "email" := opt_text email;
              "updated_at" := VTime now ]}
           "content_hash" (VText content_hash));
      match results with
      | [] => raise IndexError
      | r :: _ => Models.GPTCache R r
      end
  | None =>
      cache ← Models.GPTCache R
        {[ "content_hash" := VText content_hash;
           "email" := opt_text email;
           "result_json" := VJson result ]};
      BaseService.create (self R) cache
  end.

End GPTCacheService.

(** ** services/team_service.py *)

Module TeamAliasService.

Definition self {J} : service J :=
  {| model_class := Models.TeamAlias;
     table_name := "team_aliases";
     id_annotation := Some (Optional Int) |}.

Definition get_by_alias {J} (alias : str) : M J (option (row J)) :=
  results ← execute_query (SELECT "team_aliases" "alias" (VText alias));
  match results with
  | [] => mret None
  | r :: _ => obj ← Models.TeamAlias r; mret (Some obj)
  end.

End TeamAliasService.

Module TeamService.

Definition self {J} (R : runtime J) : service J :=
  {| model_class := Models.Team R;
     table_name := "teams";
     id_annotation := Some (Optional Int) |}.

Definition _normalize_name (U : casing) (name : str) : str :=
  match name with
  | [] => []
  | _ =>
      replace (chr ".") []
        (replace (chr "-") (of_string "_")
           (replace (chr " ") (of_string "_") (lower U name)))
  end.

Definition add_alias {J} (R : runtime J) (team_id : Z) (alias : str)
    (source : option str) : M J (option (row J)) :=
  team ← BaseService.get_by_id (self R) (VInt team_id);
  match team with
  | None => mret None
  | Some _ =>
      existing_alias ← TeamAliasService.get_by_alias alias;
      match existing_alias with
      | Some a => mret (Some a)
      | None =>
          a ← Models.TeamAlias
            {[ "team_id" := VInt team_id;
               "alias" := VText alias;
               "source" := opt_text source ]};
          created_alias ← BaseService.create TeamAliasService.self a;
          mret (Some created_alias)
      end
  end.

End TeamService.

(** ** services/user_service.py *)

Module UserSettingsService.

Definition self {J} : service J :=
  {| model_class := Models.UserSettings;
     table_name := "user_settings";
     id_annotation := None |}.

End UserSettingsService.

Module UserService.

Definition self {J} (R : runtime J) : service J :=
  {| model_class := Models.User R;
     table_name := "users";
     id_annotation := Some Str |}.

(** The attribute [obj.id] of a model instance. *)
Definition id_of {J} (obj : row J) : value J :=
  default VNull (obj !! "id").

Definition create_with_settings {J} (R : runtime J) (user : row J)
    (settings : option (row J)) : M J (row J * option (row J)) :=
  created_user ← BaseService.create (self R) user;
  match settings with
  | Some s =>
      let s := <["user_id" := id_of created_user]> s in
      created_settings ← BaseService.create UserSettingsService.self s;
      mret (created_user, Some created_settings)
  | None => mret (created_user, None)
  end.

End UserService.

(** ** services/email_service.py *)

Module EmailQueueService.

Import Models.

Definition self {J} : service J :=
  {| model_class := Models.EmailQueue;
     table_name := "email_queue";
     id_annotation := Some (Optional Int) |}.

Definition update_status {J} (queue_id : Z) (status : ProcessingStatus)
    (error_message : option str) : M J (option (row J)) :=
  processed_at ← match status with
                 | COMPLETED | FAILED => t ← utcnow; mret (VTime t)
                 | _ => mret VNull
                 end;
  now ← utcnow;
  results ← execute_query
    (UPDATE "email_queue"
       {[ "status" := VText (status_value status);
          "processed_at" := processed_at;
          "error_message" := opt_text error_message;
          "updated_at" := VTime now ]}
       "id" (VInt queue_id));
  match results with
  | [] => mret None
  | r :: _ => obj ← Models.EmailQueue r; mret (Some obj)
  end.

End EmailQueueService.

(** ** Concrete runs *)

Module Sample.

(** The JSON literals: the smallest codec on which [json.loads] and
    [json.dumps] can be run. *)
Inductive json_literal := JNull | JTrue | JFalse.

Definition dumps_literal (j : json_literal) : str :=
  match j with
  | JNull => of_string "null"
  | JTrue => of_string "true"
  | JFalse => of_string "false"
  end.

Definition loads_literal (s : str) : option json_literal :=
  if bool_decide (s = of_string "null") then Some JNull
  else if bool_decide (s = of_string "true") then Some JTrue
  else if bool_decide (s = of_string "false") then Some JFalse
  else None.

(** MD5 digests of three contents; any other content is given the digest
    of the empty string. *)
Definition md5_table (s : str) : str :=
  if bool_decide (s = of_string "a") then of_string "0cc175b9c0f1b6a831c399e269772661"
  else if bool_decide (s = of_string "abc") then of_string "900150983cd24fb0d6963f7d28e17f72"
  else of_string "d41d8cd98f00b204e9800998ecf8427e".

Definition python : runtime json_literal :=
  {| unicode := latin1;
     json_dumps := dumps_literal;
     json_loads := loads_literal;
     md5_hexdigest := md5_table;
     email_str := fun s => existsb (fun c => (c =? chr "@")%N) s;
     parse_datetime := fun _ _ => None |}.

(** A world over the store [d] in which the store fails the statements
    listed in [failing], the clock reads 1000, 1001, ... and nothing has
    happened yet. *)
Definition world_of {J} (d : database J) (failing : list (nat * string)) : world J :=
  {| db := d;
     faults := fun n => snd <$> List.find (fun p => Nat.eqb (fst p) n) failing;
     issued := 0;
     clock := fun n => (1000 + Z.of_nat n)%Z;
     reads := 0;
     uuids := fun _ => of_string "00000000-0000-4000-8000-000000000000";
     drawn := 0;
     trace := [] |}.

Definition text {J} (s : string) : value J := VText (of_string s).

Definition table_of {J} (rs : list (row J)) (next : Z) : table J :=
  {| rows := rs; serial := Some next |}.

(** A recruit with one schedule of its own, next to a schedule of no
    recruit. *)
Definition recruiting : gmap string (table json_literal) :=
  {[ "recruits" := table_of [ {[ "id" := VInt 7; "user_id" := text "u1" ]} ] 8;
     "schedules" :=
       table_of [ {[ "id" := VInt 1; "recruit_id" := VInt 7;
                     "user_id" := text "u1"; "date" := text "2024-05-01" ]};
                  {[ "id" := VInt 2; "recruit_id" := VNull;
                     "user_id" := text "u1"; "date" := text "2024-05-02" ]} ] 3;
     "extraction_feedback" := table_of [] 1 ]}.

(** A queue with one item that failed earlier. *)
Definition failed_item : gmap string (value json_literal) :=
  {[ "id" := VInt 1; "user_id" := text "u1"; "email_id" := text "m1";
     "provider" := text "gmail"; "folder_id" := text "INBOX";
     "status" := text "FAILED"; "priority" := VInt 0;
     "processed_at" := VTime 900; "error_message" := text "timeout";
     "created_at" := VTime 800; "updated_at" := VTime 900 ]}.

Definition queue : gmap string (table json_literal) :=
  {[ "email_queue" := table_of [failed_item] 2 ]}.

(** An empty cache. *)
Definition cache : gmap string (table json_literal) :=
  {[ "gpt_cache" := table_of [] 1 ]}.

(** Two teams, the second owning the alias "Lakers". *)
Definition lakers : gmap string (value json_literal) :=
  {[ "id" := VInt 1; "team_id" := VInt 2; "alias" := text "Lakers";
     "created_at" := VTime 800; "updated_at" := VTime 800 ]}.

Definition teams : gmap string (table json_literal) :=
  {[ "teams" :=
       table_of [ {[ "id" := VInt 1; "name" := text "Lake City";
                     "normalized_name" := text "lake_city";
                     "created_at" := VTime 700; "updated_at" := VTime 700 ]};
                  {[ "id" := VInt 2; "name" := text "LA Lakers";
                     "normalized_name" := text "la_lakers";
                     "created_at" := VTime 700; "updated_at" := VTime 700 ]} ] 3;
     "team_aliases" := table_of [lakers] 2 ]}.

(** A user and settings to be created, and a store with no user yet. *)
Definition coach : gmap string (value json_literal) :=
  {[ "id" := text "u-1"; "email" := text "coach@example.org";
     "is_new_user" := VInt 1; "is_admin" := VBool false;
     "has_consented" := VBool false; "has_completed_setup" := VBool false;
     "created_at" := VTime 1; "updated_at" := VTime 1 ]}.

Definition coach_settings : gmap string (value json_literal) :=
  {[ "user_id" := text "u-1"; "fetch_frequency" := text "manual";
     "batch_process_enabled" := VBool false ]}.

Definition accounts : gmap string (table json_literal) :=
  {[ "users" := {| rows := []; serial := None |};
     "user_settings" := {| rows := []; serial := None |} ]}.

(** A schedule whose home participants are not JSON and whose date no
    format recognises. *)
Definition scrimmage : gmap string (value json_literal) :=
  {[ "id" := VInt 1; "user_id" := text "u1"; "date" := text "TBD";
     "home_participants" := text "[oops"; "is_master" := VBool false;
     "source" := text "manual";
     "created_at" := VTime 1; "updated_at" := VTime 1 ]}.

End Sample.

(** ** The vocabulary of the properties *)

(** An operation that only computes, reads the clock or draws identifiers:
    it sends nothing to the store and writes nothing to the log. *)
Definition quiet {J A} (m : M J A) : Prop :=
  forall w,
    db (m w).2 = db w /\ faults (m w).2 = faults w /\
    issued (m w).2 = issued w /\ clock (m w).2 = clock w /\
    (reads w <= reads (m w).2)%nat /\ trace (m w).2 = trace w.

(** An operation propagates the failures of the store: when the store
    fails a statement sent during the operation, the operation raises that
    very failure. *)
Definition faithful {J A} (m : M J A) : Prop :=
  forall w,
    faults (m w).2 = faults w /\
    (issued w <= issued (m w).2)%nat /\
    forall k detail,
      (issued w <= k < issued (m w).2)%nat ->
      faults w k = Some detail ->
      (m w).1 = Raise (StorageError detail).

(** The statements of the cascade, in the order they are sent. *)
Definition cascade {J} (rid : Z) : list (sql J) :=
  [DELETE "extraction_feedback" "recruit_id" (VInt rid);
   DELETE "schedules" "recruit_id" (VInt rid);
   DELETE "recruits" "id" (VInt rid)].

(** The store after every statement of a list has run on it. *)
Fixpoint run_all {J} (qs : list (sql J)) (d : gmap string (table J))
    : option (gmap string (table J)) :=
  match qs with
  | [] => Some d
  | q :: rest =>
      match run_sql q d with
      | Some (_, d') => run_all rest d'
      | None => None
      end
  end.

(** A table without the rows whose column [col] equals [v]. *)
Definition without {J} (col : string) (v : value J) (t : table J) : table J :=
  {| rows := List.filter (fun r => negb (matches col v r)) (rows t);
     serial := serial t |}.

(** The store [d'] is [d] without the feedback and the schedules of
    recruit [rid] and without the recruit. *)
Definition cascaded {J} (rid : Z) (d d' : gmap string (table J)) : Prop :=
  exists f s r,
    d !! "extraction_feedback" = Some f /\
    d !! "schedules" = Some s /\
    d !! "recruits" = Some r /\
    d' = <["recruits" := without "id" (VInt rid) r]>
           (<["schedules" := without "recruit_id" (VInt rid) s]>
              (<["extraction_feedback" := without "recruit_id" (VInt rid) f]> d)).

(** The fields [update] writes: the payload without its [id]. *)
Definition update_fields {J} (obj : payload J) : gmap string (value J) :=
  base.delete "id" match obj with
                   | Model o => model_dump o
                   | Dict d => d
                   end.

(** The statuses that end the processing of a queue item. *)
Definition terminal (s : Models.ProcessingStatus) : bool :=
  match s with
  | Models.COMPLETED | Models.FAILED => true
  | _ => false
  end.

(** A field that is present and not null. *)
Definition given {J} (f : string) (kw : gmap string (value J)) : Prop :=
  exists v, kw !! f = Some v /\ is_null v = false.

(** A row of [team_aliases] as [create] stores it. *)
Definition stored_alias {J} (r : gmap string (value J)) : Prop :=
  is_Some (r !! "created_at") /\ is_Some (r !! "updated_at") /\
  given "team_id" r /\ given "alias" r.

(** The alias string of a row of [team_aliases]. *)
Definition alias_of {J} (r : gmap string (value J)) : option str :=
  match r !! "alias" with
  | Some (VText a) => Some a
  | _ => None
  end.

(** No two rows of [team_aliases] carry the same alias string. *)
Definition aliases_unique {J} (d : gmap string (table J)) : Prop :=
  forall t, d !! "team_aliases" = Some t -> NoDup (omap alias_of (rows t)).

(** A row of [gpt_cache] from which [GPTCache] can be built: it has its
    hash, and its result is a document or text that decodes. *)
Definition decodable {J} (R : runtime J) (r : gmap string (value J)) : Prop :=
  given "content_hash" r /\
  exists v, r !! "result_json" = Some v /\ is_null v = false /\
            forall s, v = VText s -> is_Some (json_loads R s).

(** The columns the update branch writes. *)
Definition upsert_columns {J} (R : runtime J) (result : J) (email : option str) (now : Z)
    : gmap string (value J) :=
  {[ "result_json" := VText (json_dumps R result);
     "email" := opt_text email;
     "updated_at" := VTime now ]}.

(** The later world has the faults and the clock of the earlier one. *)
Definition later {J} (w w' : world J) : Prop :=
  faults w' = faults w /\ clock w' = clock w /\ (reads w <= reads w')%nat.


(** ** Further operations of the services *)

(** The modules below embed more methods of the classes above; each module
    is named after the source file that holds them. *)

(** *** models/email.py and models/recruit.py *)

Module models_email.

Definition Email {J} (kw : row J) : M J (row J) :=
  d ← Models.TimestampModel kw;
  Models.required ["user_id"; "email_id"] d ;;
  mret (Models.with_default "processed" (VInt 0)
          (Models.with_default "has_attachments" (VInt 0)
             (Models.with_default "is_read" (VInt 0) d))).

End models_email.

Module models_recruit.

(** One of the three blocks of [Recruit.to_dict]: a field that holds a
    non-empty string starting with an opening bracket is decoded, and the
    entry of [result] is left as it was when decoding fails. *)
Definition decode_list {J} (R : runtime J) (field : string)
    (self result : row J) : row J :=
  match self !! field with
  | Some (VText ((c :: _) as text)) =>
      if (c =? chr "[")%N then
        match json_loads R text with
        | Some j => <[field := VJson j]> result
        | None => result
        end
      else result
  | _ => result
  end.

(** [Recruit.to_dict]. *)
Definition to_dict {J} (R : runtime J) (self : row J) : row J :=
  let result := model_dump self in
  let result := decode_list R "majors" self result in
  let result := decode_list R "positions" self result in
  let result := decode_list R "clubs" self result in
  result.

End models_recruit.

(** *** services/team_service.py *)

Module team_service.

(** [TeamService.get_by_name]. *)
Definition get_by_name {J} (R : runtime J) (name : str) (normalized : bool)
    : M J (option (row J)) :=
  results ← (if normalized
             then execute_query
                    (SELECT "teams" "normalized_name"
                       (VText (TeamService._normalize_name (unicode R) name)))
             else execute_query (SELECT "teams" "name" (VText name)));
  match results with
  | [] => mret None
  | r :: _ => obj ← Models.Team R r; mret (Some obj)
  end.

(** [TeamService.get_or_create]. The keyword arguments hold no [name]:
    Python rejects a call that gives the parameter twice. An entry of
    [kwargs] replaces the entry of the literal with the same key. *)
Definition get_or_create {J} (R : runtime J) (name : str) (kwargs : row J)
    : M J (row J * bool) :=
  let normalized_name := TeamService._normalize_name (unicode R) name in
  team ← get_by_name R normalized_name true;
  match team with
  | Some t => mret (t, false)
  | None =>
      let team_data :=
        kwargs ∪ {[ "name" := VText name;
                    "normalized_name" := VText normalized_name ]} in
      team ← Models.Team R team_data;
      created_team ← BaseService.create (TeamService.self R) team;
      mret (created_team, true)
  end.

(** [existing_alias.team_id == team_id]. *)
Definition owned_by {J} (team_id : Z) (existing_alias : row J) : bool :=
  match existing_alias !! "team_id" with
  | Some (VInt t) => (t =? team_id)%Z
  | _ => false
  end.

(** The loop of [TeamAliasService.bulk_create_aliases]. The list
    [created_aliases] is one object that the loop appends to, so what was
    appended before an exception is in it when the handler runs: the loop
    gives the list together with the exception that ended it, if any. *)
Fixpoint bulk_loop {J} (team_id : Z) (source : option str) (aliases : list str)
    (created_aliases : list (row J)) (w : world J)
    : (list (row J) * option exn) * world J :=
  match aliases with
  | [] => ((created_aliases, None), w)
  | alias_str :: rest =>
      match TeamAliasService.get_by_alias alias_str w with
      | (Raise e, w1) => ((created_aliases, Some e), w1)
      | (Ret (Some existing_alias), w1) =>
          if owned_by team_id existing_alias
          then bulk_loop team_id source rest (created_aliases ++ [existing_alias]) w1
          else bulk_loop team_id source rest created_aliases w1
      | (Ret None, w1) =>
          match (alias ← Models.TeamAlias
                           {[ "team_id" := VInt team_id;
                              "alias" := VText alias_str;
                              "source" := opt_text source ]};
                 BaseService.create TeamAliasService.self alias) w1 with
          | (Raise e, w2) => ((created_aliases, Some e), w2)
          | (Ret created_alias, w2) =>
              bulk_loop team_id source rest (created_aliases ++ [created_alias]) w2
          end
      end
  end.

(** [TeamAliasService.bulk_create_aliases]. *)
Definition bulk_create_aliases {J} (team_id : Z) (aliases : list str)
    (source : option str) : M J (list (row J)) :=
  fun w =>
    match bulk_loop team_id source aliases [] w with
    | ((created_aliases, None), w') => (Ret created_aliases, w')
    | ((created_aliases, Some e), w') =>
        (log (LogError e) ;; mret created_aliases) w'
    end.

End team_service.

(** *** services/user_service.py *)

Module user_service.

(** [UserSettingsService.get_by_user_id]. *)
Definition get_by_user_id {J} (user_id : str) : M J (option (row J)) :=
  results ← execute_query
    (SELECT (table_name (@UserSettingsService.self J)) "user_id" (VText user_id));
  match results with
  | [] => mret None
  | r :: _ => obj ← Models.UserSettings r; mret (Some obj)
  end.

(** [UserSettingsService.update_by_user_id]. *)
Definition update_by_user_id {J} (user_id : str) (data : row J)
    : M J (option (row J)) :=
  if decide (data = ∅) then get_by_user_id user_id
  else
    results ← execute_query
      (UPDATE (table_name (@UserSettingsService.self J)) data
         "user_id" (VText user_id));
    match results with
    | [] => mret None
    | r :: _ => obj ← Models.UserSettings r; mret (Some obj)
    end.

(** [UserSettingsService.delete_by_user_id]. *)
Definition delete_by_user_id {J} (user_id : str) : M J bool :=
  results ← execute_query
    (DELETE (table_name (@UserSettingsService.self J)) "user_id" (VText user_id));
  mret (0 <? List.length results)%nat.

(** [UserService.get_with_settings]. *)
Definition get_with_settings {J} (R : runtime J) (user_id : str)
    : M J (option (row J) * option (row J)) :=
  user ← BaseService.get_by_id (UserService.self R) (VText user_id);
  match user with
  | None => mret (None, None)
  | Some u =>
      settings ← get_by_user_id user_id;
      mret (Some u, settings)
  end.

(** [UserService.delete_with_settings]. *)
Definition delete_with_settings {J} (R : runtime J) (user_id : str) : M J bool :=
  user ← BaseService.get_by_id (UserService.self R) (VText user_id);
  match user with
  | None => mret false
  | Some _ =>
      delete_by_user_id user_id ;;
      BaseService.delete (UserService.self R) (VText user_id)
  end.

(** [UserService.update_with_settings]; [settings_data] is [None] or a
    dict, and an empty dict counts as not given. *)
Definition update_with_settings {J} (R : runtime J) (user_id : str)
    (user_data : row J) (settings_data : option (row J))
    : M J (option (row J) * option (row J)) :=
  updated_user ← BaseService.update (UserService.self R) (VText user_id)
                   (Dict user_data);
  match updated_user with
  | None => mret (None, None)
  | Some u =>
      match settings_data with
      | Some sd =>
          if decide (sd = ∅) then mret (Some u, None)
          else
            settings ← get_by_user_id user_id;
            match settings with
            | Some _ =>
                updated_settings ← update_by_user_id user_id sd;
                mret (Some u, updated_settings)
            | None =>
                settings ← Models.UserSettings (<["user_id" := VText user_id]> sd);
                updated_settings ← BaseService.create UserSettingsService.self settings;
                mret (Some u, Some updated_settings)
            end
      | None => mret (Some u, None)
      end
  end.

End user_service.

(** *** services/recruit_service.py *)

Module recruit_service.

(** [RecruitService.update_evaluation]. *)
Definition update_evaluation {J} (recruit_id : Z) (rating evaluation : str)
    : M J (option (row J)) :=
  now ← utcnow;
  results ← execute_query
    (UPDATE "recruits"
       {[ "rating" := VText rating;
          "evaluation" := VText evaluation;
          "last_evaluation_date" := VTime now;
          "updated_at" := VTime now ]}
       "id" (VInt recruit_id));
  match results with
  | [] => mret None
  | r :: _ => obj ← Models.Recruit r; mret (Some obj)
  end.

End recruit_service.

(** *** services/email_service.py *)

Module email_service.

(** [EmailService.mark_processed]. *)
Definition mark_processed {J} (email_id : Z) (processed : bool)
    : M J (option (row J)) :=
  let processed_value := if processed then 1%Z else 0%Z in
  processed_date ← (if processed then t ← utcnow; mret (VTime t)
                    else mret VNull);
  now ← utcnow;
  results ← execute_query
    (UPDATE "emails"
       {[ "processed" := VInt processed_value;
          "processed_date" := processed_date;
          "updated_at" := VTime now ]}
       "id" (VInt email_id));
  match results with
  | [] => mret None
  | r :: _ => obj ← models_email.Email r; mret (Some obj)
  end.

(** [EmailQueueService.add_to_queue]. *)
Definition add_to_queue {J} (user_id email_id provider folder_id : str)
    (priority : Z) : M J (row J) :=
  queue_item ← Models.EmailQueue
    {[ "user_id" := VText user_id;
       "email_id" := VText email_id;
       "provider" := VText provider;
       "folder_id" := VText folder_id;
       "status" := VText (Models.status_value Models.QUEUED);
       "priority" := VInt priority ]};
  BaseService.create EmailQueueService.self queue_item.

End email_service.

(** *** More vocabulary *)

(** The normalized name of a row of [teams]. *)
Definition normalized_of {J} (r : gmap string (value J)) : option str :=
  match r !! "normalized_name" with
  | Some (VText a) => Some a
  | _ => None
  end.

(** No two rows of [teams] carry the same normalized name. *)
Definition names_unique {J} (d : gmap string (table J)) : Prop :=
  forall t, d !! "teams" = Some t -> NoDup (omap normalized_of (rows t)).

(** The block of the loop of [bulk_create_aliases] that creates an alias. *)
Definition new_alias {J} (team_id : Z) (alias_str : str) (source : option str)
    : M J (gmap string (value J)) :=
  alias ← Models.TeamAlias
            {[ "team_id" := VInt team_id;
               "alias" := VText alias_str;
               "source" := opt_text source ]};
  BaseService.create TeamAliasService.self alias.

(** A row of [email_queue] as [create] stores it. *)
Definition stored_item {J} (r : gmap string (value J)) : Prop :=
  is_Some (r !! "created_at") /\ is_Some (r !! "updated_at") /\
  given "user_id" r /\ given "email_id" r /\ given "provider" r /\
  given "folder_id" r /\ is_Some (r !! "status") /\ is_Some (r !! "priority").

(** What [to_dict] makes of a model: outside the keys it adds, the result
    has an entry exactly for the fields that are not [None]; no entry is
    [None]; and outside the fields it decodes and the keys it adds, the
    entries are those of [model_dump]. *)
Definition dumped {J} (decoded added : list string)
    (self result : gmap string (value J)) : Prop :=
  (forall c, c ∉ added -> (is_Some (result !! c) <-> given c self)) /\
  (forall c v, result !! c = Some v -> is_null v = false) /\
  (forall c, c ∉ decoded -> c ∉ added -> result !! c = model_dump self !! c).

(** The events that delimit a transaction. *)
Definition transactional {J} (ev : event J) : bool :=
  match ev with
  | Begin | Commit | Rollback => true
  | _ => false
  end.

(** An operation whose statements each take effect on their own: whatever
    it adds to the trace, it opens, commits and rolls back no
    transaction. *)
Definition autocommit {J A} (m : M J A) : Prop :=
  forall w, exists evs,
    trace (m w).2 = evs ++ trace w /\
    Forall (fun ev => transactional ev = false) evs.

(** Keyword arguments as a model accepts them without conversion: every
    key is a field of the model and every value has the type the field
    declares. [fields] gives the type of a field, and nothing for a key
    that is no field. *)
Definition is_text {J} (v : value J) : bool :=
  match v with VText _ => true | _ => false end.

Definition is_int {J} (v : value J) : bool :=
  match v with VInt _ => true | _ => false end.

Definition is_bool {J} (v : value J) : bool :=
  match v with VBool _ => true | _ => false end.

Definition is_time {J} (v : value J) : bool :=
  match v with VTime _ => true | _ => false end.

(** [Optional[T]]. *)
Definition optional {J} (ty : value J -> bool) (v : value J) : bool :=
  is_null v || ty v.

Definition field_ok {J} (fields : string -> option (value J -> bool))
    (c : string) (v : value J) : bool :=
  match fields c with
  | Some ty => ty v
  | None => false
  end.

Definition typed {J} (fields : string -> option (value J -> bool))
    (kw : gmap string (value J)) : Prop :=
  map_Forall (fun c v => field_ok fields c v = true) kw.

(** The fields of [TimestampModel], of [Recruit] and of [UserSettings]. *)
Definition TimestampModel_fields {J} (c : string) : option (value J -> bool) :=
  if bool_decide (c ∈ ["created_at"; "updated_at"]) then Some (optional is_time)
  else None.

Definition Recruit_fields {J} (c : string) : option (value J -> bool) :=
  if bool_decide (c = "user_id") then Some is_text
  else if bool_decide (c = "id") then Some (optional is_int)
  else if bool_decide (c ∈ ["first_name"; "last_name"; "email_address"; "phone";
                            "grad_year"; "state"; "gpa"; "majors"; "positions";
                            "clubs"; "coach_name"; "coach_phone"; "coach_email";
                            "rating"; "evaluation"])
       then Some (optional is_text)
  else if bool_decide (c = "last_evaluation_date") then Some (optional is_time)
  else TimestampModel_fields c.

Definition UserSettings_fields {J} (c : string) : option (value J -> bool) :=
  if bool_decide (c = "user_id") then Some is_text
  else if bool_decide (c = "selected_folders") then Some (optional is_text)
  else if bool_decide (c = "fetch_frequency") then Some is_text
  else if bool_decide (c = "batch_process_enabled") then Some is_bool
  else None.

(** The store answers the statements numbered [k], ..., [k + n - 1]. *)
Definition answers {J} (w : world J) (k n : nat) : Prop :=
  forall i, (k <= i < k + n)%nat -> faults w i = None.

(** A string that holds the code point. *)
Definition holds (c : codepoint) (s : str) : Prop := In c s.

(** ** More concrete runs *)

Module Scenario.

Import Sample.

(** A user with settings. *)
Definition staffed : gmap string (table json_literal) :=
  {[ "users" := {| rows := [coach]; serial := None |};
     "user_settings" := {| rows := [coach_settings]; serial := None |} ]}.

(** A user without settings. *)
Definition hired : gmap string (table json_literal) :=
  {[ "users" := {| rows := [coach]; serial := None |};
     "user_settings" := {| rows := []; serial := None |} ]}.

(** Settings that name another user. *)
Definition borrowed_settings : gmap string (value json_literal) :=
  {[ "user_id" := text "u-2"; "fetch_frequency" := text "daily" ]}.

(** An email that was processed. *)
Definition processed_email : gmap string (value json_literal) :=
  {[ "id" := VInt 1; "user_id" := text "u1"; "email_id" := text "m1";
     "processed" := VInt 1; "processed_date" := VTime 900;
     "created_at" := VTime 800; "updated_at" := VTime 900 ]}.

Definition inbox : gmap string (table json_literal) :=
  {[ "emails" := table_of [processed_email] 2 ]}.

(** Two results, the dicts [{}] and [{'ok': True}], with their JSON
    texts. *)
Inductive document := Empty | Ok.

Definition quoted (s : string) : str := [34%N] ++ of_string s ++ [34%N].

Definition dumps_document (j : document) : str :=
  match j with
  | Empty => of_string "{}"
  | Ok => of_string "{" ++ quoted "ok" ++ of_string ": true}"
  end.

Definition loads_document (s : str) : option document :=
  if bool_decide (s = dumps_document Empty) then Some Empty
  else if bool_decide (s = dumps_document Ok) then Some Ok
  else None.

Definition documents : runtime document :=
  {| unicode := latin1;
     json_dumps := dumps_document;
     json_loads := loads_document;
     md5_hexdigest := md5_table;
     email_str := fun s => existsb (fun c => (c =? chr "@")%N) s;
     parse_datetime := fun _ _ => None |}.

(** A cache with no entry, and one with an entry for the content "abc". *)
Definition cold_cache : gmap string (table document) :=
  {[ "gpt_cache" := table_of [] 1 ]}.

Definition cached : gmap string (value document) :=
  {[ "id" := VInt 1;
     "content_hash" := text "900150983cd24fb0d6963f7d28e17f72";
     "result_json" := text "{}";
     "created_at" := VTime 800; "updated_at" := VTime 800 ]}.

Definition warm_cache : gmap string (table document) :=
  {[ "gpt_cache" := table_of [cached] 2 ]}.

(** Keyword arguments for a recruit whose email address has no at sign. *)
Definition applicant : gmap string (value json_literal) :=
  {[ "user_id" := text "u1"; "email_address" := text "not-an-email" ]}.

End Scenario.
(* ===================================================================== *)
(** * Part II: properties                                                 *)
(* ===================================================================== *)

Section Lowering.
Context (U : casing) (HU : casing_ok U).

#[local] Abbreviation settled := (PyStr.settled U).

Lemma settled_ascii c : (c < 128)%N -> ascii_lower c = c -> settled c.
Proof.
  intros Hc Hl. unfold PyStr.settled. split.
  - rewrite (lower_ascii U HU c Hc). by rewrite Hl.
  - unfold capital_sigma. lia.
Qed.

Lemma lower_from_settled whole i s :
  Forall settled s -> lower_from U whole i s = s.
Proof.
  intros H. revert i. induction H as [|c s [Hc Hs] _ IH]; intros i; simpl.
  - reflexivity.
  - apply N.eqb_neq in Hs. rewrite Hs, Hc, IH. reflexivity.
Qed.

Lemma lower_from_output whole i s : Forall settled (lower_from U whole i s).
Proof.
  revert i. induction s as [|c s IH]; intros i; simpl.
  - constructor.
  - apply Forall_app. split; [|apply IH].
    destruct (N.eqb_spec c capital_sigma) as [_|_].
    + destruct (sigma_stable U HU) as [H1 H2].
      destruct (final_sigma U whole i);
        (constructor; [split; [assumption | discriminate] | constructor]).
    + apply Forall_forall. intros d Hd. apply list_elem_of_In in Hd.
      apply (lower_stable U HU c d Hd).
Qed.

Lemma lower_output s : Forall settled (lower U s).
Proof. apply lower_from_output. Qed.

Lemma lower_settled s : Forall settled s -> lower U s = s.
Proof. apply lower_from_settled. Qed.

Lemma lower_from_ascii whole i s :
  Forall (fun c => (c < 128)%N) s -> lower_from U whole i s = map ascii_lower s.
Proof.
  intros H. revert i. induction H as [|c s Hc _ IH]; intros i; simpl.
  - reflexivity.
  - destruct (N.eqb_spec c capital_sigma) as [E|_].
    + unfold capital_sigma in E. lia.
    + rewrite (lower_ascii U HU c Hc), IH. reflexivity.
Qed.

Lemma replace_settled old new s :
  Forall settled new -> Forall settled s -> Forall settled (replace old new s).
Proof.
  intros Hn Hs. induction Hs as [|c s Hc _ IH]; simpl.
  - constructor.
  - apply Forall_app. split; [|exact IH].
    destruct (c =? old)%N; [exact Hn | by constructor].
Qed.

Lemma replace_absent old new s :
  Forall (fun c => c <> old) s -> replace old new s = s.
Proof.
  induction 1 as [|c s Hc _ IH]; simpl; [reflexivity|].
  apply N.eqb_neq in Hc. rewrite Hc, IH. reflexivity.
Qed.

Lemma replace_removes old new s :
  Forall (fun c => c <> old) new -> Forall (fun c => c <> old) (replace old new s).
Proof.
  intros Hn. induction s as [|c s IH]; simpl; [constructor|].
  apply Forall_app. split; [|exact IH].
  destruct (N.eqb_spec c old); [exact Hn | by constructor].
Qed.

Lemma replace_keeps_absent x old new s :
  Forall (fun c => c <> x) new -> Forall (fun c => c <> x) s ->
  Forall (fun c => c <> x) (replace old new s).
Proof.
  intros Hn Hs. induction Hs as [|c s Hc _ IH]; simpl; [constructor|].
  apply Forall_app. split; [|exact IH].
  destruct (c =? old)%N; [exact Hn | by constructor].
Qed.

End Lowering.

Ltac case_compare :=
  repeat (match goal with
          | |- context [(?a <=? ?b)%N] => destruct (N.leb_spec a b)
          | |- context [(?a =? ?b)%N] => destruct (N.eqb_spec a b)
          end; simpl).

Lemma latin1_lower_range c :
  let d := latin1_lower c in
  ((d < 65 \/ 90 < d) /\ (d < 192 \/ 222 < d \/ d = 215) /\ d <> 931)%N.
Proof.
  unfold latin1_lower, capital_sigma, small_sigma. case_compare; lia.
Qed.

Lemma latin1_lower_fixed d :
  ((d < 65 \/ 90 < d) /\ (d < 192 \/ 222 < d \/ d = 215) /\ d <> 931)%N ->
  latin1_lower d = d.
Proof.
  intros H. unfold latin1_lower, capital_sigma. case_compare; lia.
Qed.

Lemma latin1_ok : casing_ok latin1.
Proof.
  split.
  - intros c Hc. simpl. f_equal.
    unfold latin1_lower, ascii_lower, capital_sigma.
    case_compare; lia.
  - intros c d [<-|[]]. simpl.
    pose proof (latin1_lower_range c) as Hr. simpl in Hr.
    rewrite (latin1_lower_fixed _ Hr). split; [reflexivity|].
    unfold capital_sigma. lia.
  - split; reflexivity.
Qed.

Section Normalization.
Context (U : casing) (HU : casing_ok U).

Import TeamService.

Lemma normalize_name_fixed s :
  Forall (settled U) s ->
  Forall (fun c => c <> chr " ") s ->
  Forall (fun c => c <> chr "-") s ->
  Forall (fun c => c <> chr ".") s ->
  _normalize_name U s = s.
Proof.
  intros Hs H1 H2 H3. destruct s as [|c s]; [reflexivity|].
  unfold _normalize_name. rewrite (lower_settled U _ Hs).
  rewrite (replace_absent _ _ _ H1), (replace_absent _ _ _ H2).
  apply (replace_absent _ _ _ H3).
Qed.

Lemma underscore_settled : Forall (settled U) (of_string "_").
Proof. repeat constructor; [|discriminate]. by rewrite (lower_ascii U HU). Qed.

(** ** C5 *)

(** C5: [_normalize_name] maps "FC United-Youth." to "fc_united_youth" and
    is idempotent: normalizing a normalized name changes nothing. *)
Theorem normalize_name_idempotent :
  _normalize_name U (of_string "FC United-Youth.") = of_string "fc_united_youth"
  /\ forall s, _normalize_name U (_normalize_name U s) = _normalize_name U s.
Proof.
  split.
  - unfold _normalize_name, lower. simpl of_string.
    rewrite (lower_from_ascii U HU).
    + reflexivity.
    + repeat constructor.
  - intros s. destruct s as [|c s]; [reflexivity|].
    apply normalize_name_fixed; unfold _normalize_name.
    + repeat apply replace_settled; try apply underscore_settled;
        try constructor. by apply lower_output.
    + apply replace_keeps_absent; [constructor|].
      apply replace_keeps_absent; [by repeat constructor|].
      apply replace_removes. by repeat constructor.
    + apply replace_keeps_absent; [constructor|].
      apply replace_removes. by repeat constructor.
    + apply replace_removes. constructor.
Qed.

End Normalization.

(** C5 over the Latin-1 character database. *)
Lemma normalize_name_idempotent_witness :
  casing_ok latin1 /\
  (TeamService._normalize_name latin1 (of_string "FC United-Youth.")
     = of_string "fc_united_youth"
   /\ forall s, TeamService._normalize_name latin1 (TeamService._normalize_name latin1 s)
                = TeamService._normalize_name latin1 s).
Proof.
  split; [exact latin1_ok | exact (normalize_name_idempotent latin1 latin1_ok)].
Defined.

(** ** Running operations *)

Ltac unfold_monad :=
  unfold mbind, M_bind, mret, M_ret, bind, ret, raise, try_except, log,
    utcnow, uuid4 in *.


Lemma quiet_ret {J A} (a : A) : quiet (mret a : M J A).
Proof. intros w. unfold_monad. simpl. repeat split; lia. Qed.

Lemma quiet_raise {J A} e : quiet (raise e : M J A).
Proof. intros w. unfold_monad. simpl. repeat split; lia. Qed.

Lemma quiet_utcnow {J} : quiet (@utcnow J).
Proof. intros w. unfold_monad. simpl. repeat split; lia. Qed.

Lemma quiet_uuid4 {J} : quiet (@uuid4 J).
Proof. intros w. unfold_monad. simpl. repeat split; lia. Qed.

Lemma quiet_bind {J A B} (m : M J A) (k : A -> M J B) :
  quiet m -> (forall a, quiet (k a)) -> quiet (m ≫= k).
Proof.
  intros Hm Hk w. specialize (Hm w). unfold_monad.
  destruct (m w) as [[a|e] w1]; simpl in *.
  - specialize (Hk a w1). destruct Hm as (?&?&?&?&?&?), Hk as (?&?&?&?&?&?).
    repeat split; try congruence; lia.
  - exact Hm.
Qed.

Create HintDb quiet.
#[export] Hint Resolve quiet_ret quiet_raise quiet_utcnow quiet_uuid4 : quiet.

Ltac quiet_step :=
  match goal with
  | |- quiet (_ ≫= _) => apply quiet_bind; [|intros ?]
  | |- quiet (match ?x with _ => _ end) => destruct x
  | |- quiet (if ?x then _ else _) => destruct x
  | |- quiet _ => solve [auto with quiet]
  end.

Ltac prove_quiet := repeat quiet_step.

Lemma quiet_required {J} fields (kw : row J) : quiet (Models.required fields kw).
Proof. unfold Models.required. prove_quiet. Qed.

Lemma quiet_TimestampModel {J} (kw : row J) : quiet (Models.TimestampModel kw).
Proof. unfold Models.TimestampModel. prove_quiet. Qed.

#[export] Hint Resolve quiet_required quiet_TimestampModel : quiet.

Lemma quiet_EmailQueue {J} (kw : row J) : quiet (Models.EmailQueue kw).
Proof. unfold Models.EmailQueue. prove_quiet. Qed.

Lemma quiet_TeamAlias {J} (kw : row J) : quiet (Models.TeamAlias kw).
Proof. unfold Models.TeamAlias. prove_quiet. Qed.

Lemma quiet_Recruit {J} (kw : row J) : quiet (Models.Recruit kw).
Proof. unfold Models.Recruit, Models.validate_email. prove_quiet. Qed.

Lemma quiet_GPTCache {J} (R : runtime J) (kw : row J) : quiet (Models.GPTCache R kw).
Proof. unfold Models.GPTCache, Models.validate_result_json. prove_quiet. Qed.

Lemma quiet_Team {J} (R : runtime J) (kw : row J) : quiet (Models.Team R kw).
Proof. unfold Models.Team. prove_quiet. Qed.

Lemma quiet_User {J} (R : runtime J) (kw : row J) : quiet (Models.User R kw).
Proof. unfold Models.User. prove_quiet. Qed.

Lemma quiet_UserSettings {J} (kw : row J) : quiet (Models.UserSettings kw).
Proof. unfold Models.UserSettings. prove_quiet. Qed.

#[export] Hint Resolve quiet_EmailQueue quiet_TeamAlias quiet_Recruit
  quiet_GPTCache quiet_Team quiet_User quiet_UserSettings : quiet.

Lemma quiet_db {J A} (m : M J A) w : quiet m -> db (m w).2 = db w.
Proof. intros H. apply H. Qed.

(** A statement the store does not fail. *)
Lemma execute_query_ok {J} (q : sql J) w rs d :
  faults w (issued w) = None ->
  run_sql q (db w) = Some (rs, d) ->
  execute_query q w = (Ret rs, set_db d (push (Sent q) (next_statement w))).
Proof.
  intros Hf Hq. unfold execute_query, conn_fetch. unfold_monad.
  by rewrite Hf, Hq.
Qed.

(** A statement the store fails: the failure is logged and raised again. *)
Lemma execute_query_fault {J} (q : sql J) w detail :
  faults w (issued w) = Some detail ->
  execute_query q w =
    (Raise (StorageError detail),
     push (LogDebug q) (push (LogError (StorageError detail))
       (push (Sent q) (next_statement w)))).
Proof.
  intros Hf. unfold execute_query, conn_fetch. unfold_monad. by rewrite Hf.
Qed.

(** The three ways a statement can go. *)
Lemma execute_query_cases {J} (q : sql J) w :
  (exists detail, faults w (issued w) = Some detail /\
     execute_query q w =
       (Raise (StorageError detail),
        push (LogDebug q) (push (LogError (StorageError detail))
          (push (Sent q) (next_statement w))))) \/
  (faults w (issued w) = None /\ run_sql q (db w) = None /\
     execute_query q w =
       (Raise (StorageError "undefined table"),
        push (LogDebug q) (push (LogError (StorageError "undefined table"))
          (push (Sent q) (next_statement w))))) \/
  (faults w (issued w) = None /\ exists rs d, run_sql q (db w) = Some (rs, d) /\
     execute_query q w = (Ret rs, set_db d (push (Sent q) (next_statement w)))).
Proof.
  unfold execute_query, conn_fetch. unfold_monad.
  destruct (faults w (issued w)) as [detail|] eqn:Hf.
  - left. by exists detail.
  - right. destruct (run_sql q (db w)) as [[rs d]|] eqn:Hq.
    + right. split; [done|]. by exists rs, d.
    + left. done.
Qed.


Lemma Forall2_map_same {A} (P : A -> A -> Prop) (f : A -> A) l :
  (forall x, P x (f x)) -> Forall2 P l (List.map f l).
Proof. intros H. induction l; simpl; constructor; auto. Qed.


(** ** Failures of the store *)


Lemma quiet_faithful {J A} (m : M J A) : quiet m -> faithful m.
Proof.
  intros H w. destruct (H w) as (_ & Hf & Hi & _).
  split; [done|]. split; [lia|]. intros k detail Hk. lia.
Qed.

Lemma faithful_bind {J A B} (m : M J A) (k : A -> M J B) :
  faithful m -> (forall a, faithful (k a)) -> faithful (m ≫= k).
Proof.
  intros Hm Hk w. specialize (Hm w). unfold_monad.
  destruct (m w) as [[a|e] w1]; simpl in *.
  - specialize (Hk a w1). destruct Hm as (Hf1 & Hi1 & Hp1), Hk as (Hf2 & Hi2 & Hp2).
    split; [congruence|]. split; [lia|].
    intros n detail Hn Hfault.
    destruct (decide (n < issued w1)%nat) as [Hlt|Hge].
    + specialize (Hp1 n detail (conj (proj1 Hn) Hlt) Hfault). done.
    + apply (Hp2 n detail); [lia|]. by rewrite Hf1.
  - destruct Hm as (Hf1 & Hi1 & Hp1). split; [done|]. split; [done|].
    intros n detail Hn Hfault. specialize (Hp1 n detail Hn Hfault). congruence.
Qed.

Lemma faithful_conn_fetch {J} (q : sql J) : faithful (conn_fetch q).
Proof.
  intros w. unfold conn_fetch.
  destruct (faults w (issued w)) as [d|] eqn:Hf.
  - simpl. split; [done|]. split; [lia|]. intros k detail Hk Hfault.
    assert (k = issued w) as -> by lia. congruence.
  - destruct (run_sql q (db w)) as [[rs d]|]; simpl;
      (split; [done|]; split; [lia|]; intros k detail Hk Hfault;
       assert (k = issued w) as -> by lia; congruence).
Qed.

Lemma faithful_execute_query {J} (q : sql J) : faithful (execute_query q).
Proof.
  intros w. pose proof (faithful_conn_fetch q w) as H.
  unfold execute_query. unfold_monad.
  destruct (conn_fetch q w) as [[rs|e] w1]; simpl in *; exact H.
Qed.

Lemma faithful_execute_all {J} (qs : list (sql J)) : faithful (execute_all qs).
Proof.
  induction qs as [|q qs IH]; simpl.
  - apply quiet_faithful, quiet_ret.
  - apply faithful_bind; [|by intros _].
    unfold conn_execute. apply faithful_bind; [apply faithful_conn_fetch|].
    intros _. apply quiet_faithful, quiet_ret.
Qed.

Lemma faithful_execute_transaction {J} (qs : list (sql J)) :
  faithful (execute_transaction qs).
Proof.
  intros w. pose proof (faithful_execute_all qs (push Begin w)) as H.
  unfold execute_transaction.
  destruct (execute_all qs (push Begin w)) as [[u|e] w1]; simpl in *.
  - destruct H as (Hf & Hi & Hp). split; [done|]. split; [done|].
    intros k detail Hk Hfault. by specialize (Hp k detail Hk Hfault).
  - exact H.
Qed.

Create HintDb faithful.
#[export] Hint Resolve faithful_execute_query faithful_execute_transaction : faithful.

Ltac faithful_step :=
  match goal with
  | |- faithful (_ ≫= _) => apply faithful_bind; [|intros ?]
  | |- faithful (match ?x with _ => _ end) => destruct x
  | |- faithful (if ?x then _ else _) => destruct x
  | |- faithful (let _ := _ in _) => cbv zeta
  | |- faithful _ => solve [auto with faithful | apply quiet_faithful; prove_quiet]
  end.

Ltac prove_faithful := repeat faithful_step.

Section Propagation.
Context {J : Type}.

Lemma faithful_get_by_id (self : service J) id_value :
  (forall r, quiet (model_class self r)) ->
  faithful (BaseService.get_by_id self id_value).
Proof. intros H. unfold BaseService.get_by_id. prove_faithful. Qed.

Lemma faithful_create (self : service J) obj :
  (forall r, quiet (model_class self r)) ->
  faithful (BaseService.create self obj).
Proof. intros H. unfold BaseService.create. prove_faithful. Qed.

Lemma faithful_update (self : service J) id_value obj :
  (forall r, quiet (model_class self r)) ->
  faithful (BaseService.update self id_value obj).
Proof.
  intros H. unfold BaseService.update. prove_faithful.
  by apply faithful_get_by_id.
Qed.

Lemma faithful_delete (self : service J) id_value :
  faithful (BaseService.delete self id_value).
Proof. unfold BaseService.delete. prove_faithful. Qed.

Lemma faithful_get_by_content_hash (R : runtime J) h :
  faithful (GPTCacheService.get_by_content_hash R h).
Proof. unfold GPTCacheService.get_by_content_hash. prove_faithful. Qed.

Lemma faithful_create_or_update (R : runtime J) content result email :
  faithful (GPTCacheService.create_or_update R content result email).
Proof.
  unfold GPTCacheService.create_or_update. cbv zeta.
  apply faithful_bind; [apply faithful_get_by_content_hash|]. intros existing.
  destruct existing; prove_faithful.
  apply faithful_create. intros r. apply quiet_GPTCache.
Qed.

Lemma faithful_get_by_alias (alias : str) :
  faithful (@TeamAliasService.get_by_alias J alias).
Proof. unfold TeamAliasService.get_by_alias. prove_faithful. Qed.

Lemma faithful_add_alias (R : runtime J) team_id alias source :
  faithful (TeamService.add_alias R team_id alias source).
Proof.
  unfold TeamService.add_alias.
  apply faithful_bind.
  { apply faithful_get_by_id. intros r. apply quiet_Team. }
  intros [team|]; [|prove_faithful].
  apply faithful_bind; [apply faithful_get_by_alias|].
  intros [a|]; prove_faithful.
  apply faithful_create. intros r. apply quiet_TeamAlias.
Qed.

Lemma faithful_create_with_settings (R : runtime J) user settings :
  faithful (UserService.create_with_settings R user settings).
Proof.
  unfold UserService.create_with_settings.
  apply faithful_bind.
  { apply faithful_create. intros r. apply quiet_User. }
  intros created. destruct settings; prove_faithful.
  apply faithful_create. intros r. apply quiet_UserSettings.
Qed.

Lemma faithful_update_status queue_id status msg :
  faithful (@EmailQueueService.update_status J queue_id status msg).
Proof. unfold EmailQueueService.update_status. prove_faithful. Qed.

End Propagation.

(** ** C1 *)

Section DeleteCascade.
Context {J : Type}.
Import RecruitService.


Lemma execute_all_spec (qs : list (sql J)) w :
  match execute_all qs w with
  | (Ret _, w') =>
      run_all qs (db w) = Some (db w') /\
      trace w' = rev (List.map Sent qs) ++ trace w
  | (Raise _, _) => True
  end.
Proof.
  revert w. induction qs as [|q qs IH]; intros w; simpl.
  - done.
  - unfold conn_execute, conn_fetch. unfold_monad.
    destruct (faults w (issued w)); [done|].
    destruct (run_sql q (db w)) as [[rs d]|]; [|done].
    match goal with |- match execute_all qs ?w1 with _ => _ end =>
      specialize (IH w1); destruct (execute_all qs w1) as [[u|e] w']
    end; [|done].
    simpl in IH. destruct IH as [-> ->]. split; [done|].
    by rewrite <- app_assoc.
Qed.

(** A transaction applies all of its statements or none. *)
Lemma execute_transaction_spec (qs : list (sql J)) w :
  match execute_transaction qs w with
  | (Ret _, w') =>
      run_all qs (db w) = Some (db w') /\
      trace w' = Commit :: rev (List.map Sent qs) ++ Begin :: trace w
  | (Raise _, w') => db w' = db w
  end.
Proof.
  unfold execute_transaction.
  pose proof (execute_all_spec qs (push Begin w)) as H.
  destruct (execute_all qs (push Begin w)) as [[u|e] w']; simpl in *.
  - destruct H as [-> ->]. done.
  - done.
Qed.

Lemma run_all_cascade rid (d d' : gmap string (table J)) :
  run_all (cascade rid) d = Some d' -> cascaded rid d d'.
Proof.
  unfold cascade, run_all, run_sql. intros H.
  destruct (d !! "extraction_feedback") as [f|] eqn:Hfb; [|done].
  rewrite lookup_insert_ne in H by done.
  destruct (d !! "schedules") as [s|] eqn:Hs; [|done].
  rewrite !lookup_insert_ne in H by done.
  destruct (d !! "recruits") as [r|] eqn:Hr; [|done].
  injection H as <-. by exists f, s, r.
Qed.

(* The two ways [delete_cascade] can end, and the absent recruit. *)
Lemma delete_cascade_cases (w : world J) (rid : Z) :
  ((delete_cascade rid w).1 = Ret true /\
   cascaded rid (db w) (db (delete_cascade rid w).2) /\
   trace (delete_cascade rid w).2 =
     Commit :: rev (List.map Sent (cascade rid)) ++ Begin
       :: Sent (SELECT "recruits" "id" (VInt rid)) :: trace w
   \/
   (delete_cascade rid w).1 = Ret false /\
   db (delete_cascade rid w).2 = db w)
  /\
  (forall t,
     db w !! "recruits" = Some t ->
     faults w (issued w) = None ->
     Forall (fun r => matches "id" (VInt rid) r = false) (rows t) ->
     (delete_cascade rid w).1 = Ret false /\
     trace (delete_cascade rid w).2
       = Sent (SELECT "recruits" "id" (VInt rid)) :: trace w).
Proof.
  set (res := delete_cascade rid w).
  assert (res = delete_cascade rid w) as Hres by reflexivity. clearbody res.
  unfold delete_cascade, BaseService.get_by_id in Hres.
  cbn [table_name model_class self] in Hres. fold (@cascade J rid) in Hres.
  unfold_monad.
  destruct (execute_query_cases (SELECT "recruits" "id" (VInt rid)) w)
    as [(detail & Hf & Hq)|[(Hf & Hno & Hq)|(Hf & rs & d & Hsel & Hq)]];
    rewrite Hq in Hres; clear Hq; simpl in Hres.
  - subst res. simpl. split; [by right|]. intros t _ Hf'. congruence.
  - subst res. simpl. split; [by right|]. intros t Ht. simpl in Hno.
    by rewrite Ht in Hno.
  - simpl in Hsel. destruct (db w !! "recruits") as [t|] eqn:Ht; [|done].
    injection Hsel as <- <-.
    destruct (List.filter (matches "id" (VInt rid)) (rows t)) as [|r rs] eqn:Hfilter.
    + subst res. simpl. split; [by right|]. done.
    + split.
      2:{ intros t' [= <-] _ Hnone. exfalso.
          assert (In r (List.filter (matches "id" (VInt rid)) (rows t))) as Hin
            by (rewrite Hfilter; by left).
          apply filter_In in Hin as [Hin Hm].
          rewrite List.Forall_forall in Hnone. specialize (Hnone r Hin). congruence. }
      match type of Hres with context [Models.Recruit r ?w1] =>
        pose proof (quiet_Recruit r w1) as (Hd & _ & _ & _ & _ & Htr);
        destruct (Models.Recruit r w1) as [[obj|e] w2]
      end; simpl in Hres, Hd, Htr.
      * pose proof (execute_transaction_spec (@cascade J rid) w2) as Htx.
        destruct (execute_transaction (@cascade J rid) w2) as [[u|e] w3];
          subst res; simpl.
        -- left. destruct Htx as [Hrun ->]. rewrite Hd in Hrun.
           split; [done|]. split; [by apply run_all_cascade|]. by rewrite Htr.
        -- right. split; [done|]. by rewrite Htx.
      * subst res. simpl. by right.
Qed.

(** The body of [delete_cascade], inside its [try]. *)
Lemma delete_cascade_swallows (rid : Z) (w : world J) k detail :
  (issued w <= k < issued (RecruitService.delete_cascade rid w).2)%nat ->
  faults w k = Some detail ->
  (RecruitService.delete_cascade rid w).1 = Ret false /\
  exists tr, trace (RecruitService.delete_cascade rid w).2
             = LogError (StorageError detail) :: tr.
Proof.
  unfold RecruitService.delete_cascade, try_except.
  match goal with |- context [let (_, _) := ?body w in _] =>
    assert (faithful body) as Hbody
  end.
  { apply faithful_bind.
    - apply faithful_get_by_id. intros r. apply quiet_Recruit.
    - intros [x|]; prove_faithful. }
  specialize (Hbody w). destruct Hbody as (Hf & Hi & Hp).
  match goal with |- context [let (_, _) := ?body w in _] =>
    destruct (body w) as [[b|e] w1]
  end; simpl in *; intros Hk Hfault.
  - specialize (Hp k detail Hk Hfault). done.
  - specialize (Hp k detail Hk Hfault). injection Hp as ->.
    split; [done|]. by eexists.
Qed.

End DeleteCascade.

(** ** C9 *)

Section Update.
Context {J : Type} (self : service J).
Context (Hmodel : forall r, quiet (model_class self r)).


Lemma get_by_id_db id_value w :
  db (BaseService.get_by_id self id_value w).2 = db w.
Proof.
  unfold BaseService.get_by_id. unfold mbind at 1, M_bind at 1, bind at 1.
  destruct (execute_query_cases (SELECT (table_name self) "id" id_value) w)
    as [(detail & _ & ->)|[(_ & _ & ->)|(_ & rs & d & Hq & ->)]]; try done.
  simpl in Hq. destruct (db w !! table_name self); [|done].
  injection Hq as <- <-.
  rewrite quiet_db; [done|]. destruct (List.filter _ _); prove_quiet.
Qed.


End Update.

(** ** C10 *)

Section UpdateStatus.
Context {J : Type}.
Import Models EmailQueueService.


(** C10 (amended): [update_status] overwrites the four columns of the row
    with the given id: [processed_at] becomes the time read when the new
    status is COMPLETED or FAILED and null otherwise, [error_message]
    becomes the supplied message whatever the status (null when none is
    supplied), [status] and [updated_at] are written, and every other
    column and every other row is left as it was. *)
Theorem update_status_overwrites (w : world J) queue_id status msg t :
  db w !! "email_queue" = Some t ->
  faults w (issued w) = None ->
  exists t',
    db (update_status queue_id status msg w).2 !! "email_queue" = Some t' /\
    Forall2 (fun r r' : gmap string (value J) =>
      if matches "id" (VInt queue_id) r then
        r' !! "status" = Some (VText (status_value status)) /\
        r' !! "processed_at" =
          Some (if terminal status then VTime (clock w (reads w)) else VNull) /\
        r' !! "error_message" = Some (opt_text msg) /\
        r' !! "updated_at" =
          Some (VTime (clock w (if terminal status then S (reads w) else reads w))) /\
        forall c, c ∉ ["status"; "processed_at"; "error_message"; "updated_at"] ->
                  r' !! c = r !! c
      else r' = r) (rows t) (rows t').
Proof.
  intros Ht Hf.
  set (pa := if terminal status then VTime (clock w (reads w)) else VNull : value J).
  set (now := clock w (if terminal status then S (reads w) else reads w)).
  set (cols := {[ "status" := VText (status_value status); "processed_at" := pa;
                  "error_message" := opt_text msg; "updated_at" := VTime now ]}
               : gmap string (value J)).
  set (upd := fun r : gmap string (value J) =>
                if matches "id" (VInt queue_id) r then cols ∪ r else r).
  exists {| rows := List.map upd (rows t); serial := serial t |}.
  split.
  - unfold update_status.
    assert (forall w0 : world J, db w0 = db w -> faults w0 (issued w0) = None ->
      db ((results ← execute_query (UPDATE "email_queue" cols "id" (VInt queue_id));
           match results with
           | [] => mret None
           | r :: _ => obj ← EmailQueue r; mret (Some obj)
           end) w0).2 !! "email_queue"
      = Some {| rows := List.map upd (rows t); serial := serial t |}) as Hrun.
    { intros w0 Hdb Hf0. unfold mbind at 1, M_bind at 1, bind at 1.
      erewrite execute_query_ok; [|exact Hf0|simpl; rewrite Hdb, Ht; reflexivity].
      rewrite quiet_db; [simpl; by rewrite lookup_insert_eq|prove_quiet]. }
    destruct status; unfold_monad; simpl; apply Hrun; done.
  - apply Forall2_map_same. intros r. unfold upd.
    destruct (matches "id" (VInt queue_id) r); [|reflexivity].
    unfold cols. repeat split.
    + apply lookup_union_Some_l. by simplify_map_eq.
    + apply lookup_union_Some_l. by simplify_map_eq.
    + apply lookup_union_Some_l. by simplify_map_eq.
    + apply lookup_union_Some_l. by simplify_map_eq.
    + intros c Hc. apply lookup_union_r.
      assert (c <> "status" /\ c <> "processed_at" /\ c <> "error_message"
              /\ c <> "updated_at") as (?&?&?&?) by set_solver.
      by simplify_map_eq.
Qed.

End UpdateStatus.

(** ** Model construction *)

Section Construction.
Context {J : Type}.

Lemma TimestampModel_run (kw : gmap string (value J)) w :
  exists d w',
    Models.TimestampModel kw w = (Ret d, w') /\
    (forall c, c <> "created_at" -> c <> "updated_at" -> d !! c = kw !! c) /\
    (is_Some (kw !! "created_at") -> is_Some (kw !! "updated_at") ->
     d = kw /\ w' = w).
Proof.
  unfold Models.TimestampModel. unfold_monad.
  destruct (kw !! "created_at") as [c0|] eqn:Hc; simpl.
  - destruct (kw !! "updated_at") as [u0|] eqn:Hu; simpl.
    + eexists _, _. split; [done|]. split; [done|]. done.
    + eexists _, _. split; [done|]. split.
      * intros c _ H2. by rewrite lookup_insert_ne.
      * intros _ [? ?]. done.
  - rewrite lookup_insert_ne by done.
    destruct (kw !! "updated_at") as [u0|] eqn:Hu; simpl.
    + eexists _, _. split; [done|]. split.
      * intros c H1 _. by rewrite lookup_insert_ne.
      * intros [? ?]. done.
    + eexists _, _. split; [done|]. split.
      * intros c H1 H2. by rewrite !lookup_insert_ne.
      * intros [? ?]. done.
Qed.


Lemma required_run fields (kw : gmap string (value J)) w :
  Forall (fun f => given f kw) fields ->
  Models.required fields kw w = (Ret tt, w).
Proof.
  intros H. unfold Models.required.
  replace (forallb _ fields) with true; [done|].
  symmetry. apply forallb_forall. intros f Hf.
  rewrite List.Forall_forall in H. destruct (H f Hf) as (v & -> & Hv).
  by rewrite Hv.
Qed.

Lemma TeamAlias_stored (r : gmap string (value J)) w :
  stored_alias r -> Models.TeamAlias r w = (Ret r, w).
Proof.
  intros (Hc & Hu & Ht & Ha). unfold Models.TeamAlias.
  destruct (TimestampModel_run r w) as (d & w' & Hrun & _ & Hsame).
  destruct (Hsame Hc Hu) as [-> ->].
  unfold mbind at 1, M_bind at 1, bind at 1. rewrite Hrun.
  unfold mbind, M_bind, bind. rewrite required_run; [done|].
  repeat constructor; done.
Qed.

End Construction.

(** ** C7 *)

Section AddAlias.
Context {J : Type} (R : runtime J).
Import TeamService.


Lemma matches_alias_of alias (r : gmap string (value J)) :
  matches "alias" (VText alias) r = true <-> alias_of r = Some alias.
Proof.
  unfold matches, alias_of.
  destruct (r !! "alias") as [[]|]; simpl; try (split; done).
  rewrite bool_decide_eq_true. split; congruence.
Qed.

Lemma no_match_no_alias alias (l : list (gmap string (value J))) :
  List.filter (matches "alias" (VText alias)) l = [] ->
  alias ∉ omap alias_of l.
Proof.
  induction l as [|r l IH]; simpl; intros H.
  - apply not_elem_of_nil.
  - destruct (matches "alias" (VText alias) r) eqn:Hm; [done|].
    destruct (alias_of r) as [a|] eqn:Ha; [|by apply IH].
    apply not_elem_of_cons. split; [|by apply IH].
    intros ->. apply matches_alias_of in Ha. congruence.
Qed.

Lemma get_by_alias_inv alias (w : world J) o w' :
  TeamAliasService.get_by_alias alias w = (o, w') ->
  db w' = db w /\
  (o = Ret None ->
   exists t, db w !! "team_aliases" = Some t /\
             List.filter (matches "alias" (VText alias)) (rows t) = []).
Proof.
  unfold TeamAliasService.get_by_alias.
  unfold mbind at 1, M_bind at 1, bind at 1.
  destruct (execute_query_cases (SELECT "team_aliases" "alias" (VText alias)) w)
    as [(detail & _ & ->)|[(_ & _ & ->)|(_ & rs & d & Hq & ->)]].
  - intros [= <- <-]. done.
  - intros [= <- <-]. done.
  - simpl in Hq. destruct (db w !! "team_aliases") as [t|]; [|done].
    injection Hq as <- <-.
    destruct (List.filter _ _) as [|r rs] eqn:Hfl.
    + intros [= <- <-]. split; [done|]. intros _. by exists t.
    + match goal with |- context [(?m ≫= ?k) ?w1] =>
        pose proof (quiet_bind m k (quiet_TeamAlias r) (fun a => quiet_ret _) w1)
          as (Hd & _);
        unfold mbind, M_bind, bind in *;
        destruct (m w1) as [[obj|e] w2]
      end; intros [= <- <-]; simpl in *; by rewrite Hd.
Qed.

Lemma create_alias_unique (a : gmap string (value J)) alias w t :
  a !! "alias" = Some (VText alias) ->
  db w !! "team_aliases" = Some t ->
  List.filter (matches "alias" (VText alias)) (rows t) = [] ->
  aliases_unique (db w) ->
  aliases_unique (db (BaseService.create TeamAliasService.self a w).2).
Proof.
  intros Ha Ht Hnone Huniq. unfold BaseService.create.
  cbn [table_name model_class TeamAliasService.self].
  match goal with |- context [INSERT "team_aliases" ?x] =>
    set (data := x); assert (alias_of data = Some alias) as Hdata
  end.
  { unfold alias_of.
    assert (model_dump a !! "alias" = Some (VText alias)) as Hdump.
    { unfold model_dump. by apply map_lookup_filter_Some. }
    subst data. destruct (model_dump a !! "id") as [v|]; [|by rewrite Hdump].
    destruct (is_null v || _); [|by rewrite Hdump].
    rewrite lookup_delete_ne by done. by rewrite Hdump. }
  unfold mbind at 1, M_bind at 1, bind at 1.
  destruct (execute_query_cases (INSERT "team_aliases" data) w)
    as [(detail & _ & ->)|[(_ & _ & ->)|(_ & rs & d & Hq & ->)]]; try done.
  simpl in Hq. rewrite Ht in Hq.
  assert (exists r s, alias_of r = Some alias /\ rs = [r] /\
            d = <["team_aliases" := {| rows := rows t ++ [r]; serial := s |}]> (db w))
    as (r & s & Hr & -> & ->).
  { destruct (serial t) as [n|], (data !! "id") as [i|] eqn:Hid;
      injection Hq as <- <-; eexists _, _; (split; [|done]); try done.
    unfold alias_of. rewrite lookup_insert_ne by done. exact Hdata. }
  rewrite quiet_db by apply quiet_TeamAlias. simpl.
  intros t'. rewrite lookup_insert_eq. intros [= <-]. simpl.
  rewrite omap_app. simpl. rewrite Hr. simpl.
  apply NoDup_app. split; [by apply Huniq|]. split.
  - intros x Hx Hin. apply list_elem_of_singleton in Hin as ->.
    by apply (no_match_no_alias alias (rows t)).
  - apply NoDup_singleton.
Qed.

Lemma add_alias_unique_step team_id alias source w :
  aliases_unique (db w) ->
  aliases_unique (db (add_alias R team_id alias source w).2).
Proof.
  intros Huniq. unfold add_alias.
  unfold mbind at 1, M_bind at 1, bind at 1.
  pose proof (get_by_id_db (self R) (fun r => quiet_Team R r) (VInt team_id) w) as Hd1.
  destruct (BaseService.get_by_id (self R) (VInt team_id) w) as [[[team|]|e] w1];
    simpl in Hd1; [|simpl; by rewrite Hd1|simpl; by rewrite Hd1].
  unfold mbind at 1, M_bind at 1, bind at 1.
  destruct (TeamAliasService.get_by_alias alias w1) as [o w2] eqn:Hga.
  apply get_by_alias_inv in Hga as [Hd2 Hnone].
  destruct o as [[a|]|e]; simpl; [by rewrite Hd2, Hd1| |by rewrite Hd2, Hd1].
  destruct (Hnone eq_refl) as (t & Ht & Hfl).
  unfold mbind at 1, M_bind at 1, bind at 1.
  match goal with |- context [Models.TeamAlias ?kw w2] =>
    pose proof (quiet_TeamAlias kw w2) as (Hd3 & _);
    assert (forall obj w3, Models.TeamAlias kw w2 = (Ret obj, w3) ->
                           obj !! "alias" = Some (VText alias)) as Hobj;
    [|destruct (Models.TeamAlias kw w2) as [[obj|e] w3]]
  end.
  { intros obj w3. unfold Models.TeamAlias.
    unfold mbind at 1, M_bind at 1, bind at 1.
    match goal with |- context [Models.TimestampModel ?kw w2] =>
      destruct (TimestampModel_run kw w2) as (d & w' & -> & Hkeep & _)
    end.
    unfold mbind, M_bind, bind, mret, M_ret, ret.
    destruct (Models.required _ d w') as [[u|e] w4]; [|done].
    intros [= <- <-]. rewrite Hkeep by done. by simplify_map_eq. }
  - simpl in Hd3. unfold mbind at 1, M_bind at 1, bind at 1.
    match goal with |- context [BaseService.create ?s obj w3] =>
      pose proof (create_alias_unique obj alias w3 t) as Hcreate;
      destruct (BaseService.create s obj w3) as [[created|e] w4]
    end; simpl in *;
      (apply Hcreate;
       [by apply (Hobj obj w3)|by rewrite Hd3, Hd2|done|by rewrite Hd3, Hd2, Hd1]).
  - simpl in *. by rewrite Hd3, Hd2, Hd1.
Qed.

(** C7: [add_alias] returns [None], and leaves the store as it was, when no
    team has the id; when the team is found and a row of [team_aliases]
    already has the alias string, whichever team owns it, that row is
    returned as it is stored and the store is left as it was; and every
    call keeps the alias strings of [team_aliases] distinct. *)
Theorem add_alias_keeps_aliases_unique team_id alias source (w : world J) :
  (forall t,
     db w !! "teams" = Some t ->
     faults w (issued w) = None ->
     Forall (fun r => matches "id" (VInt team_id) r = false) (rows t) ->
     (add_alias R team_id alias source w).1 = Ret None /\
     db (add_alias R team_id alias source w).2 = db w)
  /\ (forall team w1 ta r rest,
        BaseService.get_by_id (self R) (VInt team_id) w = (Ret (Some team), w1) ->
        db w !! "team_aliases" = Some ta ->
        faults w (S (issued w)) = None ->
        List.filter (matches "alias" (VText alias)) (rows ta) = r :: rest ->
        stored_alias r ->
        (add_alias R team_id alias source w).1 = Ret (Some r) /\
        db (add_alias R team_id alias source w).2 = db w)
  /\ (aliases_unique (db w) ->
      aliases_unique (db (add_alias R team_id alias source w).2)).
Proof.
  split_and!.
  - intros t Ht Hf Hnone.
    assert (List.filter (matches "id" (VInt team_id)) (rows t) = []) as Hfl.
    { induction Hnone as [|r rs Hr _ IH]; simpl; [done|]. by rewrite Hr. }
    assert (add_alias R team_id alias source w
            = (Ret None, set_db (db w)
                 (push (Sent (SELECT "teams" "id" (VInt team_id))) (next_statement w))))
      as ->; [|done].
    unfold add_alias, BaseService.get_by_id.
    cbn [table_name model_class self].
    unfold mbind, M_bind, bind.
    erewrite execute_query_ok; [|exact Hf|simpl; rewrite Ht; reflexivity].
    by rewrite Hfl.
  - intros team w1 ta r rest Hteam Hta Hf Hfl Hr.
    pose proof (get_by_id_db (self R) (fun r => quiet_Team R r) (VInt team_id) w) as Hd1.
    pose proof (faithful_get_by_id (self R) (VInt team_id)
                  (fun r => quiet_Team R r) w) as (Hf1 & _).
    assert (issued w1 = S (issued w)) as Hi1.
    { revert Hteam. unfold BaseService.get_by_id.
      unfold mbind at 1, M_bind at 1, bind at 1.
      destruct (execute_query_cases (SELECT (table_name (self R)) "id" (VInt team_id)) w)
        as [(detail & _ & ->)|[(_ & _ & ->)|(_ & rs & d & Hq & ->)]]; try done.
      destruct rs as [|r0 rs]; [done|].
      match goal with |- context [(?m ≫= ?k) ?w0] =>
        pose proof (quiet_bind m k (quiet_Team R r0) (fun a => quiet_ret _) w0)
          as (_ & _ & Hi & _)
      end.
      intros Heq. rewrite Heq in Hi. simpl in Hi. done. }
    rewrite Hteam in Hd1, Hf1. simpl in Hd1, Hf1.
    assert (add_alias R team_id alias source w
            = (Ret (Some r), set_db (db w)
                 (push (Sent (SELECT "team_aliases" "alias" (VText alias)))
                    (next_statement w1))))
      as ->; [|done].
    unfold add_alias. unfold mbind at 1, M_bind at 1, bind at 1.
    rewrite Hteam. unfold TeamAliasService.get_by_alias.
    unfold mbind, M_bind, bind.
    erewrite execute_query_ok;
      [|by rewrite Hf1, Hi1|simpl; rewrite Hd1, Hta; reflexivity].
    rewrite Hfl. rewrite TeamAlias_stored by done. done.
  - apply add_alias_unique_step.
Qed.

End AddAlias.

(** ** The cache *)

Section Upsert.
Context {J : Type} (R : runtime J).
Import GPTCacheService.


Lemma later_refl (w : world J) : later w w.
Proof. by repeat split. Qed.

Lemma later_trans (w1 w2 w3 : world J) :
  later w1 w2 -> later w2 w3 -> later w1 w3.
Proof.
  intros (?&?&?) (?&?&?). repeat split; try congruence. lia.
Qed.

Lemma quiet_later {A} (m : M J A) w : quiet m -> later w (m w).2.
Proof. intros H. destruct (H w) as (_ & ? & _ & ? & ? & _). by repeat split. Qed.

Lemma GPTCache_run (kw : gmap string (value J)) w :
  decodable R kw ->
  exists obj w',
    Models.GPTCache R kw w = (Ret obj, w') /\
    (forall c, c <> "created_at" -> c <> "updated_at" -> c <> "result_json" ->
               obj !! c = kw !! c) /\
    (forall j, kw !! "result_json" = Some (VJson j) ->
               obj !! "result_json" = Some (VJson j)).
Proof.
  intros ((h & Hh & Hhn) & (v & Hv & Hvn & Hdec)). unfold Models.GPTCache.
  destruct (TimestampModel_run kw w) as (d & w' & Hrun & Hkeep & _).
  unfold mbind at 1, M_bind at 1, bind at 1. rewrite Hrun.
  unfold mbind at 1, M_bind at 1, bind at 1.
  rewrite required_run.
  2:{ repeat constructor.
      - exists h. by rewrite Hkeep.
      - exists v. by rewrite Hkeep. }
  rewrite Hkeep by done. rewrite Hv.
  unfold Models.validate_result_json.
  destruct v as [| | |s| |j]; try done; unfold_monad; simpl.
  - eexists _, _. split; [done|]. split; [|done].
    intros c ? ? ?. rewrite lookup_insert_ne by done. by apply Hkeep.
  - eexists _, _. split; [done|]. split; [|done].
    intros c ? ? ?. rewrite lookup_insert_ne by done. by apply Hkeep.
  - destruct (Hdec s eq_refl) as [j ->].
    eexists _, _. split; [done|]. split; [|done].
    intros c ? ? ?. rewrite lookup_insert_ne by done. by apply Hkeep.
  - eexists _, _. split; [done|]. split; [|done].
    intros c ? ? ?. rewrite lookup_insert_ne by done. by apply Hkeep.
  - eexists _, _. split; [done|]. split.
    + intros c ? ? ?. rewrite lookup_insert_ne by done. by apply Hkeep.
    + intros j' [= ->]. by rewrite lookup_insert_eq.
Qed.

Lemma matches_union (cols r : gmap string (value J)) col v :
  cols !! col = None -> matches col v (cols ∪ r) = matches col v r.
Proof. intros H. unfold matches. by rewrite lookup_union_r. Qed.

Lemma filter_updated (cols : gmap string (value J)) col v l :
  cols !! col = None ->
  List.filter (matches col v)
    (List.map (fun r => if matches col v r then cols ∪ r else r) l)
  = List.map (fun r => cols ∪ r) (List.filter (matches col v) l).
Proof.
  intros H. induction l as [|r l IH]; simpl; [done|].
  destruct (matches col v r) eqn:Hm; simpl.
  - rewrite matches_union, Hm by done. simpl. by rewrite IH.
  - by rewrite Hm.
Qed.

(** One call of [create_or_update] on a store that answers: either no row
    has the hash and one is appended, or the rows with the hash are
    overwritten in place. *)
Lemma create_or_update_run content result email (w : world J) t :
  db w !! "gpt_cache" = Some t ->
  (forall k, faults w k = None) ->
  Forall (decodable R)
    (List.filter (matches "content_hash" (VText (generate_hash R content))) (rows t)) ->
  let h := generate_hash R content in
  let w' := (create_or_update R content result email w).2 in
  later w w' /\
  ((List.filter (matches "content_hash" (VText h)) (rows t) = [] /\
    exists new s,
      db w' = <["gpt_cache" := {| rows := rows t ++ [new]; serial := s |}]> (db w) /\
      new !! "content_hash" = Some (VText h) /\
      new !! "result_json" = Some (VJson result) /\
      new !! "email" = VText <$> email)
   \/
   (List.filter (matches "content_hash" (VText h)) (rows t) <> [] /\
    exists k,
      (reads w <= k < reads w')%nat /\
      db w' = <["gpt_cache" :=
                {| rows := List.map
                     (fun r => if matches "content_hash" (VText h) r
                               then upsert_columns R result email (clock w k) ∪ r
                               else r) (rows t);
                   serial := serial t |}]> (db w))).
Proof.
  intros Ht Hfaults Hdec h w'.
  assert (exists res, res = create_or_update R content result email w /\ w' = res.2)
    as (res & Hres & Hw') by (eexists; split; reflexivity).
  clearbody w'. subst w'.
  unfold create_or_update in Hres. fold h in Hres. cbv zeta in Hres.
  unfold mbind at 1, M_bind at 1, bind at 1 in Hres.
  unfold get_by_content_hash in Hres.
  unfold mbind at 1, M_bind at 1, bind at 1 in Hres.
  erewrite execute_query_ok in Hres;
    [|apply Hfaults|simpl; rewrite Ht; reflexivity].
  match type of Hres with context [set_db (db w) ?x] => set (w0 := set_db (db w) x) in Hres end.
  assert (later w w0 /\ db w0 = db w) as [Hl0 Hd0] by (subst w0; by repeat split).
  clearbody w0.
  fold h in Hdec.
  destruct (List.filter (matches "content_hash" (VText h)) (rows t))
    as [|r0 rs] eqn:Hfl.
  - (* no entry: construct and create *)
    unfold mret at 1, M_ret at 1, ret at 1 in Hres. cbv iota beta in Hres.
    set (kw := {[ "content_hash" := VText h; "email" := opt_text email;
                  "result_json" := VJson result ]} : gmap string (value J)) in Hres.
    assert (decodable R kw) as Hkw.
    { split.
      - exists (VText h). by simplify_map_eq.
      - exists (VJson result). split; [by simplify_map_eq|]. split; [done|]. done. }
    destruct (GPTCache_run kw w0 Hkw) as (obj & w1 & Hrun & Hkeep & Hjson).
    pose proof (quiet_later _ w0 (quiet_GPTCache R kw)) as Hl1.
    pose proof (quiet_GPTCache R kw w0) as (Hd1 & _ & Hi1 & _).
    unfold mbind at 1, M_bind at 1, bind at 1 in Hres.
    rewrite Hrun in *. simpl in Hl1, Hd1, Hi1.
    unfold BaseService.create in Hres. cbn [table_name model_class self] in Hres.
    assert (model_dump obj !! "id" = None) as Hid.
    { unfold model_dump. apply map_lookup_filter_None. left.
      rewrite Hkeep by done. by simplify_map_eq. }
    rewrite Hid in Hres.
    unfold mbind at 1, M_bind at 1, bind at 1 in Hres.
    assert (exists new s,
      run_sql (INSERT "gpt_cache" (model_dump obj)) (db w1)
        = Some ([new], <["gpt_cache" := {| rows := rows t ++ [new]; serial := s |}]> (db w))
      /\ new !! "content_hash" = Some (VText h)
      /\ new !! "result_json" = Some (VJson result)
      /\ new !! "email" = VText <$> email) as (new & s & Hins & Hn1 & Hn2 & Hn3).
    { assert (model_dump obj !! "content_hash" = Some (VText h)) as H1.
      { unfold model_dump. apply map_lookup_filter_Some. split; [|done].
        rewrite Hkeep by done. by simplify_map_eq. }
      assert (model_dump obj !! "result_json" = Some (VJson result)) as H2.
      { unfold model_dump. apply map_lookup_filter_Some. split; [|done].
        apply Hjson. by simplify_map_eq. }
      assert (model_dump obj !! "email" = VText <$> email) as H3.
      { unfold model_dump. destruct email as [e|]; simpl.
        - apply map_lookup_filter_Some. split; [|done].
          rewrite Hkeep by done. by simplify_map_eq.
        - apply map_lookup_filter_None. right. intros v.
          rewrite Hkeep by done. simplify_map_eq. intros [= <-]. done. }
      simpl. rewrite Hd1, Hd0, Ht, Hid.
      destruct (serial t) as [n|]; eexists _, _; (split; [reflexivity|]);
        rewrite ?lookup_insert_ne by done; done. }
    erewrite execute_query_ok in Hres;
      [|rewrite (proj1 Hl1), (proj1 Hl0); apply Hfaults|exact Hins].
    cbv iota beta in Hres.
    match type of Hres with context [Models.GPTCache R new ?w2] =>
      pose proof (quiet_later _ w2 (quiet_GPTCache R new)) as Hl3;
      pose proof (quiet_db (Models.GPTCache R new) w2 (quiet_GPTCache R new)) as Hd3;
      assert (later w1 w2) as Hl2 by (by repeat split)
    end.
    rewrite <- Hres in Hl3, Hd3.
    split.
    + eapply later_trans; [exact Hl0|]. eapply later_trans; [exact Hl1|].
      eapply later_trans; [exact Hl2|exact Hl3].
    + left. split; [done|]. exists new, s. rewrite Hd3. simpl. done.
  - (* an entry: overwrite *)
    apply Forall_cons in Hdec as [Hr0 _].
    destruct (GPTCache_run r0 w0 Hr0) as (obj & w1 & Hrun & _).
    pose proof (quiet_later _ w0 (quiet_GPTCache R r0)) as Hl1.
    pose proof (quiet_GPTCache R r0 w0) as (Hd1 & _ & Hi1 & _).
    unfold mbind at 1, M_bind at 1, bind at 1 in Hres.
    rewrite Hrun in *. simpl in Hl1, Hd1, Hi1.
    unfold mret at 1, M_ret at 1, ret at 1 in Hres. cbv iota beta in Hres.
    unfold mbind at 1, M_bind at 1, bind at 1 in Hres.
    unfold utcnow at 1 in Hres. cbv iota beta in Hres.
    unfold mbind at 1, M_bind at 1, bind at 1 in Hres.
    erewrite execute_query_ok in Hres;
      [|simpl; rewrite (proj1 Hl1), (proj1 Hl0); apply Hfaults
       |simpl; rewrite Hd1, Hd0, Ht; reflexivity].
    fold (upsert_columns R result email (clock w1 (reads w1))) in Hres.
    match type of Hres with
    | context [set_db ?d (push ?ev (next_statement (next_reading w1)))] =>
      set (w2 := set_db d (push ev (next_statement (next_reading w1)))) in Hres
    end.
    assert (later w1 w2 /\ (reads w1 < reads w2)%nat) as [Hl2 Hlt].
    { subst w2. repeat split; simpl; lia. }
    match type of Hres with
    | context [match ?l with [] => raise IndexError | _ => _ end w2] =>
      assert (quiet (match l with
                     | [] => raise IndexError
                     | r :: _ => Models.GPTCache R r
                     end)) as Hq by (destruct l; prove_quiet)
    end.
    pose proof (quiet_later _ w2 Hq) as Hl3.
    pose proof (quiet_db _ w2 Hq) as Hd3.
    rewrite <- Hres in Hl3, Hd3.
    split.
    + eapply later_trans; [exact Hl0|]. eapply later_trans; [exact Hl1|].
      eapply later_trans; [exact Hl2|exact Hl3].
    + right. split; [done|]. exists (reads w1).
      destruct Hl0 as (_ & Hc0 & Hr0'), Hl1 as (_ & Hc1 & Hr1), Hl3 as (_ & _ & Hr3).
      split; [lia|]. rewrite Hd3. subst w2. cbn [db set_db].
      rewrite Hc1, Hc0. reflexivity.
Qed.


Lemma upsert_columns_lookup result email now :
  upsert_columns R result email now !! "result_json" = Some (VText (json_dumps R result))
  /\ upsert_columns R result email now !! "email" = Some (opt_text email)
  /\ upsert_columns R result email now !! "updated_at" = Some (VTime now)
  /\ upsert_columns R result email now !! "content_hash" = None.
Proof. unfold upsert_columns. split_and!; by simplify_map_eq. Qed.

(** The second of two calls finds the entry the first one left. *)
Lemma create_or_update_again content result email (w : world J) t entry :
  db w !! "gpt_cache" = Some t ->
  (forall k, faults w k = None) ->
  List.filter (matches "content_hash" (VText (generate_hash R content))) (rows t)
    = [entry] ->
  decodable R entry ->
  let w' := (create_or_update R content result email w).2 in
  later w w' /\
  exists k t',
    (reads w <= k < reads w')%nat /\
    db w' !! "gpt_cache" = Some t' /\
    List.length (rows t') = List.length (rows t) /\
    List.filter (matches "content_hash" (VText (generate_hash R content))) (rows t')
      = [upsert_columns R result email (clock w k) ∪ entry].
Proof.
  intros Ht Hf Hfl Hdec w'.
  destruct (create_or_update_run content result email w t Ht Hf) as [Hl Hcase].
  { rewrite Hfl. constructor; [exact Hdec|constructor]. }
  split; [exact Hl|].
  destruct Hcase as [(Hnone & _)|(_ & k & Hk & Hdb)]; [congruence|].
  eexists k, _. split; [exact Hk|]. fold w' in Hdb. rewrite Hdb.
  rewrite lookup_insert_eq. split; [done|]. simpl. split; [apply length_map|].
  rewrite filter_updated by apply upsert_columns_lookup.
  by rewrite Hfl.
Qed.

End Upsert.

(** ** C8 *)

Section MalformedJson.
Context {J : Type} (R : runtime J).

Lemma quiet_ExtractionFeedback (kw : gmap string (value J)) :
  quiet (Models.ExtractionFeedback R kw).
Proof.
  unfold Models.ExtractionFeedback, Models.validated, Models.validate_json_fields.
  prove_quiet.
Qed.

Lemma GPTCache_malformed (kw : gmap string (value J)) w s :
  kw !! "result_json" = Some (VText s) ->
  json_loads R s = None ->
  exists msg w', Models.GPTCache R kw w = (Raise (ValidationError msg), w').
Proof.
  intros Hkw Hs. unfold Models.GPTCache.
  destruct (TimestampModel_run kw w) as (d & w' & Hrun & Hkeep & _).
  unfold mbind at 1, M_bind at 1, bind at 1. rewrite Hrun.
  unfold mbind at 1, M_bind at 1, bind at 1.
  unfold Models.required at 1.
  destruct (forallb _ _); [|by eexists _, _].
  unfold mret at 1, M_ret at 1, ret at 1. cbv iota beta.
  rewrite Hkeep by done. rewrite Hkw. simpl. rewrite Hs.
  unfold_monad. by eexists _, _.
Qed.

Lemma validated_malformed f (d : gmap string (value J)) w s :
  d !! f = Some (VText s) ->
  json_loads R s = None ->
  Models.validated f (Models.validate_json_fields R) d w
  = (Raise (ValidationError "Invalid JSON format"), w).
Proof.
  intros Hd Hs. unfold Models.validated. rewrite Hd. simpl. rewrite Hs.
  by unfold_monad.
Qed.

Lemma validated_keeps f g (d : gmap string (value J)) w d' w' :
  f <> g ->
  Models.validated f (Models.validate_json_fields R) d w = (Ret d', w') ->
  d' !! g = d !! g /\ w' = w.
Proof.
  intros Hne. unfold Models.validated, Models.validate_json_fields.
  destruct (d !! f) as [v|]; unfold_monad.
  - destruct v as [| | |s| |j]; try destruct (json_loads R s);
      intros [= <- <-]; try done; by rewrite lookup_insert_ne.
  - intros [= <- <-]. done.
Qed.

Lemma ExtractionFeedback_malformed (kw : gmap string (value J)) w f s :
  f = "original_extraction" \/ f = "corrected_values" ->
  kw !! f = Some (VText s) ->
  json_loads R s = None ->
  exists msg w', Models.ExtractionFeedback R kw w = (Raise (ValidationError msg), w').
Proof.
  intros Hf Hkw Hs. unfold Models.ExtractionFeedback.
  destruct (TimestampModel_run kw w) as (d & w' & Hrun & Hkeep & _).
  unfold mbind at 1, M_bind at 1, bind at 1. rewrite Hrun.
  unfold mbind at 1, M_bind at 1, bind at 1.
  unfold Models.required at 1.
  destruct (forallb _ _); [|by eexists _, _].
  unfold mret at 1, M_ret at 1, ret at 1. cbv iota beta.
  assert (d !! f = Some (VText s)) as Hd.
  { rewrite Hkeep; [done| |]; destruct Hf as [-> | ->]; done. }
  unfold mbind at 1, M_bind at 1, bind at 1.
  destruct Hf as [-> | ->].
  - rewrite (validated_malformed _ _ _ _ Hd Hs). by eexists _, _.
  - destruct (Models.validated "original_extraction" _ d w') as [[d1|e] w1] eqn:H1.
    + apply (validated_keeps _ "corrected_values") in H1 as [Hd1 ->]; [|done].
      unfold mbind at 1, M_bind at 1, bind at 1.
      rewrite (validated_malformed _ d1 _ s); [by eexists _, _| |done].
      by rewrite Hd1.
    + revert H1. unfold Models.validated, Models.validate_json_fields.
      destruct (d !! "original_extraction") as [v|]; unfold_monad; [|done].
      destruct v as [| | |s0| |j]; try destruct (json_loads R s0);
        intros [= <- <-]; by eexists _, _.
Qed.

Lemma decode_participants_other f g (self result : gmap string (value J)) :
  f <> g -> Models.decode_participants R f self result !! g = result !! g.
Proof.
  intros Hne. unfold Models.decode_participants.
  destruct (self !! f) as [[| | |[|c text]| |]|]; try done.
  destruct (json_loads R _); [|done]. by rewrite lookup_insert_ne.
Qed.

Lemma decode_participants_malformed f (self result : gmap string (value J)) text :
  self !! f = Some (VText text) ->
  json_loads R text = None ->
  Models.decode_participants R f self result = result.
Proof.
  intros Hself Hs. unfold Models.decode_participants. rewrite Hself.
  destruct text; [done|]. by rewrite Hs.
Qed.

(** C8 (amended): building a [GPTCache] or an [ExtractionFeedback] from a
    row whose JSON text does not decode raises a validation error, and so
    does reading such a cache row back through [get_by_content_hash];
    [Schedule.to_dict] raises nothing: a participants field that does not
    decode is returned as the stored text. *)
Theorem malformed_json_on_read :
  (forall (kw : gmap string (value J)) w s,
     kw !! "result_json" = Some (VText s) ->
     json_loads R s = None ->
     exists msg w', Models.GPTCache R kw w = (Raise (ValidationError msg), w'))
  /\ (forall h (w : world J) t r rest s,
        db w !! "gpt_cache" = Some t ->
        faults w (issued w) = None ->
        List.filter (matches "content_hash" (VText h)) (rows t) = r :: rest ->
        r !! "result_json" = Some (VText s) ->
        json_loads R s = None ->
        exists msg w',
          GPTCacheService.get_by_content_hash R h w
          = (Raise (ValidationError msg), w'))
  /\ (forall (kw : gmap string (value J)) w f s,
        f = "original_extraction" \/ f = "corrected_values" ->
        kw !! f = Some (VText s) ->
        json_loads R s = None ->
        exists msg w',
          Models.ExtractionFeedback R kw w = (Raise (ValidationError msg), w'))
  /\ (forall self : gmap string (value J),
        exists d,
          Models.Schedule_to_dict R self = Ret d /\
          forall f text,
            f = "home_participants" \/ f = "away_participants" ->
            self !! f = Some (VText text) ->
            json_loads R text = None ->
            d !! f = Some (VText text)).
Proof.
  split_and!.
  - apply GPTCache_malformed.
  - intros h w t r rest s Ht Hf Hfl Hr Hs.
    unfold GPTCacheService.get_by_content_hash.
    unfold mbind at 1, M_bind at 1, bind at 1.
    erewrite execute_query_ok; [|exact Hf|simpl; rewrite Ht; reflexivity].
    rewrite Hfl. unfold mbind, M_bind, bind.
    match goal with |- context [Models.GPTCache R r ?w1] =>
      destruct (GPTCache_malformed r w1 s Hr Hs) as (msg & w' & ->)
    end.
    by eexists _, _.
  - apply ExtractionFeedback_malformed.
  - intros self. eexists. split; [reflexivity|].
    intros f text Hf Hself Hs.
    assert (model_dump self !! f = Some (VText text)) as Hdump.
    { unfold model_dump. by apply map_lookup_filter_Some. }
    assert (forall d : gmap string (value J),
      d !! f = Some (VText text) ->
      match self !! "date" with
      | Some (VText ((_ :: _) as date_str)) =>
          match parse_datetime R date_str
                  match self !! "time" with
                  | Some (VText ((_ :: _) as t)) => t
                  | _ => of_string "00:00"
                  end with
          | Some iso => <["formatted_datetime" := VText iso]> d
          | None => d
          end
      | _ => d
      end !! f = Some (VText text)) as Hdate.
    { intros d Hd.
      destruct (self !! "date") as [[| | |[|c ds]| |]|]; try done.
      destruct (parse_datetime R _ _); [|done].
      rewrite lookup_insert_ne; [done|]. destruct Hf as [-> | ->]; done. }
    apply Hdate.
    destruct Hf as [-> | ->].
    + rewrite decode_participants_other by done.
      by rewrite (decode_participants_malformed "home_participants" self _ text Hself Hs).
    + rewrite (decode_participants_malformed "away_participants" self _ text Hself Hs).
      by rewrite decode_participants_other.
Qed.

End MalformedJson.

(* ===================================================================== *)
(** * Part III: further properties of the code                            *)
(* ===================================================================== *)

(** ** Normalized names *)

Section NormalizedNames.
Context (U : casing).
Import TeamService.

Lemma replace_keeps_present x old new s :
  In x s -> x <> old -> In x (replace old new s).
Proof.
  intros Hin Hx. induction s as [|c s IH]; simpl in *; [done|].
  apply in_or_app. destruct Hin as [->|Hin].
  - left. apply N.eqb_neq in Hx. rewrite Hx. by left.
  - right. by apply IH.
Qed.

Lemma Forall_absent (x : codepoint) s : Forall (fun c => c <> x) s <-> ~ In x s.
Proof.
  rewrite List.Forall_forall. split.
  - intros H Hin. by apply (H x Hin).
  - intros H c Hc ->. by apply H.
Qed.

Lemma normalize_name_absent name :
  Forall (fun c => c <> chr " ") (_normalize_name U name) /\
  Forall (fun c => c <> chr "-") (_normalize_name U name) /\
  Forall (fun c => c <> chr ".") (_normalize_name U name).
Proof.
  destruct name as [|c name]; [by repeat constructor|].
  unfold _normalize_name. split_and!.
  - apply replace_keeps_absent; [constructor|].
    apply replace_keeps_absent; [by repeat constructor|].
    apply replace_removes. by repeat constructor.
  - apply replace_keeps_absent; [constructor|].
    apply replace_removes. by repeat constructor.
  - apply replace_removes. constructor.
Qed.

Lemma normalize_name_settled name :
  casing_ok U -> Forall (settled U) (_normalize_name U name).
Proof.
  intros HU. destruct name as [|c name]; [constructor|].
  unfold _normalize_name.
  repeat apply replace_settled; try apply (underscore_settled U HU);
    try constructor. by apply lower_output.
Qed.

(** Normalizing twice is normalizing once. *)
Lemma normalize_name_twice name :
  casing_ok U -> _normalize_name U (_normalize_name U name) = _normalize_name U name.
Proof.
  intros HU. destruct (normalize_name_absent name) as (H1 & H2 & H3).
  apply (normalize_name_fixed U); try done. by apply normalize_name_settled.
Qed.

(** [_normalize_name] never returns a string with a space, a hyphen or a
    period in it, whatever the character database; and over a character
    database that lower-cases ASCII as usual, never one with an ASCII
    capital letter. *)
Theorem normalize_name_alphabet (name : str) :
  Forall (fun c => c <> chr " " /\ c <> chr "-" /\ c <> chr ".")
    (_normalize_name U name)
  /\ (casing_ok U ->
      Forall (fun c => ~ (65 <= c <= 90)%N) (_normalize_name U name)).
Proof.
  destruct (normalize_name_absent name) as (H1 & H2 & H3). split.
  - rewrite List.Forall_forall in *. intros c Hc. split_and!; eauto.
  - intros HU. pose proof (normalize_name_settled name HU) as Hs.
    eapply List.Forall_impl; [|exact Hs]. intros c [Hc _] Hrange.
    rewrite (lower_ascii U HU) in Hc by lia.
    unfold ascii_lower in Hc.
    destruct (N.leb_spec 65 c), (N.leb_spec c 90); simpl in Hc; try lia.
    injection Hc. lia.
Qed.

(** The validator of [Team.normalized_name], run on a missing or empty
    value, gives the name that [TeamService._normalize_name] gives exactly
    when the lower-cased name has neither a hyphen nor a period. *)
Theorem set_normalized_name_agrees {J} (v : option str) (name : str)
    (values : gmap string (value J)) :
  default [] v = [] ->
  name <> [] ->
  values !! "name" = Some (VText name) ->
  Models.set_normalized_name U v values = Some (_normalize_name U name)
  <-> ~ holds (chr "-") (lower U name) /\ ~ holds (chr ".") (lower U name).
Proof.
  intros Hv Hname Hvalues. unfold holds.
  assert (Models.set_normalized_name U v values
          = Some (replace (chr " ") (of_string "_") (lower U name))) as ->.
  { unfold Models.set_normalized_name. rewrite Hvalues.
    destruct v as [[|c s]|]; try done; by destruct name. }
  destruct (normalize_name_absent name) as (_ & H2 & H3).
  assert (_normalize_name U name
          = replace (chr ".") []
              (replace (chr "-") (of_string "_")
                 (replace (chr " ") (of_string "_") (lower U name)))) as Hn
    by (by destruct name).
  rewrite Hn in *. set (x := replace (chr " ") (of_string "_") (lower U name)) in *.
  split.
  - intros Hx. apply (inj Some) in Hx. rewrite <- Hx in H2, H3.
    apply Forall_absent in H2, H3. split; intros Hin.
    + apply H2. by apply replace_keeps_present.
    + apply H3. by apply replace_keeps_present.
  - intros [Hh Hp]. f_equal. apply Forall_absent in Hh, Hp.
    assert (Forall (fun c => c <> chr "-") x) as Hxh
      by (apply replace_keeps_absent; [by repeat constructor|done]).
    assert (Forall (fun c => c <> chr ".") x) as Hxp
      by (apply replace_keeps_absent; [by repeat constructor|done]).
    rewrite (replace_absent _ _ _ Hxh). by rewrite (replace_absent _ _ _ Hxp).
Qed.

End NormalizedNames.

(** ** Statements and transactions *)

Section Statements.
Context {J : Type}.

Lemma execute_all_run (qs : list (sql J)) (w : world J) d' :
  answers w (issued w) (List.length qs) ->
  run_all qs (db w) = Some d' ->
  exists w', execute_all qs w = (Ret tt, w') /\ db w' = d'.
Proof.
  revert w. induction qs as [|q qs IH]; intros w Hans Hrun; simpl in *.
  - injection Hrun as <-. by exists w.
  - destruct (run_sql q (db w)) as [[rs d]|] eqn:Hq; [|done].
    unfold conn_execute, conn_fetch. unfold_monad.
    rewrite (Hans (issued w)) by lia. rewrite Hq.
    apply IH; [|done].
    intros i Hi. simpl in *. apply Hans. lia.
Qed.

(** [execute_transaction] applies all of its statements or none: on a store
    that answers them it returns with every statement applied, in order,
    between the opening and the commit; whenever it returns, the store is
    the one all the statements give; and whenever it raises, the store is
    as it was and the transaction was rolled back. *)
Theorem execute_transaction_all_or_nothing (queries : list (sql J)) (w : world J) :
  let res := execute_transaction queries w in
  (forall d',
     answers w (issued w) (List.length queries) ->
     run_all queries (db w) = Some d' ->
     res.1 = Ret tt /\ db res.2 = d')
  /\ (res.1 = Ret tt ->
      run_all queries (db w) = Some (db res.2) /\
      trace res.2 = Commit :: rev (List.map Sent queries) ++ Begin :: trace w)
  /\ (forall e, res.1 = Raise e ->
        db res.2 = db w /\ exists sent, trace res.2 = Rollback :: sent).
Proof.
  cbv zeta. split_and!.
  - intros d' Hans Hrun.
    destruct (execute_all_run queries (push Begin w) d' Hans Hrun) as (w' & Hw' & Hd).
    unfold execute_transaction. rewrite Hw'. done.
  - pose proof (execute_transaction_spec queries w) as H.
    destruct (execute_transaction queries w) as [[[]|e] w']; [|done]. by intros _.
  - intros e. unfold execute_transaction.
    destruct (execute_all queries (push Begin w)) as [[[]|e'] w']; [done|].
    intros _. split; [done|]. by eexists.
Qed.

End Statements.

(** ** The generic operations *)

Section Generic.
Context {J : Type} (self : service J).
Context (Hmodel : forall r, quiet (model_class self r)).

Lemma filter_none (f : gmap string (value J) -> bool) l :
  List.filter f (List.filter (fun r => negb (f r)) l) = [].
Proof.
  induction l as [|r l IH]; simpl; [done|].
  destruct (f r) eqn:Hf; simpl; [done|]. by rewrite Hf.
Qed.

Lemma filter_nil_Forall (f : gmap string (value J) -> bool) l :
  List.filter f l = [] <-> Forall (fun r => f r = false) l.
Proof.
  induction l as [|r l IH]; simpl.
  - split; [constructor|done].
  - destruct (f r) eqn:Hf.
    + split; [done|]. intros H. inversion H; congruence.
    + rewrite IH. split; [by constructor|]. intros H. by inversion H.
Qed.

Lemma filter_all (f : gmap string (value J) -> bool) l :
  Forall (fun r => f r = false) l -> List.filter (fun r => negb (f r)) l = l.
Proof.
  induction 1 as [|r l Hr _ IH]; simpl; [done|]. by rewrite Hr, IH.
Qed.

Lemma existsb_filter (f : gmap string (value J) -> bool) l :
  existsb f l = (0 <? List.length (List.filter f l))%nat.
Proof.
  induction l as [|r l IH]; simpl; [done|]. by destruct (f r).
Qed.

(** A lookup by id that found a row. *)
Lemma get_by_id_inv (id_value : value J) (w w1 : world J) obj :
  BaseService.get_by_id self id_value w = (Ret (Some obj), w1) ->
  exists t r rest,
    db w !! table_name self = Some t /\
    List.filter (matches "id" id_value) (rows t) = r :: rest /\
    db w1 = db w /\ faults w1 = faults w /\ issued w1 = S (issued w) /\
    faults w (issued w) = None.
Proof.
  unfold BaseService.get_by_id. unfold mbind at 1, M_bind at 1, bind at 1.
  destruct (execute_query_cases (SELECT (table_name self) "id" id_value) w)
    as [(detail & _ & ->)|[(_ & _ & ->)|(Hf & rs & d & Hq & ->)]]; try done.
  cbn [run_sql] in Hq. destruct (db w !! table_name self) as [t|]; [|done].
  injection Hq as <- <-.
  destruct (List.filter _ _) as [|r rest] eqn:Hfl; [done|].
  match goal with |- context [(?m ≫= ?k) ?w0] =>
    pose proof (quiet_bind m k (Hmodel r) (fun a => quiet_ret _) w0)
      as (Hd & Hfa & Hi & _)
  end.
  intros Heq. rewrite Heq in Hd, Hfa, Hi. simpl in Hd, Hfa, Hi.
  by exists t, r, rest.
Qed.

(** [delete] on a store that answers. *)
Lemma delete_run (id_value : value J) (w : world J) t :
  db w !! table_name self = Some t ->
  faults w (issued w) = None ->
  BaseService.delete self id_value w
  = (Ret (existsb (matches "id" id_value) (rows t)),
     set_db (<[table_name self := without "id" id_value t]> (db w))
       (push (Sent (DELETE (table_name self) "id" id_value)) (next_statement w))).
Proof.
  intros Ht Hf. unfold BaseService.delete. unfold mbind, M_bind, bind.
  erewrite execute_query_ok; [|exact Hf|simpl; rewrite Ht; reflexivity].
  unfold mret, M_ret, ret. by rewrite existsb_filter.
Qed.

(** [delete] on a store that answers: it returns whether a row had the id,
    the store loses exactly the rows with the id, a lookup of the id
    afterwards finds nothing, and deleting an id that no row has leaves the
    store as it was. *)
Theorem delete_removes (id_value : value J) (w : world J) t :
  db w !! table_name self = Some t ->
  faults w (issued w) = None ->
  let res := BaseService.delete self id_value w in
  res.1 = Ret (existsb (matches "id" id_value) (rows t))
  /\ db res.2 = <[table_name self := without "id" id_value t]> (db w)
  /\ (faults w (S (issued w)) = None ->
      (BaseService.get_by_id self id_value res.2).1 = Ret None)
  /\ (Forall (fun r => matches "id" id_value r = false) (rows t) ->
      res.1 = Ret false /\ db res.2 = db w).
Proof.
  intros Ht Hf. cbv zeta. rewrite (delete_run id_value w t Ht Hf).
  cbn [fst snd db set_db]. split_and!; [done|done| |].
  - intros Hf1. unfold BaseService.get_by_id. unfold mbind, M_bind, bind.
    erewrite execute_query_ok;
      [|exact Hf1|cbn [run_sql db set_db]; rewrite lookup_insert_eq; reflexivity].
    cbn [rows without]. by rewrite filter_none.
  - intros Hnone. split.
    + f_equal. apply not_true_is_false. intros Hex.
      apply existsb_exists in Hex as (r & Hin & Hr).
      rewrite List.Forall_forall in Hnone. specialize (Hnone r Hin). congruence.
    + unfold without. rewrite filter_all by done.
      destruct t. by apply insert_id.
Qed.

(** [create] strips the [id] of the model only when the model annotates it
    as a bare [int]. With any other annotation a model that carries an id
    is stored under that id and the sequence of the table is not advanced;
    with a bare [int] the id given is dropped and the sequence numbers the
    row. *)
Theorem create_given_id (obj : gmap string (value J)) (v : value J)
    (w : world J) t :
  obj !! "id" = Some v ->
  is_null v = false ->
  db w !! table_name self = Some t ->
  faults w (issued w) = None ->
  let res := BaseService.create self obj w in
  (_is_id_auto_assigned self = false ->
   db res.2 = <[table_name self :=
                 {| rows := rows t ++ [model_dump obj]; serial := serial t |}]> (db w))
  /\ (forall n, _is_id_auto_assigned self = true -> serial t = Some n ->
      db res.2 = <[table_name self :=
                    {| rows := rows t ++ [<["id" := VInt n]> (model_dump obj)];
                       serial := Some (n + 1)%Z |}]> (db w)).
Proof.
  intros Hid Hv Ht Hf. cbv zeta.
  assert (model_dump obj !! "id" = Some v) as Hdump
    by (unfold model_dump; by apply map_lookup_filter_Some).
  unfold BaseService.create. rewrite Hdump, Hv. cbn [orb].
  split.
  - intros ->. unfold mbind at 1, M_bind at 1, bind at 1.
    rewrite (execute_query_ok _ w [model_dump obj]
               (<[table_name self :=
                   {| rows := rows t ++ [model_dump obj]; serial := serial t |}]> (db w)));
      [|exact Hf|].
    2:{ cbn [run_sql]. rewrite Ht, Hdump. by destruct (serial t). }
    by rewrite quiet_db.
  - intros n -> Hs. unfold mbind at 1, M_bind at 1, bind at 1.
    erewrite execute_query_ok; [|exact Hf|].
    2:{ cbn [run_sql]. rewrite Ht, Hs, lookup_delete_eq. reflexivity. }
    rewrite quiet_db by done. cbn [db set_db].
    replace (<["id" := VInt n]> (base.delete "id" (model_dump obj)))
      with (<["id" := VInt n]> (model_dump obj)); [done|].
    apply map_eq. intros c. destruct (decide (c = "id")) as [->|Hc].
    + by rewrite !lookup_insert_eq.
    + by rewrite !lookup_insert_ne, lookup_delete_ne.
Qed.

End Generic.
(** ** The cascade, all or nothing *)

Section DeleteCascadeTheorem.
Context {J : Type}.
Import RecruitService.

(** A list of statements one of which the store fails does not run to its
    end. *)
Lemma execute_all_raises (qs : list (sql J)) (w : world J) k detail :
  (issued w <= k < issued w + List.length qs)%nat ->
  faults w k = Some detail ->
  exists e w', execute_all qs w = (Raise e, w').
Proof.
  revert w. induction qs as [|q qs IH]; intros w Hk Hfault; simpl in *; [lia|].
  unfold conn_execute, conn_fetch. unfold_monad.
  destruct (faults w (issued w)) as [d0|] eqn:Hf0; [by eexists _, _|].
  destruct (run_sql q (db w)) as [[rs d]|]; [|by eexists _, _].
  apply IH; simpl; [|done].
  assert (k <> issued w) by (intros ->; congruence). lia.
Qed.

(** The statements of the cascade on a store that has the three tables. *)
Lemma run_all_cascade_run rid (d : gmap string (table J)) f s r :
  d !! "extraction_feedback" = Some f ->
  d !! "schedules" = Some s ->
  d !! "recruits" = Some r ->
  run_all (cascade rid) d
  = Some (<["recruits" := without "id" (VInt rid) r]>
            (<["schedules" := without "recruit_id" (VInt rid) s]>
               (<["extraction_feedback" := without "recruit_id" (VInt rid) f]> d))).
Proof.
  intros Hf Hs Hr. unfold cascade, run_all, run_sql.
  rewrite Hf. rewrite lookup_insert_ne by done. rewrite Hs.
  rewrite !lookup_insert_ne by done. rewrite Hr. reflexivity.
Qed.

(** C1: [delete_cascade] never raises; it returns [True] after a committed
    transaction that deleted the feedback, then the schedules, then the
    recruit, or it returns [False] and the store is as it was. When the
    recruit is found and the store answers the three deletes, it returns
    [True] and the store has lost the feedback and the schedules of the
    recruit and the recruit. When the recruit is found and the store fails
    one of the three deletes, whichever it is and whatever the deletes
    before it removed, it returns [False] and the store is as it was
    before the call; so it is for every statement of the call that the
    store fails. When no recruit has the id it returns [False] having sent
    the lookup only, with no transaction opened. *)
Theorem delete_cascade_atomic (w : world J) (rid : Z) :
  ((delete_cascade rid w).1 = Ret true /\
   cascaded rid (db w) (db (delete_cascade rid w).2) /\
   trace (delete_cascade rid w).2 =
     Commit :: rev (List.map Sent (cascade rid)) ++ Begin
       :: Sent (SELECT "recruits" "id" (VInt rid)) :: trace w
   \/
   (delete_cascade rid w).1 = Ret false /\
   db (delete_cascade rid w).2 = db w)
  /\
  (forall recruit w1 f s,
     BaseService.get_by_id self (VInt rid) w = (Ret (Some recruit), w1) ->
     db w !! "extraction_feedback" = Some f ->
     db w !! "schedules" = Some s ->
     answers w (S (issued w)) 3 ->
     (delete_cascade rid w).1 = Ret true /\
     cascaded rid (db w) (db (delete_cascade rid w).2) /\
     trace (delete_cascade rid w).2 =
       Commit :: rev (List.map Sent (cascade rid)) ++ Begin
         :: Sent (SELECT "recruits" "id" (VInt rid)) :: trace w)
  /\
  (forall recruit w1 k detail,
     BaseService.get_by_id self (VInt rid) w = (Ret (Some recruit), w1) ->
     (S (issued w) <= k < S (issued w) + 3)%nat ->
     faults w k = Some detail ->
     (delete_cascade rid w).1 = Ret false /\
     db (delete_cascade rid w).2 = db w /\
     exists e tr, trace (delete_cascade rid w).2 = LogError e :: Rollback :: tr)
  /\
  (forall k detail,
     (issued w <= k < issued (delete_cascade rid w).2)%nat ->
     faults w k = Some detail ->
     (delete_cascade rid w).1 = Ret false /\
     db (delete_cascade rid w).2 = db w)
  /\
  (forall t,
     db w !! "recruits" = Some t ->
     faults w (issued w) = None ->
     Forall (fun r => matches "id" (VInt rid) r = false) (rows t) ->
     (delete_cascade rid w).1 = Ret false /\
     trace (delete_cascade rid w).2
       = Sent (SELECT "recruits" "id" (VInt rid)) :: trace w).
Proof.
  destruct (delete_cascade_cases w rid) as [Hcases Habsent].
  split_and!; [exact Hcases| | | |exact Habsent].
  - (* the recruit is found and the store answers *)
    intros recruit w1 f s Hget Hf Hs Hans.
    destruct (get_by_id_inv self (fun r => quiet_Recruit r) _ _ _ _ Hget)
      as (t & r & rest & Ht & Hfl & Hd1 & Hfa1 & Hi1 & Hf0).
    cbn [table_name self] in Ht.
    destruct (execute_all_run (cascade rid) (push Begin w1)
                (<["recruits" := without "id" (VInt rid) t]>
                   (<["schedules" := without "recruit_id" (VInt rid) s]>
                      (<["extraction_feedback" :=
                          without "recruit_id" (VInt rid) f]> (db w)))))
      as (w2 & Hrun & Hd2).
    { intros i Hi. cbn [issued faults push List.length cascade] in *.
      rewrite Hfa1. apply Hans. lia. }
    { cbn [db push]. rewrite Hd1. by apply run_all_cascade_run. }
    assert (delete_cascade rid w = (Ret true, push Commit w2)) as Hres.
    { unfold delete_cascade, try_except. fold (@cascade J rid).
      unfold mbind at 1, M_bind at 1, bind at 1. rewrite Hget.
      unfold mbind, M_bind, bind, execute_transaction. by rewrite Hrun. }
    assert ((delete_cascade rid w).1 = Ret true) as Htrue by (by rewrite Hres).
    destruct Hcases as [(_ & Hc & Htr)|(Hfalse & _)]; [|congruence].
    done.
  - (* the recruit is found and the store fails one of the deletes *)
    intros recruit w1 k detail Hget Hk Hfault.
    destruct (get_by_id_inv self (fun r => quiet_Recruit r) _ _ _ _ Hget)
      as (t & r & rest & Ht & Hfl & Hd1 & Hfa1 & Hi1 & Hf0).
    destruct (execute_all_raises (cascade rid) (push Begin w1) k detail)
      as (e & w2 & Hrun).
    { cbn [issued push List.length cascade]. lia. }
    { cbn [faults push]. by rewrite Hfa1. }
    assert (delete_cascade rid w
            = (Ret false, push (LogError e) (push Rollback (set_db (db w1) w2))))
      as Hres.
    { unfold delete_cascade, try_except. fold (@cascade J rid).
      unfold mbind at 1, M_bind at 1, bind at 1. rewrite Hget.
      unfold mbind, M_bind, bind, execute_transaction. rewrite Hrun.
      reflexivity. }
    rewrite Hres. cbn [fst snd db trace push set_db]. split; [done|].
    split; [done|]. by eexists _, _.
  - intros k detail Hk Hfault.
    destruct (delete_cascade_swallows rid w k detail Hk Hfault) as [Hfalse _].
    split; [done|].
    destruct Hcases as [(Htrue & _)|(_ & Hdb)]; [congruence|done].
Qed.

End DeleteCascadeTheorem.

(** ** Creating rows *)

Section Creating.
Context {J : Type}.

Lemma model_dump_lookup (obj : gmap string (value J)) c v :
  model_dump obj !! c = Some v <-> obj !! c = Some v /\ is_null v = false.
Proof. unfold model_dump. apply map_lookup_filter_Some. Qed.

Lemma model_dump_given f (obj : gmap string (value J)) :
  given f (model_dump obj) <-> given f obj.
Proof.
  unfold given. split.
  - intros (v & Hv & Hn). apply model_dump_lookup in Hv as [Hv _]. eauto.
  - intros (v & Hv & Hn). exists v. split; [|done]. by apply model_dump_lookup.
Qed.

(** What a [create] that returned has done: one statement was sent, the
    store answered it, and the table has one more row, which has the
    columns of the model that are not null, its [id] apart. *)
Lemma create_inv (self : service J) (obj created : gmap string (value J)) w w1 :
  (forall r, quiet (model_class self r)) ->
  BaseService.create self obj w = (Ret created, w1) ->
  exists t r s,
    db w !! table_name self = Some t /\
    db w1 = <[table_name self := {| rows := rows t ++ [r]; serial := s |}]> (db w) /\
    (forall c, c <> "id" -> r !! c = model_dump obj !! c) /\
    faults w (issued w) = None /\
    faults w1 = faults w /\
    issued w1 = S (issued w) /\
    exists w0, db w0 = db w1 /\ model_class self r w0 = (Ret created, w1).
Proof.
  intros Hmodel. unfold BaseService.create.
  match goal with |- context [INSERT _ ?x] =>
    set (data := x);
    assert (forall c, c <> "id" -> data !! c = model_dump obj !! c) as Hdata
  end.
  { intros c Hc. subst data. destruct (model_dump obj !! "id") as [v|]; [|done].
    destruct (is_null v || _); [|done]. by rewrite lookup_delete_ne. }
  clearbody data.
  unfold mbind at 1, M_bind at 1, bind at 1.
  destruct (execute_query_cases (INSERT (table_name self) data) w)
    as [(detail & _ & ->)|[(_ & _ & ->)|(Hf & rs & d & Hq & ->)]]; try done.
  cbn [run_sql] in Hq. destruct (db w !! table_name self) as [t|] eqn:Ht; [|done].
  assert (exists r s, (forall c, c <> "id" -> r !! c = data !! c) /\ rs = [r] /\
            d = <[table_name self := {| rows := rows t ++ [r]; serial := s |}]> (db w))
    as (r & s & Hr & -> & ->).
  { destruct (serial t) as [n|], (data !! "id") as [i|] eqn:Hid;
      injection Hq as <- <-; eexists _, _; (split; [|done]); try done.
    intros c Hc. by rewrite lookup_insert_ne. }
  intros Hrun. exists t, r, s. split; [done|].
  destruct (Hmodel r (set_db (<[table_name self := {| rows := rows t ++ [r]; serial := s |}]> (db w))
                        (push (Sent (INSERT (table_name self) data)) (next_statement w))))
    as (Hd & Hfl & Hi & _).
  rewrite Hrun in Hd, Hfl, Hi. cbn [snd db set_db faults issued push next_statement] in Hd, Hfl, Hi.
  split_and!; try done.
  - intros c Hc. rewrite Hr by done. by apply Hdata.
  - eexists. split; [|exact Hrun]. done.
Qed.

End Creating.

(** ** Teams *)

Section Teams.
Context {J : Type} (R : runtime J).
Import TeamService team_service.

#[local] Abbreviation U := (unicode R).

Lemma matches_normalized_of a (r : gmap string (value J)) :
  matches "normalized_name" (VText a) r = true <-> normalized_of r = Some a.
Proof.
  unfold matches, normalized_of.
  destruct (r !! "normalized_name") as [[]|]; simpl; try (split; done).
  rewrite bool_decide_eq_true. split; congruence.
Qed.

Lemma no_match_no_name a (l : list (gmap string (value J))) :
  List.filter (matches "normalized_name" (VText a)) l = [] ->
  a ∉ omap normalized_of l.
Proof.
  induction l as [|r l IH]; simpl; intros H.
  - apply not_elem_of_nil.
  - destruct (matches "normalized_name" (VText a) r) eqn:Hm; [done|].
    destruct (normalized_of r) as [b|] eqn:Hb; [|by apply IH].
    apply not_elem_of_cons. split; [|by apply IH].
    intros ->. apply matches_normalized_of in Hb. congruence.
Qed.

(** The lookup by normalized name does not change the store; when it finds
    nothing, no row of [teams] has the normalized name. *)
Lemma get_by_name_inv name (w : world J) o w' :
  get_by_name R name true w = (o, w') ->
  db w' = db w /\
  (o = Ret None ->
   exists t, db w !! "teams" = Some t /\
     List.filter (matches "normalized_name" (VText (_normalize_name U name)))
       (rows t) = []).
Proof.
  unfold get_by_name.
  unfold mbind at 1, M_bind at 1, bind at 1.
  destruct (execute_query_cases
              (SELECT "teams" "normalized_name" (VText (_normalize_name U name))) w)
    as [(detail & _ & ->)|[(_ & _ & ->)|(_ & rs & d & Hq & ->)]].
  - intros [= <- <-]. done.
  - intros [= <- <-]. done.
  - simpl in Hq. destruct (db w !! "teams") as [t|]; [|done].
    injection Hq as <- <-.
    destruct (List.filter _ _) as [|r rs] eqn:Hfl.
    + intros [= <- <-]. split; [done|]. intros _. by exists t.
    + match goal with |- context [(?m ≫= ?k) ?w1] =>
        pose proof (quiet_bind m k (quiet_Team R r) (fun a => quiet_ret _) w1)
          as (Hd & _);
        unfold mbind, M_bind, bind in *;
        destruct (m w1) as [[obj|e] w2]
      end; intros [= <- <-]; simpl in *; by rewrite Hd.
Qed.

(** [Team] built from a name and a non-empty normalized name: it returns,
    and keeps both. *)
Lemma Team_run (kw : gmap string (value J)) w s :
  given "name" kw ->
  kw !! "normalized_name" = Some (VText s) ->
  s <> [] ->
  exists obj w',
    Models.Team R kw w = (Ret obj, w') /\
    obj !! "normalized_name" = Some (VText s) /\
    (forall c, c <> "created_at" -> c <> "updated_at" -> obj !! c = kw !! c).
Proof.
  intros (n & Hn & Hnn) Hs Hne. unfold Models.Team.
  destruct (TimestampModel_run kw w) as (d & w' & Hrun & Hkeep & _).
  unfold mbind at 1, M_bind at 1, bind at 1. rewrite Hrun.
  unfold mbind at 1, M_bind at 1, bind at 1.
  rewrite required_run.
  2:{ repeat constructor. exists n. by rewrite Hkeep. }
  rewrite Hkeep by done. rewrite Hs.
  unfold mbind at 1, M_bind at 1, bind at 1.
  unfold mret at 1, M_ret at 1, ret at 1.
  unfold Models.set_normalized_name.
  destruct s as [|c s]; [done|].
  eexists _, _. split; [reflexivity|]. split.
  - by rewrite lookup_insert_eq.
  - intros c0 H1 H2. destruct (decide (c0 = "normalized_name")) as [->|Hc].
    + by rewrite lookup_insert_eq, Hs.
    + rewrite lookup_insert_ne by done. by apply Hkeep.
Qed.

(** Whatever [Team] is built from, a non-empty normalized name that was
    given is kept. *)
Lemma Team_keeps_normalized (kw obj : gmap string (value J)) w w' s :
  kw !! "normalized_name" = Some (VText s) ->
  s <> [] ->
  Models.Team R kw w = (Ret obj, w') ->
  obj !! "normalized_name" = Some (VText s).
Proof.
  intros Hs Hne. unfold Models.Team.
  destruct (TimestampModel_run kw w) as (d & w0 & Hrun & Hkeep & _).
  unfold mbind at 1, M_bind at 1, bind at 1. rewrite Hrun.
  unfold mbind at 1, M_bind at 1, bind at 1.
  destruct (Models.required ["name"] d w0) as [[[]|e] w1]; [|done].
  rewrite Hkeep by done. rewrite Hs.
  unfold mbind at 1, M_bind at 1, bind at 1.
  unfold mret at 1, M_ret at 1, ret at 1.
  unfold Models.set_normalized_name.
  destruct s as [|c s]; [done|].
  intros [= <- <-]. by rewrite lookup_insert_eq.
Qed.

(** [get_by_name] normalizes the name it is given when asked to look up by
    normalized name, so over a character database that lower-cases as
    Unicode does, looking up a name that is already normalized (as
    [get_or_create] does) is looking up the name. *)
Theorem get_by_name_of_normalized (name : str) :
  casing_ok U ->
  get_by_name R (_normalize_name U name) true = get_by_name R name true.
Proof.
  intros HU. unfold get_by_name. by rewrite (normalize_name_twice U name HU).
Qed.

(** [get_or_create] keeps the normalized names of [teams] distinct, with no
    help from a constraint of the store, for every name that does not
    normalize to the empty string and whether or not the store fails a
    statement. *)
Theorem get_or_create_keeps_names_unique name kwargs (w : world J) :
  casing_ok U ->
  _normalize_name U name <> [] ->
  kwargs !! "name" = None ->
  kwargs !! "normalized_name" = None ->
  names_unique (db w) ->
  names_unique (db (get_or_create R name kwargs w).2).
Proof.
  intros HU Hne _ Hkw Huniq. unfold get_or_create. cbv zeta.
  set (nn := _normalize_name U name) in *.
  unfold mbind at 1, M_bind at 1, bind at 1.
  destruct (get_by_name R nn true w) as [o w1] eqn:Hget.
  apply get_by_name_inv in Hget as [Hd1 Hnone].
  destruct o as [[team|]|e]; simpl; [by rewrite Hd1| |by rewrite Hd1].
  destruct (Hnone eq_refl) as (t & Ht & Hfl).
  unfold nn in Hfl. rewrite (normalize_name_twice U name HU) in Hfl. fold nn in Hfl.
  set (team_data := kwargs ∪ {[ "name" := VText name; "normalized_name" := VText nn ]}).
  assert (team_data !! "normalized_name" = Some (VText nn)) as Hdata.
  { subst team_data. rewrite lookup_union_r by done. by simplify_map_eq. }
  clearbody team_data.
  unfold mbind at 1, M_bind at 1, bind at 1.
  pose proof (quiet_Team R team_data w1) as (Hd2 & _).
  destruct (Models.Team R team_data w1) as [[obj|e] w2] eqn:Hteam; simpl in Hd2;
    [|simpl; by rewrite Hd2, Hd1].
  pose proof (Team_keeps_normalized team_data obj w1 w2 nn Hdata Hne Hteam) as Hkeep.
  unfold mbind at 1, M_bind at 1, bind at 1.
  destruct (BaseService.create (self R) obj w2) as [[created|e] w3] eqn:Hcreate.
  - apply create_inv in Hcreate as (t' & r & s & Ht' & Hd3 & Hr & _);
      [|apply quiet_Team].
    cbn [table_name self] in Ht', Hd3. rewrite Hd2, Hd1, Ht in Ht'.
    injection Ht' as <-. simpl. rewrite Hd3.
    intros t'. rewrite lookup_insert_eq. intros [= <-]. cbn [rows].
    assert (normalized_of r = Some nn) as Hrn.
    { unfold normalized_of. rewrite Hr by done.
      assert (model_dump obj !! "normalized_name" = Some (VText nn)) as ->
        by (by apply model_dump_lookup). done. }
    rewrite omap_app. simpl. rewrite Hrn. simpl.
    apply NoDup_app. split; [by apply Huniq|]. split.
    + intros x Hx Hin. apply list_elem_of_singleton in Hin as ->.
      by apply (no_match_no_name nn (rows t)).
    + apply NoDup_singleton.
  - simpl.
    assert (db w3 = db w2 \/ exists r s, db w3
              = <["teams" := {| rows := rows t ++ [r]; serial := s |}]> (db w)
                /\ normalized_of r = Some nn) as [Hd3|(r & s & Hd3 & Hrn)].
    { revert Hcreate. unfold BaseService.create. cbn [table_name model_class self].
      match goal with |- context [INSERT _ ?x] =>
        set (data := x);
        assert (data !! "normalized_name" = Some (VText nn)) as Hdn
      end.
      { assert (model_dump obj !! "normalized_name" = Some (VText nn)) as Hm
          by (by apply model_dump_lookup).
        subst data. destruct (model_dump obj !! "id") as [v|]; [|done].
        destruct (is_null v || _); [|done]. by rewrite lookup_delete_ne. }
      clearbody data.
      unfold mbind at 1, M_bind at 1, bind at 1.
      destruct (execute_query_cases (INSERT "teams" data) w2)
        as [(detail & _ & ->)|[(_ & _ & ->)|(Hf & rs & d & Hq & ->)]].
      - intros [= _ <-]. by left.
      - intros [= _ <-]. by left.
      - cbn [run_sql] in Hq. rewrite Hd2, Hd1, Ht in Hq.
        assert (exists r s, normalized_of r = Some nn /\ rs = [r] /\
                  d = <["teams" := {| rows := rows t ++ [r]; serial := s |}]> (db w))
          as (r & s & Hr & -> & ->).
        { destruct (serial t) as [n|], (data !! "id") as [i|] eqn:Hid;
            injection Hq as <- <-; eexists _, _; (split; [|done]);
            unfold normalized_of; try (by rewrite Hdn).
          rewrite lookup_insert_ne by done. by rewrite Hdn. }
        intros Hrun. right. exists r, s. split; [|done].
        match type of Hrun with Models.Team R r ?w0 = _ =>
          pose proof (quiet_Team R r w0) as (Hd & _)
        end.
        rewrite Hrun in Hd. exact Hd. }
    + by rewrite Hd3, Hd2, Hd1.
    + rewrite Hd3. intros t'. rewrite lookup_insert_eq. intros [= <-]. cbn [rows].
      rewrite omap_app. simpl. rewrite Hrn. simpl.
      apply NoDup_app. split; [by apply Huniq|]. split.
      * intros x Hx Hin. apply list_elem_of_singleton in Hin as ->.
        by apply (no_match_no_name nn (rows t)).
      * apply NoDup_singleton.
Qed.

(** After [get_or_create] has created a team, for a name that does not
    normalize to the empty string and from keyword arguments that give
    neither a name nor a normalized name of their own, a second call with
    the same name, whatever its keyword arguments, finds it on a store
    that answers: it reports that nothing was created, returns a team
    with that name and normalized name, and leaves the store as it was.
    The character database lower-cases as [casing_ok] says. *)
Theorem get_or_create_again name kwargs kwargs' (w w1 : world J) team :
  casing_ok U ->
  _normalize_name U name <> [] ->
  kwargs !! "name" = None ->
  kwargs !! "normalized_name" = None ->
  get_or_create R name kwargs w = (Ret (team, true), w1) ->
  faults w1 (issued w1) = None ->
  exists team',
    (get_or_create R name kwargs' w1).1 = Ret (team', false) /\
    db (get_or_create R name kwargs' w1).2 = db w1 /\
    team' !! "name" = Some (VText name) /\
    team' !! "normalized_name" = Some (VText (_normalize_name U name)).
Proof.
  intros HU Hne Hkn Hkw Hfirst Hf.
  set (nn := _normalize_name U name) in *.
  (* the first call *)
  assert (exists t r s,
            List.filter (matches "normalized_name" (VText nn)) (rows t) = [] /\
            db w1 = <["teams" := {| rows := rows t ++ [r]; serial := s |}]> (db w) /\
            r !! "name" = Some (VText name) /\
            r !! "normalized_name" = Some (VText nn)) as (t & r & s & Hfl & Hd & Hrname & Hrn).
  { revert Hfirst. unfold get_or_create. cbv zeta. fold nn.
    unfold mbind at 1, M_bind at 1, bind at 1.
    destruct (get_by_name R nn true w) as [o w0] eqn:Hget.
    apply get_by_name_inv in Hget as [Hd1 Hnone].
    destruct o as [[found|]|e]; [done| |done].
    destruct (Hnone eq_refl) as (t & Ht & Hfl).
    unfold nn in Hfl. rewrite (normalize_name_twice U name HU) in Hfl. fold nn in Hfl.
    set (team_data := kwargs ∪ {[ "name" := VText name; "normalized_name" := VText nn ]}).
    assert (team_data !! "normalized_name" = Some (VText nn)) as Hdata.
    { subst team_data. rewrite lookup_union_r by done. by simplify_map_eq. }
    assert (team_data !! "name" = Some (VText name)) as Hdname.
    { subst team_data. rewrite lookup_union_r by done. by simplify_map_eq. }
    clearbody team_data.
    unfold mbind at 1, M_bind at 1, bind at 1.
    destruct (Team_run team_data w0 nn) as (obj & w2 & Hrun & Hon & Hokeep);
      [by exists (VText name)|done|done|].
    pose proof (quiet_Team R team_data w0) as (Hd2 & _).
    rewrite Hrun in *. simpl in Hd2.
    unfold mbind at 1, M_bind at 1, bind at 1.
    destruct (BaseService.create (self R) obj w2) as [[created|e] w3] eqn:Hcreate;
      [|done].
    intros [= _ <-].
    apply create_inv in Hcreate as (t' & r & s & Ht' & Hd3 & Hr & _);
      [|apply quiet_Team].
    cbn [table_name self] in Ht', Hd3. rewrite Hd2, Hd1, Ht in Ht'.
    injection Ht' as <-. exists t, r, s. split; [done|]. split.
    - by rewrite Hd3, Hd2, Hd1.
    - split.
      + rewrite Hr by done. apply model_dump_lookup. split; [|done].
        rewrite Hokeep by done. done.
      + rewrite Hr by done. by apply model_dump_lookup. }
  (* the second call *)
  assert (List.filter (matches "normalized_name" (VText nn)) (rows t ++ [r]) = [r])
    as Hfl2.
  { rewrite List.filter_app, Hfl. simpl.
    assert (matches "normalized_name" (VText nn) r = true) as ->; [|done].
    apply matches_normalized_of. unfold normalized_of. by rewrite Hrn. }
  assert (exists res, res = get_or_create R name kwargs' w1) as (res & Hres)
    by (by eexists).
  rewrite <- Hres.
  unfold get_or_create in Hres. cbv zeta in Hres. fold nn in Hres.
  unfold mbind at 1, M_bind at 1, bind at 1 in Hres.
  unfold get_by_name in Hres. fold U in Hres.
  unfold nn at 1 in Hres. rewrite (normalize_name_twice U name HU) in Hres.
  fold nn in Hres.
  unfold mbind at 1, M_bind at 1, bind at 1 in Hres.
  erewrite execute_query_ok in Hres;
    [|exact Hf|cbn [run_sql]; rewrite Hd, lookup_insert_eq; reflexivity].
  cbn [rows] in Hres. rewrite Hfl2 in Hres. cbv iota beta in Hres.
  unfold mbind at 1, M_bind at 1, bind at 1 in Hres.
  match type of Hres with context [Models.Team R r ?w0] =>
    destruct (Team_run r w0 nn) as (obj & w2 & Hrun & Hon & Hokeep);
      [by exists (VText name)|done|done|];
    pose proof (quiet_Team R r w0) as (Hd2 & _)
  end.
  rewrite Hrun in Hres, Hd2.
  unfold mret, M_ret, ret in Hres. cbv iota beta in Hres.
  exists obj. subst res. cbn [fst snd]. split_and!; [done| |by rewrite Hokeep|done].
  cbn [snd db set_db] in Hd2. rewrite Hd2. by rewrite <- Hd.
Qed.

End Teams.

(** ** Aliases in bulk *)

Section BulkAliases.
Context {J : Type}.
Import team_service.

Lemma TeamAlias_keeps (kw obj : gmap string (value J)) w w' :
  Models.TeamAlias kw w = (Ret obj, w') ->
  forall c, c <> "created_at" -> c <> "updated_at" -> obj !! c = kw !! c.
Proof.
  unfold Models.TeamAlias.
  unfold mbind at 1, M_bind at 1, bind at 1.
  destruct (TimestampModel_run kw w) as (d & w0 & -> & Hkeep & _).
  unfold mbind, M_bind, bind, mret, M_ret, ret.
  destruct (Models.required _ d w0) as [[u|e] w1]; [|done].
  intros [= <- <-]. exact Hkeep.
Qed.

Lemma new_alias_unique team_id alias_str source (w : world J) t :
  db w !! "team_aliases" = Some t ->
  List.filter (matches "alias" (VText alias_str)) (rows t) = [] ->
  aliases_unique (db w) ->
  aliases_unique (db (new_alias team_id alias_str source w).2).
Proof.
  intros Ht Hfl Huniq. unfold new_alias.
  set (kw := {[ "team_id" := VInt team_id; "alias" := VText alias_str;
                "source" := opt_text source ]} : gmap string (value J)).
  assert (kw !! "alias" = Some (VText alias_str)) as Hkw by (by simplify_map_eq).
  clearbody kw.
  unfold mbind at 1, M_bind at 1, bind at 1.
  pose proof (quiet_TeamAlias kw w) as (Hd & _).
  destruct (Models.TeamAlias kw w) as [[obj|e] w1] eqn:Hrun; simpl in Hd;
    [|simpl; by rewrite Hd].
  apply (create_alias_unique obj alias_str w1 t).
  - rewrite (TeamAlias_keeps _ _ _ _ Hrun) by done. done.
  - by rewrite Hd.
  - done.
  - by rewrite Hd.
Qed.

Lemma new_alias_owned team_id alias_str source (w w' : world J) created :
  new_alias team_id alias_str source w = (Ret created, w') ->
  owned_by team_id created = true.
Proof.
  unfold new_alias.
  set (kw := {[ "team_id" := VInt team_id; "alias" := VText alias_str;
                "source" := opt_text source ]} : gmap string (value J)).
  assert (kw !! "team_id" = Some (VInt team_id)) as Hkw by (by simplify_map_eq).
  clearbody kw.
  unfold mbind at 1, M_bind at 1, bind at 1.
  destruct (Models.TeamAlias kw w) as [[obj|e] w1] eqn:Hrun; [|done].
  intros Hcreate.
  apply create_inv in Hcreate as (t & r & s & _ & _ & Hr & _ & _ & _ & w0 & _ & Hmodel);
    [|apply quiet_TeamAlias].
  cbn [model_class TeamAliasService.self] in Hmodel.
  unfold owned_by.
  rewrite (TeamAlias_keeps _ _ _ _ Hmodel) by done.
  rewrite Hr by done.
  assert (model_dump obj !! "team_id" = Some (VInt team_id)) as ->.
  { apply model_dump_lookup. split; [|done].
    rewrite (TeamAlias_keeps _ _ _ _ Hrun) by done. done. }
  apply Z.eqb_refl.
Qed.

Lemma bulk_loop_spec team_id source aliases :
  forall created_aliases (w : world J),
    let res := bulk_loop team_id source aliases created_aliases w in
    (Forall (fun a => owned_by team_id a = true) created_aliases ->
     Forall (fun a => owned_by team_id a = true) res.1.1)
    /\ (List.length res.1.1 <= List.length created_aliases + List.length aliases)%nat
    /\ (aliases_unique (db w) -> aliases_unique (db res.2)).
Proof.
  induction aliases as [|alias_str rest IH]; intros acc w; cbv zeta.
  - cbn [bulk_loop fst snd]. split_and!; [done|lia|done].
  - cbn [bulk_loop]. fold (@new_alias J team_id alias_str source).
    destruct (TeamAliasService.get_by_alias alias_str w) as [o w1] eqn:Hget.
    pose proof Hget as Hget'.
    apply get_by_alias_inv in Hget' as [Hd1 Hnone].
    destruct o as [[existing|]|e].
    + destruct (owned_by team_id existing) eqn:Hown.
      * destruct (IH (acc ++ [existing]) w1) as (H1 & H2 & H3). split_and!.
        -- intros Hacc. apply H1. apply Forall_app. split; [done|].
           by repeat constructor.
        -- rewrite length_app in H2. simpl in *. lia.
        -- intros Hu. apply H3. by rewrite Hd1.
      * destruct (IH acc w1) as (H1 & H2 & H3). split_and!.
        -- done.
        -- simpl. lia.
        -- intros Hu. apply H3. by rewrite Hd1.
    + destruct (Hnone eq_refl) as (t & Ht & Hfl).
      pose proof (new_alias_unique team_id alias_str source w1 t) as Hnew.
      destruct (new_alias team_id alias_str source w1) as [[created|e] w2] eqn:Hrun.
      * destruct (IH (acc ++ [created]) w2) as (H1 & H2 & H3). split_and!.
        -- intros Hacc. apply H1. apply Forall_app. split; [done|].
           repeat constructor. by apply (new_alias_owned _ _ _ _ _ _ Hrun).
        -- rewrite length_app in H2. simpl in *. lia.
        -- intros Hu. apply H3. simpl in Hnew. apply Hnew; [by rewrite Hd1|done|by rewrite Hd1].
      * cbn [fst snd]. split_and!; [done|simpl; lia|].
        intros Hu. simpl in Hnew. apply Hnew; [by rewrite Hd1|done|by rewrite Hd1].
    + cbn [fst snd]. split_and!; [done|simpl; lia|]. by rewrite Hd1.
Qed.

(** [bulk_create_aliases] never raises, whatever the store does: it returns
    a list with at most one alias for each string it was given, and every
    alias in the list belongs to the team asked for. *)
Theorem bulk_create_aliases_returns (team_id : Z) (aliases : list str)
    (source : option str) (w : world J) :
  exists created_aliases,
    (bulk_create_aliases team_id aliases source w).1 = Ret created_aliases /\
    (List.length created_aliases <= List.length aliases)%nat /\
    Forall (fun a => owned_by team_id a = true) created_aliases.
Proof.
  unfold bulk_create_aliases.
  destruct (bulk_loop_spec team_id source aliases [] w) as (H1 & H2 & _).
  destruct (bulk_loop team_id source aliases [] w) as [[created [e|]] w'];
    exists created; (split; [done|]); split; [exact H2|by apply H1|exact H2|by apply H1].
Qed.

(** [bulk_create_aliases] keeps the alias strings of [team_aliases]
    distinct, with no help from a constraint of the store and whether or
    not the store fails a statement. *)
Theorem bulk_create_aliases_keeps_unique (team_id : Z) (aliases : list str)
    (source : option str) (w : world J) :
  aliases_unique (db w) ->
  aliases_unique (db (bulk_create_aliases team_id aliases source w).2).
Proof.
  intros Hu. unfold bulk_create_aliases.
  destruct (bulk_loop_spec team_id source aliases [] w) as (_ & _ & H3).
  destruct (bulk_loop team_id source aliases [] w) as [[created [e|]] w'];
    by apply H3.
Qed.

End BulkAliases.

(** ** Users and their settings *)

Section Users.
Context {J : Type} (R : runtime J).
Import UserService user_service.

(** [delete_with_settings] sends up to three statements outside any
    transaction. When no user has the id it returns [False] after the
    lookup and the store is as it was. When the user is found and the store
    answers, it returns [True], and the store has lost the settings of the
    user and the user. When the user is found and the store fails the last
    statement, the failure is raised and the settings are gone while the
    user is still stored. *)
Theorem delete_with_settings_steps (user_id : str) (w : world J) :
  let res := delete_with_settings R user_id w in
  (forall us,
     db w !! "users" = Some us ->
     faults w (issued w) = None ->
     Forall (fun r => matches "id" (VText user_id) r = false) (rows us) ->
     res.1 = Ret false /\ db res.2 = db w)
  /\ (forall user w1 us ss,
        BaseService.get_by_id (self R) (VText user_id) w = (Ret (Some user), w1) ->
        db w !! "users" = Some us ->
        db w !! "user_settings" = Some ss ->
        faults w (S (issued w)) = None ->
        (faults w (S (S (issued w))) = None ->
         res.1 = Ret true /\
         db res.2 = <["users" := without "id" (VText user_id) us]>
                      (<["user_settings" := without "user_id" (VText user_id) ss]>
                         (db w)))
        /\ (forall detail,
              faults w (S (S (issued w))) = Some detail ->
              res.1 = Raise (StorageError detail) /\
              db res.2 = <["user_settings" := without "user_id" (VText user_id) ss]>
                           (db w))).
Proof.
  cbv zeta. split.
  - intros us Hus Hf Hnone.
    apply filter_nil_Forall in Hnone.
    unfold delete_with_settings, BaseService.get_by_id.
    cbn [table_name model_class self]. unfold mbind, M_bind, bind.
    erewrite execute_query_ok; [|exact Hf|cbn [run_sql]; rewrite Hus; reflexivity].
    by rewrite Hnone.
  - intros user w1 us ss Hget Hus Hss Hf1.
    destruct (get_by_id_inv (self R) (fun r => quiet_User R r) _ _ _ _ Hget)
      as (us' & r & rest & Hus' & Hfl & Hd1 & Hfa1 & Hi1 & Hf0).
    cbn [table_name self] in Hus'. rewrite Hus in Hus'. injection Hus' as <-.
    assert (existsb (matches "id" (VText user_id)) (rows us) = true) as Hex.
    { rewrite existsb_filter, Hfl. done. }
    assert (exists res, res = delete_with_settings R user_id w) as (res & Hres)
      by (by eexists).
    rewrite <- Hres.
    unfold delete_with_settings in Hres.
    unfold mbind at 1, M_bind at 1, bind at 1 in Hres. rewrite Hget in Hres.
    unfold mbind at 1, M_bind at 1, bind at 1 in Hres.
    unfold delete_by_user_id in Hres.
    cbn [table_name UserSettingsService.self] in Hres.
    unfold mbind at 1, M_bind at 1, bind at 1 in Hres.
    erewrite execute_query_ok in Hres;
      [|by rewrite Hfa1, Hi1|cbn [run_sql]; rewrite Hd1, Hss; reflexivity].
    unfold mret at 1, M_ret at 1, ret at 1 in Hres. cbv iota beta in Hres.
    fold (without "user_id" (VText user_id) ss) in Hres.
    match type of Hres with context [BaseService.delete _ _ ?x] => set (w2 := x) in Hres end.
    assert (db w2 !! "users" = Some us) as Hus2.
    { subst w2. cbn [db set_db]. by rewrite lookup_insert_ne. }
    assert (faults w2 (issued w2) = faults w (S (S (issued w)))) as Hf2.
    { subst w2. cbn [faults issued set_db push next_statement]. by rewrite Hfa1, Hi1. }
    assert (db w2 = <["user_settings" := without "user_id" (VText user_id) ss]> (db w))
      as Hd2 by (subst w2; done).
    clearbody w2. split.
    + intros Hf. rewrite Hf in Hf2.
      rewrite (delete_run (self R) (VText user_id) w2 us Hus2 Hf2) in Hres.
      subst res. cbn [fst snd db set_db table_name self]. by rewrite Hex, Hd2.
    + intros detail Hf. rewrite Hf in Hf2.
      unfold BaseService.delete in Hres. unfold mbind, M_bind, bind in Hres.
      rewrite (execute_query_fault _ w2 detail Hf2) in Hres. subst res. done.
Qed.

End Users.

(** ** Single-statement updates *)

Section Stamps.
Context {J : Type}.

(** The [UPDATE ... WHERE id = $1 RETURNING *] that several operations end
    with, on a store that answers. *)
Lemma update_returning_db tbl (cols : gmap string (value J)) id_value
    (model : gmap string (value J) -> M J (gmap string (value J))) (w : world J) t :
  (forall r, quiet (model r)) ->
  db w !! tbl = Some t ->
  faults w (issued w) = None ->
  db ((results ← execute_query (UPDATE tbl cols "id" id_value);
       match results with
       | [] => mret None
       | r :: _ => obj ← model r; mret (Some obj)
       end) w).2
  = <[tbl := {| rows := List.map (fun r => if matches "id" id_value r
                                           then cols ∪ r else r) (rows t);
                serial := serial t |}]> (db w).
Proof.
  intros Hmodel Ht Hf. unfold mbind at 1, M_bind at 1, bind at 1.
  erewrite execute_query_ok; [|exact Hf|simpl; rewrite Ht; reflexivity].
  rewrite quiet_db; [done|].
  destruct (List.map _ (List.filter _ _)); prove_quiet.
Qed.

(** [update_evaluation] reads the clock once: in every row with the id the
    date of the evaluation and [updated_at] are that one reading, the
    rating and the evaluation are the ones given, and every other column,
    every other row and every other table is left as it was. *)
Theorem update_evaluation_stamps (recruit_id : Z) (rating evaluation : str)
    (w : world J) t :
  db w !! "recruits" = Some t ->
  faults w (issued w) = None ->
  exists t',
    db (recruit_service.update_evaluation recruit_id rating evaluation w).2
      = <["recruits" := t']> (db w) /\
    serial t' = serial t /\
    Forall2 (fun r r' : gmap string (value J) =>
      if matches "id" (VInt recruit_id) r then
        r' !! "rating" = Some (VText rating) /\
        r' !! "evaluation" = Some (VText evaluation) /\
        r' !! "last_evaluation_date" = Some (VTime (clock w (reads w))) /\
        r' !! "updated_at" = Some (VTime (clock w (reads w))) /\
        forall c, c ∉ ["rating"; "evaluation"; "last_evaluation_date"; "updated_at"] ->
                  r' !! c = r !! c
      else r' = r) (rows t) (rows t').
Proof.
  intros Ht Hf.
  set (cols := {[ "rating" := VText rating; "evaluation" := VText evaluation;
                  "last_evaluation_date" := VTime (clock w (reads w));
                  "updated_at" := VTime (clock w (reads w)) ]}
               : gmap string (value J)).
  set (upd := fun r : gmap string (value J) =>
                if matches "id" (VInt recruit_id) r then cols ∪ r else r).
  exists {| rows := List.map upd (rows t); serial := serial t |}.
  split; [|split; [done|]].
  - unfold recruit_service.update_evaluation.
    unfold mbind at 1, M_bind at 1, bind at 1. unfold utcnow at 1.
    fold cols.
    rewrite (update_returning_db "recruits" cols (VInt recruit_id) Models.Recruit
               (next_reading w) t); try done.
    apply quiet_Recruit.
  - cbn [rows]. apply Forall2_map_same. intros r. unfold upd.
    destruct (matches "id" (VInt recruit_id) r); [|reflexivity].
    unfold cols. repeat split.
    + apply lookup_union_Some_l. by simplify_map_eq.
    + apply lookup_union_Some_l. by simplify_map_eq.
    + apply lookup_union_Some_l. by simplify_map_eq.
    + apply lookup_union_Some_l. by simplify_map_eq.
    + intros c Hc. apply lookup_union_r.
      assert (c <> "rating" /\ c <> "evaluation" /\ c <> "last_evaluation_date"
              /\ c <> "updated_at") as (?&?&?&?) by set_solver.
      by simplify_map_eq.
Qed.

Lemma quiet_Email (kw : gmap string (value J)) : quiet (models_email.Email kw).
Proof. unfold models_email.Email. prove_quiet. Qed.

(** [mark_processed] overwrites three columns of the rows with the id:
    marking as processed stores 1 and the time read first, with
    [updated_at] read after it; marking as unprocessed stores 0 and erases
    the date of processing. Every other column and every other row is left
    as it was. *)
Theorem mark_processed_overwrites (email_id : Z) (processed : bool)
    (w : world J) t :
  db w !! "emails" = Some t ->
  faults w (issued w) = None ->
  exists t',
    db (email_service.mark_processed email_id processed w).2
      = <["emails" := t']> (db w) /\
    serial t' = serial t /\
    Forall2 (fun r r' : gmap string (value J) =>
      if matches "id" (VInt email_id) r then
        r' !! "processed" = Some (VInt (if processed then 1 else 0)) /\
        r' !! "processed_date" =
          Some (if processed then VTime (clock w (reads w)) else VNull) /\
        r' !! "updated_at" =
          Some (VTime (clock w (if processed then S (reads w) else reads w))) /\
        forall c, c ∉ ["processed"; "processed_date"; "updated_at"] ->
                  r' !! c = r !! c
      else r' = r) (rows t) (rows t').
Proof.
  intros Ht Hf.
  set (cols := {[ "processed" := VInt (if processed then 1 else 0);
                  "processed_date" :=
                    (if processed then VTime (clock w (reads w)) else VNull);
                  "updated_at" :=
                    VTime (clock w (if processed then S (reads w) else reads w)) ]}
               : gmap string (value J)).
  set (upd := fun r : gmap string (value J) =>
                if matches "id" (VInt email_id) r then cols ∪ r else r).
  exists {| rows := List.map upd (rows t); serial := serial t |}.
  split; [|split; [done|]].
  - unfold email_service.mark_processed. cbv zeta.
    destruct processed.
    + unfold mbind at 1, M_bind at 1, bind at 1.
      unfold mbind at 1, M_bind at 1, bind at 1. unfold utcnow at 1.
      unfold mret at 1, M_ret at 1, ret at 1. cbv iota beta.
      unfold mbind at 1, M_bind at 1, bind at 1. unfold utcnow at 1.
      cbn [clock reads next_reading]. fold cols.
      rewrite (update_returning_db "emails" cols (VInt email_id) models_email.Email
                 (next_reading (next_reading w)) t); try done.
      apply quiet_Email.
    + unfold mbind at 1, M_bind at 1, bind at 1.
      unfold mret at 1, M_ret at 1, ret at 1. cbv iota beta.
      unfold mbind at 1, M_bind at 1, bind at 1. unfold utcnow at 1.
      fold cols.
      rewrite (update_returning_db "emails" cols (VInt email_id) models_email.Email
                 (next_reading w) t); try done.
      apply quiet_Email.
  - cbn [rows]. apply Forall2_map_same. intros r. unfold upd.
    destruct (matches "id" (VInt email_id) r); [|reflexivity].
    unfold cols. repeat split.
    + apply lookup_union_Some_l. by simplify_map_eq.
    + apply lookup_union_Some_l. by simplify_map_eq.
    + apply lookup_union_Some_l. by simplify_map_eq.
    + intros c Hc. apply lookup_union_r.
      assert (c <> "processed" /\ c <> "processed_date" /\ c <> "updated_at")
        as (?&?&?) by set_solver.
      by simplify_map_eq.
Qed.

End Stamps.

(** ** The queue *)

Section Queue.
Context {J : Type}.
Import Models email_service.

Lemma TimestampModel_fresh (kw : gmap string (value J)) w :
  kw !! "created_at" = None ->
  kw !! "updated_at" = None ->
  TimestampModel kw w
  = (Ret (<["updated_at" := VTime (clock w (S (reads w)))]>
            (<["created_at" := VTime (clock w (reads w))]> kw)),
     next_reading (next_reading w)).
Proof.
  intros Hc Hu. unfold TimestampModel. unfold_monad. rewrite Hc. cbv iota beta.
  rewrite lookup_insert_ne by done. rewrite Hu. done.
Qed.

Lemma with_default_given f (v : value J) (kw : gmap string (value J)) :
  is_Some (kw !! f) -> with_default f v kw = kw.
Proof. intros [x Hx]. unfold with_default. by rewrite Hx. Qed.

Lemma EmailQueue_stored (r : gmap string (value J)) w :
  stored_item r -> EmailQueue r w = (Ret r, w).
Proof.
  intros (Hc & Hu & H1 & H2 & H3 & H4 & Hs & Hp). unfold EmailQueue.
  destruct (TimestampModel_run r w) as (d & w' & Hrun & _ & Hsame).
  destruct (Hsame Hc Hu) as [-> ->].
  unfold mbind at 1, M_bind at 1, bind at 1. rewrite Hrun.
  unfold mbind, M_bind, bind. rewrite required_run by (repeat constructor; done).
  rewrite (with_default_given "status") by done.
  by rewrite (with_default_given "priority").
Qed.

(** An item added to the queue can be read back: on a store that answers
    and whose sequence is ahead of the ids in use, [add_to_queue] returns
    the item under the next id of the sequence, queued, with the priority
    given; the table has that one row more; and [get_by_id] of the new id
    returns the same item. *)
Theorem add_to_queue_then_get (user_id email_id provider folder_id : str)
    (priority : Z) (w : world J) t n :
  db w !! "email_queue" = Some t ->
  serial t = Some n ->
  Forall (fun r => matches "id" (VInt n) r = false) (rows t) ->
  faults w (issued w) = None ->
  faults w (S (issued w)) = None ->
  exists item w1,
    add_to_queue user_id email_id provider folder_id priority w = (Ret item, w1) /\
    item !! "id" = Some (VInt n) /\
    item !! "status" = Some (VText (status_value QUEUED)) /\
    item !! "priority" = Some (VInt priority) /\
    item !! "user_id" = Some (VText user_id) /\
    item !! "email_id" = Some (VText email_id) /\
    db w1 = <["email_queue" := {| rows := rows t ++ [item];
                                  serial := Some (n + 1)%Z |}]> (db w) /\
    (BaseService.get_by_id EmailQueueService.self (VInt n) w1).1 = Ret (Some item).
Proof.
  intros Ht Hs Hfresh Hf0 Hf1. unfold add_to_queue.
  set (kw := {[ "user_id" := VText user_id; "email_id" := VText email_id;
                "provider" := VText provider; "folder_id" := VText folder_id;
                "status" := VText (status_value QUEUED);
                "priority" := VInt priority ]} : gmap string (value J)).
  assert (kw !! "created_at" = None) as Hkc by (by simplify_map_eq).
  assert (kw !! "updated_at" = None) as Hku by (by simplify_map_eq).
  assert (kw !! "id" = None) as Hki by (by simplify_map_eq).
  assert (kw !! "user_id" = Some (VText user_id)) as Hk1 by (by simplify_map_eq).
  assert (kw !! "email_id" = Some (VText email_id)) as Hk2 by (by simplify_map_eq).
  assert (kw !! "provider" = Some (VText provider)) as Hk3 by (by simplify_map_eq).
  assert (kw !! "folder_id" = Some (VText folder_id)) as Hk4 by (by simplify_map_eq).
  assert (kw !! "status" = Some (VText (status_value QUEUED))) as Hk5
    by (by simplify_map_eq).
  assert (kw !! "priority" = Some (VInt priority)) as Hk6 by (by simplify_map_eq).
  clearbody kw.
  set (d := <["updated_at" := VTime (clock w (S (reads w)))]>
              (<["created_at" := VTime (clock w (reads w))]> kw)).
  assert (forall c, c <> "created_at" -> c <> "updated_at" -> d !! c = kw !! c) as Hd.
  { intros c H1 H2. subst d. by rewrite !lookup_insert_ne. }
  assert (d !! "created_at" = Some (VTime (clock w (reads w)))) as Hdc.
  { subst d. rewrite lookup_insert_ne by done. by rewrite lookup_insert_eq. }
  assert (d !! "updated_at" = Some (VTime (clock w (S (reads w))))) as Hdu.
  { subst d. by rewrite lookup_insert_eq. }
  (* the model *)
  assert (EmailQueue kw w = (Ret d, next_reading (next_reading w))) as Hmodel.
  { unfold EmailQueue. unfold mbind at 1, M_bind at 1, bind at 1.
    rewrite (TimestampModel_fresh kw w Hkc Hku). fold d.
    unfold mbind, M_bind, bind. rewrite required_run.
    2:{ repeat constructor; eexists; (split; [rewrite Hd by done; eassumption|done]). }
    rewrite (with_default_given "status") by (rewrite Hd by done; eauto).
    rewrite (with_default_given "priority") by (rewrite Hd by done; eauto).
    done. }
  clearbody d.
  (* the row *)
  set (r := <["id" := VInt n]> (model_dump d)).
  assert (forall c v, c <> "id" -> d !! c = Some v -> is_null v = false ->
                      r !! c = Some v) as Hr.
  { intros c v Hc Hv Hn. subst r. rewrite lookup_insert_ne by done.
    by apply model_dump_lookup. }
  assert (r !! "id" = Some (VInt n)) as Hrid by (subst r; by rewrite lookup_insert_eq).
  assert (stored_item r) as Hstored.
  { unfold stored_item, given. split_and!.
    - eexists. by apply (Hr "created_at" _).
    - eexists. by apply (Hr "updated_at" _).
    - eexists. split; [apply (Hr "user_id"); [done|by rewrite Hd|done]|done].
    - eexists. split; [apply (Hr "email_id"); [done|by rewrite Hd|done]|done].
    - eexists. split; [apply (Hr "provider"); [done|by rewrite Hd|done]|done].
    - eexists. split; [apply (Hr "folder_id"); [done|by rewrite Hd|done]|done].
    - eexists. apply (Hr "status"); [done|by rewrite Hd|done].
    - eexists. apply (Hr "priority"); [done|by rewrite Hd|done]. }
  assert (model_dump d !! "id" = None) as Hdid.
  { apply map_lookup_filter_None. left. by rewrite Hd. }
  set (w1 := set_db (<["email_queue" := {| rows := rows t ++ [r];
                                           serial := Some (n + 1)%Z |}]> (db w))
               (push (Sent (INSERT "email_queue" (model_dump d)))
                  (next_statement (next_reading (next_reading w))))).
  exists r, w1. split_and!.
  - unfold mbind at 1, M_bind at 1, bind at 1. rewrite Hmodel.
    unfold BaseService.create. cbn [table_name model_class EmailQueueService.self].
    rewrite Hdid. unfold mbind at 1, M_bind at 1, bind at 1.
    rewrite (execute_query_ok _ _ [r]
               (<["email_queue" := {| rows := rows t ++ [r];
                                      serial := Some (n + 1)%Z |}]> (db w)));
      [|exact Hf0|cbn [run_sql db next_reading]; by rewrite Ht, Hs, Hdid].
    by rewrite EmailQueue_stored.
  - done.
  - apply (Hr "status"); [done|by rewrite Hd|done].
  - apply (Hr "priority"); [done|by rewrite Hd|done].
  - apply (Hr "user_id"); [done|by rewrite Hd|done].
  - apply (Hr "email_id"); [done|by rewrite Hd|done].
  - done.
  - unfold BaseService.get_by_id. cbn [table_name model_class EmailQueueService.self].
    unfold mbind at 1, M_bind at 1, bind at 1.
    erewrite execute_query_ok;
      [|exact Hf1|subst w1; cbn [run_sql db set_db]; rewrite lookup_insert_eq; reflexivity].
    cbn [rows]. rewrite List.filter_app.
    apply filter_nil_Forall in Hfresh. rewrite Hfresh. cbn [List.filter app].
    assert (matches "id" (VInt n) r = true) as ->.
    { unfold matches. rewrite Hrid. simpl. by apply bool_decide_eq_true. }
    unfold mbind, M_bind, bind. by rewrite EmailQueue_stored.
Qed.

End Queue.

(** ** Reading the cache back *)

Section CacheRead.
Context {J : Type} (R : runtime J).
Import GPTCacheService.

(** [GPTCache] built from a row that has its hash and a result that is a
    document, or text that decodes to it: the model holds the document. *)
Lemma GPTCache_decodes (kw : gmap string (value J)) w j :
  given "content_hash" kw ->
  (kw !! "result_json" = Some (VJson j) \/
   exists s, kw !! "result_json" = Some (VText s) /\ json_loads R s = Some j) ->
  exists obj w',
    Models.GPTCache R kw w = (Ret obj, w') /\
    db w' = db w /\
    obj !! "result_json" = Some (VJson j) /\
    (forall c, c <> "created_at" -> c <> "updated_at" -> c <> "result_json" ->
               obj !! c = kw !! c).
Proof.
  intros (h & Hh & Hhn) Hres.
  pose proof (quiet_GPTCache R kw w) as (Hd & _).
  unfold Models.GPTCache in *.
  destruct (TimestampModel_run kw w) as (d & w' & Hrun & Hkeep & _).
  unfold mbind at 1, M_bind at 1, bind at 1 in Hd.
  unfold mbind at 1, M_bind at 1, bind at 1. rewrite Hrun in *.
  unfold mbind at 1, M_bind at 1, bind at 1 in Hd.
  unfold mbind at 1, M_bind at 1, bind at 1.
  rewrite required_run in *.
  2,3: repeat constructor; [exists h; by rewrite Hkeep|];
       destruct Hres as [Hv|(s & Hv & _)]; eexists; rewrite Hkeep by done; eauto.
  rewrite Hkeep in * by done.
  destruct Hres as [Hv|(s & Hv & Hs)]; rewrite Hv in *;
    unfold Models.validate_result_json in *; try rewrite Hs in *;
    unfold_monad; simpl in *;
    (eexists _, _; split; [reflexivity|]; split; [exact Hd|]; split;
     [by rewrite lookup_insert_eq|];
     intros c ? ? ?; rewrite lookup_insert_ne by done; by apply Hkeep).
Qed.

(** What [create_or_update] wrote over an entry can be read back: when
    an entry has the hash of the content, then on a store that answers,
    with a codec that decodes what it encodes, the lookup of the hash
    after [create_or_update] returns an entry that holds the result as a
    document and the email tag given, and the lookup leaves the store as
    [create_or_update] left it. *)
Theorem create_or_update_then_get content result email (w : world J) t :
  (forall j, json_loads R (json_dumps R j) = Some j) ->
  db w !! "gpt_cache" = Some t ->
  (forall k, faults w k = None) ->
  List.filter (matches "content_hash" (VText (generate_hash R content))) (rows t)
    <> [] ->
  Forall (decodable R)
    (List.filter (matches "content_hash" (VText (generate_hash R content))) (rows t)) ->
  let h := generate_hash R content in
  let w' := (create_or_update R content result email w).2 in
  exists entry,
    (get_by_content_hash R h w').1 = Ret (Some entry) /\
    entry !! "content_hash" = Some (VText h) /\
    entry !! "result_json" = Some (VJson result) /\
    default VNull (entry !! "email") = opt_text email /\
    db (get_by_content_hash R h w').2 = db w'.
Proof.
  intros Hcodec Ht Hf Hsome Hdec h w'.
  destruct (create_or_update_run R content result email w t Ht Hf Hdec) as [Hl Hcase].
  fold h w' in Hl, Hcase. fold h in Hdec. clearbody w'.
  assert (faults w' (issued w') = None) as Hf' by (rewrite (proj1 Hl); apply Hf).
  assert (exists t' first rest,
            db w' !! "gpt_cache" = Some t' /\
            List.filter (matches "content_hash" (VText h)) (rows t') = first :: rest /\
            first !! "content_hash" = Some (VText h) /\
            (first !! "result_json" = Some (VJson result) \/
             exists s, first !! "result_json" = Some (VText s) /\
                       json_loads R s = Some result) /\
            default VNull (first !! "email") = opt_text email)
    as (t' & first & rest & Ht' & Hfl' & Hfh & Hfr & Hfe).
  { destruct Hcase as [(Hnone & _)|(_ & k & Hk & Hdb)]; [done|].
    destruct (List.filter (matches "content_hash" (VText h)) (rows t))
        as [|r0 rs] eqn:Hfl; [done|].
    destruct (upsert_columns_lookup R result email (clock w k))
      as (Hc1 & Hc2 & Hc3 & Hc4).
    eexists _, (upsert_columns R result email (clock w k) ∪ r0), _.
    rewrite Hdb, lookup_insert_eq. split; [done|]. cbn [rows].
    split_and!.
    + rewrite filter_updated by done. rewrite Hfl. reflexivity.
    + rewrite lookup_union_r by done.
      assert (matches "content_hash" (VText h) r0 = true) as Hm.
      { assert (In r0 (List.filter (matches "content_hash" (VText h)) (rows t)))
          as Hin by (rewrite Hfl; by left).
        apply List.filter_In in Hin. tauto. }
      unfold matches in Hm. destruct (r0 !! "content_hash") as [[]|]; try done.
      simpl in Hm. apply bool_decide_eq_true in Hm. by subst.
    + right. exists (json_dumps R result). split; [|apply Hcodec].
      by apply lookup_union_Some_l.
    + by rewrite (lookup_union_Some_l _ _ _ _ Hc2). }
  destruct (GPTCache_decodes first
              (set_db (db w') (push (Sent (SELECT "gpt_cache" "content_hash" (VText h)))
                                (next_statement w'))) result)
    as (obj & w2 & Hrun & Hd2 & Hor & Hkeep); [by exists (VText h)|done|].
  exists obj.
  assert (get_by_content_hash R h w' = (Ret (Some obj), w2)) as ->.
  { unfold get_by_content_hash. unfold mbind at 1, M_bind at 1, bind at 1.
    erewrite execute_query_ok; [|exact Hf'|cbn [run_sql]; rewrite Ht'; reflexivity].
    rewrite Hfl'. unfold mbind, M_bind, bind. by rewrite Hrun. }
  cbn [fst snd]. split_and!; [done| |done| |done].
  - by rewrite Hkeep.
  - by rewrite Hkeep.
Qed.

End CacheRead.
(** ** What the two branches of the cache bind *)

Section CacheInsert.
Context {J : Type} (R : runtime J).
Import GPTCacheService.

(** C2: the two branches of [create_or_update] bind the result
    differently. With no entry for the hash of the content, the call sends
    an INSERT whose [result_json] is the result itself, the document and
    not its JSON text; when the store fails that statement, as the driver
    does for a parameter it has no encoding for, the call raises the
    failure, having logged it, and the store is as it was: nothing was
    inserted. With one readable entry for the hash, on a store that
    answers, the call binds the JSON text of the result and overwrites the
    entry in place: no row is added, and the one entry with the hash holds
    that text, the email tag given and an update time read during the
    call. *)
Theorem create_or_update_binds_document content result email (w : world J) t :
  db w !! "gpt_cache" = Some t ->
  faults w (issued w) = None ->
  let h := generate_hash R content in
  let res := create_or_update R content result email w in
  (forall detail,
     List.filter (matches "content_hash" (VText h)) (rows t) = [] ->
     faults w (S (issued w)) = Some detail ->
     res.1 = Raise (StorageError detail) /\
     db res.2 = db w /\
     exists data,
       trace res.2
       = LogDebug (INSERT "gpt_cache" data)
           :: LogError (StorageError detail)
           :: Sent (INSERT "gpt_cache" data)
           :: Sent (SELECT "gpt_cache" "content_hash" (VText h))
           :: trace w /\
       data !! "content_hash" = Some (VText h) /\
       data !! "result_json" = Some (VJson result))
  /\ (forall entry,
        List.filter (matches "content_hash" (VText h)) (rows t) = [entry] ->
        decodable R entry ->
        (forall k, faults w k = None) ->
        exists k t',
          (reads w <= k < reads res.2)%nat /\
          db res.2 !! "gpt_cache" = Some t' /\
          List.length (rows t') = List.length (rows t) /\
          List.filter (matches "content_hash" (VText h)) (rows t')
            = [upsert_columns R result email (clock w k) ∪ entry] /\
          (upsert_columns R result email (clock w k) ∪ entry) !! "result_json"
            = Some (VText (json_dumps R result))).
Proof.
  intros Ht Hf0 h res. split.
  - intros detail Hfl Hf1.
    assert (exists x, x = res) as (x & Hres) by (by eexists).
    rewrite <- Hres. subst res.
    unfold create_or_update in Hres. fold h in Hres. cbv zeta in Hres.
    unfold mbind at 1, M_bind at 1, bind at 1 in Hres.
    unfold get_by_content_hash in Hres.
    unfold mbind at 1, M_bind at 1, bind at 1 in Hres.
    erewrite execute_query_ok in Hres;
      [|exact Hf0|cbn [run_sql]; rewrite Ht; reflexivity].
    rewrite Hfl in Hres.
    match type of Hres with context [set_db (db w) ?y] =>
      set (w0 := set_db (db w) y) in Hres
    end.
    unfold mret at 1, M_ret at 1, ret at 1 in Hres. cbv iota beta in Hres.
    set (kw := {[ "content_hash" := VText h; "email" := opt_text email;
                  "result_json" := VJson result ]} : gmap string (value J)) in Hres.
    assert (decodable R kw) as Hkw.
    { split.
      - exists (VText h). by simplify_map_eq.
      - exists (VJson result). split; [by simplify_map_eq|]. split; done. }
    destruct (GPTCache_run R kw w0 Hkw) as (obj & w1 & Hrun & Hkeep & Hjson).
    pose proof (quiet_GPTCache R kw w0) as (Hd1 & Hfa1 & Hi1 & _ & _ & Htr1).
    rewrite Hrun in Hd1, Hfa1, Hi1, Htr1. cbn [snd] in Hd1, Hfa1, Hi1, Htr1.
    unfold mbind at 1, M_bind at 1, bind at 1 in Hres. rewrite Hrun in Hres.
    unfold BaseService.create in Hres. cbn [table_name model_class self] in Hres.
    assert (model_dump obj !! "id" = None) as Hid.
    { unfold model_dump. apply map_lookup_filter_None. left.
      rewrite Hkeep by done. by simplify_map_eq. }
    rewrite Hid in Hres.
    unfold mbind at 1, M_bind at 1, bind at 1 in Hres.
    assert (faults w1 (issued w1) = Some detail) as Hfail.
    { rewrite Hfa1, Hi1. subst w0. exact Hf1. }
    destruct (execute_query_cases (INSERT "gpt_cache" (model_dump obj)) w1)
      as [(detail' & Hd' & Heq)|[(Hnone & _)|(Hnone & _)]]; [|congruence|congruence].
    assert (detail' = detail) as -> by congruence.
    rewrite Heq in Hres. subst x. cbn [fst snd]. split_and!.
    + reflexivity.
    + cbn [db push next_statement]. rewrite Hd1. by subst w0.
    + exists (model_dump obj). split_and!.
      * cbn [trace push next_statement]. rewrite Htr1. by subst w0.
      * unfold model_dump. apply map_lookup_filter_Some. split; [|done].
        rewrite Hkeep by done. by simplify_map_eq.
      * unfold model_dump. apply map_lookup_filter_Some. split; [|done].
        apply Hjson. by simplify_map_eq.
  - intros entry Hfl Hdec Hf.
    destruct (create_or_update_again R content result email w t entry Ht Hf Hfl Hdec)
      as (_ & k & t' & Hk & Ht' & Hlen & Hfl').
    exists k, t'. split_and!; [apply Hk|apply Hk|done|done|done|].
    apply lookup_union_Some_l. apply upsert_columns_lookup.
Qed.

End CacheInsert.

(** ** Models as dictionaries *)

Section ToDict.
Context {J : Type} (R : runtime J).

Lemma dumped_model_dump decoded added (self : gmap string (value J)) :
  dumped decoded added self (model_dump self).
Proof.
  split_and!.
  - intros c _. unfold given. split.
    + intros [v Hv]. apply model_dump_lookup in Hv. by exists v.
    + intros (v & Hv & Hn). exists v. by apply model_dump_lookup.
  - intros c v Hv. by apply model_dump_lookup in Hv as [_ ?].
  - done.
Qed.

Lemma dumped_decoded decoded added (self result : gmap string (value J)) f j :
  f ∈ decoded ->
  given f self ->
  dumped decoded added self result ->
  dumped decoded added self (<[f := VJson j]> result).
Proof.
  intros Hf Hgiven (H1 & H2 & H3). split_and!.
  - intros c Hc. destruct (decide (c = f)) as [->|Hne].
    + rewrite lookup_insert_eq. split; [done|]. by eexists.
    + rewrite lookup_insert_ne by done. by apply H1.
  - intros c v. destruct (decide (c = f)) as [->|Hne].
    + rewrite lookup_insert_eq. by intros [= <-].
    + rewrite lookup_insert_ne by done. apply H2.
  - intros c Hc Hc'. rewrite lookup_insert_ne by (intros <-; done). by apply H3.
Qed.

Lemma dumped_added decoded added (self result : gmap string (value J)) f v :
  f ∈ added ->
  is_null v = false ->
  dumped decoded added self result ->
  dumped decoded added self (<[f := v]> result).
Proof.
  intros Hf Hv (H1 & H2 & H3). split_and!.
  - intros c Hc. rewrite lookup_insert_ne by (intros <-; done). by apply H1.
  - intros c v'. destruct (decide (c = f)) as [->|Hne].
    + rewrite lookup_insert_eq. by intros [= <-].
    + rewrite lookup_insert_ne by done. apply H2.
  - intros c Hc Hc'. rewrite lookup_insert_ne by (intros <-; done). by apply H3.
Qed.

Lemma dumped_decode_list decoded added f (self result : gmap string (value J)) :
  f ∈ decoded ->
  dumped decoded added self result ->
  dumped decoded added self (models_recruit.decode_list R f self result).
Proof.
  intros Hf Hd. unfold models_recruit.decode_list.
  destruct (self !! f) as [[| | |[|c s]| |]|] eqn:Hself; try done.
  destruct (c =? chr "[")%N; [|done].
  destruct (json_loads R (c :: s)); [|done].
  apply dumped_decoded; [done| |done]. by eexists.
Qed.

Lemma dumped_decode_participants decoded added f (self result : gmap string (value J)) :
  f ∈ decoded ->
  dumped decoded added self result ->
  dumped decoded added self (Models.decode_participants R f self result).
Proof.
  intros Hf Hd. unfold Models.decode_participants.
  destruct (self !! f) as [[| | |[|c s]| |]|] eqn:Hself; try done.
  destruct (json_loads R (c :: s)); [|done].
  apply dumped_decoded; [done| |done]. by eexists.
Qed.

(** [Recruit.to_dict] never raises and never drops, adds or empties an
    entry: its result has an entry exactly for the fields of the recruit
    that are not [None], no entry is [None], and outside [majors],
    [positions] and [clubs] the entries are those of [model_dump]. *)
Theorem recruit_to_dict_dumped (self : gmap string (value J)) :
  dumped ["majors"; "positions"; "clubs"] [] self (models_recruit.to_dict R self).
Proof.
  unfold models_recruit.to_dict. cbv zeta.
  repeat (apply dumped_decode_list; [set_solver|]).
  apply dumped_model_dump.
Qed.

(** [Schedule.to_dict] always returns, and the only key it can add is
    [formatted_datetime]: apart from it, the result has an entry exactly
    for the fields of the schedule that are not [None]; outside the two
    lists of participants no entry is [None] and the entries are those of
    [model_dump]. An entry for a list of participants holds whatever the
    text decodes to, which for the text of the JSON null is [None]. *)
Theorem schedule_to_dict_dumped (self : gmap string (value J)) :
  exists result,
    Models.Schedule_to_dict R self = Ret result /\
    (forall c, c <> "formatted_datetime" ->
               (is_Some (result !! c) <-> given c self)) /\
    (forall c v, c ∉ ["home_participants"; "away_participants"] ->
                 result !! c = Some v -> is_null v = false) /\
    (forall c, c ∉ ["home_participants"; "away_participants"] ->
               c <> "formatted_datetime" ->
               result !! c = model_dump self !! c).
Proof.
  unfold Models.Schedule_to_dict. cbv zeta. eexists. split; [reflexivity|].
  assert (dumped ["home_participants"; "away_participants"] ["formatted_datetime"]
            self
            (Models.decode_participants R "away_participants" self
               (Models.decode_participants R "home_participants" self
                  (model_dump self)))) as Hd.
  { repeat (apply dumped_decode_participants; [set_solver|]).
    apply dumped_model_dump. }
  assert (forall result,
            dumped ["home_participants"; "away_participants"] ["formatted_datetime"]
              self result ->
            (forall c, c <> "formatted_datetime" ->
                       (is_Some (result !! c) <-> given c self)) /\
            (forall c v, c ∉ ["home_participants"; "away_participants"] ->
                         result !! c = Some v -> is_null v = false) /\
            (forall c, c ∉ ["home_participants"; "away_participants"] ->
                       c <> "formatted_datetime" ->
                       result !! c = model_dump self !! c)) as Hweaken.
  { intros result (H1 & H2 & H3).
    assert (forall c : string, c <> "formatted_datetime" ->
                               c ∉ ["formatted_datetime"]) as Hadded.
    { intros c Hc Hin. by apply list_elem_of_singleton in Hin. }
    split_and!.
    - intros c Hc. by apply H1, Hadded.
    - intros c v _. apply H2.
    - intros c Hc Hc'. apply H3; [exact Hc|by apply Hadded]. }
  apply Hweaken. clear Hweaken.
  destruct (self !! "date") as [[| | |[|c s]| |]|]; try done.
  destruct (parse_datetime R (c :: s) _); [|done].
  apply dumped_added; [set_solver|done|done].
Qed.

End ToDict.

(** ** Failures of the store, continued *)

Section MorePropagation.
Context {J : Type}.
Import team_service user_service.

Lemma faithful_get_by_name (R : runtime J) name normalized :
  faithful (get_by_name R name normalized).
Proof. unfold get_by_name. prove_faithful. Qed.

Lemma faithful_get_or_create (R : runtime J) name kwargs :
  faithful (get_or_create R name kwargs).
Proof.
  unfold get_or_create. cbv zeta.
  apply faithful_bind; [apply faithful_get_by_name|].
  intros [team|]; prove_faithful.
  apply faithful_create. intros r. apply quiet_Team.
Qed.

Lemma faithful_new_alias team_id alias_str source :
  faithful (@new_alias J team_id alias_str source).
Proof.
  unfold new_alias. prove_faithful.
  apply faithful_create. intros r. apply quiet_TeamAlias.
Qed.

Lemma faithful_get_by_user_id user_id : faithful (@get_by_user_id J user_id).
Proof. unfold get_by_user_id. prove_faithful. Qed.

Lemma faithful_update_by_user_id user_id data :
  faithful (@update_by_user_id J user_id data).
Proof.
  unfold update_by_user_id. destruct (decide (data = ∅)).
  - apply faithful_get_by_user_id.
  - prove_faithful.
Qed.

Lemma faithful_delete_by_user_id user_id : faithful (@delete_by_user_id J user_id).
Proof. unfold delete_by_user_id. prove_faithful. Qed.

Lemma faithful_get_with_settings (R : runtime J) user_id :
  faithful (get_with_settings R user_id).
Proof.
  unfold get_with_settings.
  apply faithful_bind.
  { apply faithful_get_by_id. intros r. apply quiet_User. }
  intros [u|]; [|prove_faithful].
  apply faithful_bind; [apply faithful_get_by_user_id|]. intros s. prove_faithful.
Qed.

Lemma faithful_delete_with_settings (R : runtime J) user_id :
  faithful (delete_with_settings R user_id).
Proof.
  unfold delete_with_settings.
  apply faithful_bind.
  { apply faithful_get_by_id. intros r. apply quiet_User. }
  intros [u|]; [|prove_faithful].
  apply faithful_bind; [apply faithful_delete_by_user_id|].
  intros _. apply faithful_delete.
Qed.

Lemma faithful_update_with_settings (R : runtime J) user_id user_data settings_data :
  faithful (update_with_settings R user_id user_data settings_data).
Proof.
  unfold update_with_settings.
  apply faithful_bind.
  { apply faithful_update. intros r. apply quiet_User. }
  intros [u|]; [|prove_faithful].
  destruct settings_data as [sd|]; [|prove_faithful].
  destruct (decide (sd = ∅)); [prove_faithful|].
  apply faithful_bind; [apply faithful_get_by_user_id|].
  intros [s|].
  - apply faithful_bind; [apply faithful_update_by_user_id|]. intros ?. prove_faithful.
  - prove_faithful. apply faithful_create. intros r. apply quiet_UserSettings.
Qed.

Lemma faithful_update_evaluation recruit_id rating evaluation :
  faithful (@recruit_service.update_evaluation J recruit_id rating evaluation).
Proof. unfold recruit_service.update_evaluation. prove_faithful. Qed.

Lemma faithful_mark_processed email_id processed :
  faithful (@email_service.mark_processed J email_id processed).
Proof.
  unfold email_service.mark_processed. cbv zeta. prove_faithful.
  all: apply quiet_faithful, quiet_Email.
Qed.

Lemma faithful_add_to_queue user_id email_id provider folder_id priority :
  faithful (@email_service.add_to_queue J user_id email_id provider folder_id priority).
Proof.
  unfold email_service.add_to_queue. prove_faithful.
  apply faithful_create. intros r. apply quiet_EmailQueue.
Qed.

(** The loop of [bulk_create_aliases] ends with the failure of the store
    when the store fails one of its statements. *)
Lemma bulk_loop_faults team_id source aliases :
  forall created_aliases (w : world J),
    let res := bulk_loop team_id source aliases created_aliases w in
    faults res.2 = faults w /\
    (issued w <= issued res.2)%nat /\
    forall k detail,
      (issued w <= k < issued res.2)%nat ->
      faults w k = Some detail ->
      res.1.2 = Some (StorageError detail).
Proof.
  induction aliases as [|alias_str rest IH]; intros acc w; cbv zeta.
  - cbn [bulk_loop fst snd]. split; [done|]. split; [lia|]. intros k detail Hk. lia.
  - cbn [bulk_loop]. fold (@new_alias J team_id alias_str source).
    destruct (faithful_get_by_alias alias_str w) as (Hf1 & Hi1 & Hp1).
    destruct (TeamAliasService.get_by_alias alias_str w) as [[[existing|]|e] w1];
      cbn [fst snd] in *.
    + assert (forall created,
        let res := bulk_loop team_id source rest created w1 in
        faults res.2 = faults w /\ (issued w <= issued res.2)%nat /\
        forall k detail, (issued w <= k < issued res.2)%nat ->
          faults w k = Some detail -> res.1.2 = Some (StorageError detail)) as Hrest.
      { intros created. cbv zeta. destruct (IH created w1) as (Hf2 & Hi2 & Hp2).
        split; [congruence|]. split; [lia|]. intros k detail Hk Hfault.
        destruct (decide (k < issued w1)%nat) as [Hlt|Hge].
        - by specialize (Hp1 k detail (conj (proj1 Hk) Hlt) Hfault).
        - apply (Hp2 k detail); [lia|]. by rewrite Hf1. }
      destruct (owned_by team_id existing); apply Hrest.
    + destruct (faithful_new_alias team_id alias_str source w1) as (Hf2 & Hi2 & Hp2).
      destruct (new_alias team_id alias_str source w1) as [[created|e] w2];
        cbn [fst snd] in *.
      * destruct (IH (acc ++ [created]) w2) as (Hf3 & Hi3 & Hp3).
        split; [congruence|]. split; [lia|]. intros k detail Hk Hfault.
        destruct (decide (k < issued w1)%nat) as [Hlt|Hge].
        -- by specialize (Hp1 k detail (conj (proj1 Hk) Hlt) Hfault).
        -- destruct (decide (k < issued w2)%nat) as [Hlt2|Hge2].
           ++ assert (faults w1 k = Some detail) as Hfault1 by (by rewrite Hf1).
              assert (issued w1 <= k < issued w2)%nat as Hk1 by lia.
              by specialize (Hp2 k detail Hk1 Hfault1).
           ++ apply (Hp3 k detail); [lia|]. by rewrite Hf2, Hf1.
      * split; [congruence|]. split; [lia|]. intros k detail Hk Hfault.
        destruct (decide (k < issued w1)%nat) as [Hlt|Hge].
        -- by specialize (Hp1 k detail (conj (proj1 Hk) Hlt) Hfault).
        -- assert (faults w1 k = Some detail) as Hfault1 by (by rewrite Hf1).
           assert (issued w1 <= k < issued w2)%nat as Hk1 by lia.
           specialize (Hp2 k detail Hk1 Hfault1). congruence.
    + split; [done|]. split; [done|]. intros k detail Hk Hfault.
      specialize (Hp1 k detail Hk Hfault). congruence.
Qed.

Lemma bulk_create_aliases_swallows team_id aliases source (w : world J) k detail :
  (issued w <= k < issued (bulk_create_aliases team_id aliases source w).2)%nat ->
  faults w k = Some detail ->
  (exists created, (bulk_create_aliases team_id aliases source w).1 = Ret created) /\
  exists tr, trace (bulk_create_aliases team_id aliases source w).2
             = LogError (StorageError detail) :: tr.
Proof.
  unfold bulk_create_aliases.
  destruct (bulk_loop_faults team_id source aliases [] w) as (_ & _ & Hp).
  destruct (bulk_loop team_id source aliases [] w) as [[created [e|]] w'];
    cbn [fst snd] in *.
  - unfold_monad. cbn [fst snd issued push trace]. intros Hk Hfault.
    specialize (Hp k detail Hk Hfault). injection Hp as ->.
    split; by eexists.
  - intros Hk Hfault. by specialize (Hp k detail Hk Hfault).
Qed.

(** The loop only appends: what it had collected is the beginning of what
    it gives, however it ends. *)
Lemma bulk_loop_prefix team_id source aliases :
  forall created_aliases (w : world J),
    exists rest,
      (bulk_loop team_id source aliases created_aliases w).1.1
      = created_aliases ++ rest.
Proof.
  induction aliases as [|alias_str aliases IH]; intros acc w.
  - exists []. cbn [bulk_loop fst]. by rewrite app_nil_r.
  - cbn [bulk_loop].
    destruct (TeamAliasService.get_by_alias alias_str w) as [[[existing|]|e] w1].
    + destruct (owned_by team_id existing).
      * destruct (IH (acc ++ [existing]) w1) as (rest & ->).
        exists (existing :: rest). by rewrite <- app_assoc.
      * apply IH.
    + match goal with |- context [(?m ≫= ?k) w1] =>
        destruct ((m ≫= k) w1) as [[created|e] w2]
      end.
      * destruct (IH (acc ++ [created]) w2) as (rest & ->).
        exists (created :: rest). by rewrite <- app_assoc.
      * exists []. cbn [fst]. by rewrite app_nil_r.
    + exists []. cbn [fst]. by rewrite app_nil_r.
Qed.


(** The operations of [UserSettingsService] on the settings of a user
    raise the failure of the store as it is. *)
Theorem settings_failures_propagate :
  (forall user_id, faithful (@get_by_user_id J user_id))
  /\ (forall user_id data, faithful (@update_by_user_id J user_id data))
  /\ (forall user_id, faithful (@delete_by_user_id J user_id)).
Proof.
  split_and!.
  - apply faithful_get_by_user_id.
  - apply faithful_update_by_user_id.
  - apply faithful_delete_by_user_id.
Qed.

(** The operations of [UserService] on a user with its settings raise the
    failure of the store as it is, whichever of their statements the store
    fails. *)
Theorem user_failures_propagate :
  (forall (R : runtime J) user_id, faithful (get_with_settings R user_id))
  /\ (forall (R : runtime J) user_id, faithful (delete_with_settings R user_id))
  /\ (forall (R : runtime J) user_id user_data settings_data,
        faithful (update_with_settings R user_id user_data settings_data)).
Proof.
  split_and!.
  - apply faithful_get_with_settings.
  - apply faithful_delete_with_settings.
  - apply faithful_update_with_settings.
Qed.

(** [update_evaluation], [mark_processed] and [add_to_queue] raise the
    failure of the store as it is. *)
Theorem stamp_failures_propagate :
  (forall recruit_id rating evaluation,
     faithful (@recruit_service.update_evaluation J recruit_id rating evaluation))
  /\ (forall email_id processed,
        faithful (@email_service.mark_processed J email_id processed))
  /\ (forall user_id email_id provider folder_id priority,
        faithful (@email_service.add_to_queue J user_id email_id provider
                    folder_id priority)).
Proof.
  split_and!.
  - apply faithful_update_evaluation.
  - apply faithful_mark_processed.
  - apply faithful_add_to_queue.
Qed.

End MorePropagation.

(** ** Which operations propagate a failure *)

Section PropagationTheorem.
Context {J : Type}.


End PropagationTheorem.

(** ** Operations outside transactions *)

Lemma autocommit_quiet {J A} (m : M J A) : quiet m -> autocommit m.
Proof.
  intros H w. exists []. destruct (H w) as (_ & _ & _ & _ & _ & Ht).
  split; [done|constructor].
Qed.

Lemma autocommit_bind {J A B} (m : M J A) (k : A -> M J B) :
  autocommit m -> (forall a, autocommit (k a)) -> autocommit (m ≫= k).
Proof.
  intros Hm Hk w. destruct (Hm w) as (e1 & H1 & F1). unfold_monad.
  destruct (m w) as [[a|e] w1]; simpl in *.
  - destruct (Hk a w1) as (e2 & H2 & F2). exists (e2 ++ e1).
    rewrite H2, H1, app_assoc. split; [done|]. by apply Forall_app.
  - by exists e1.
Qed.

Lemma autocommit_execute_query {J} (q : sql J) : autocommit (execute_query q).
Proof.
  intros w.
  destruct (execute_query_cases q w)
    as [(detail & _ & ->)|[(_ & _ & ->)|(_ & rs & d & _ & ->)]]; simpl.
  - exists [LogDebug q; LogError (StorageError detail); Sent q].
    split; [done|]. by repeat constructor.
  - exists [LogDebug q; LogError (StorageError "undefined table"); Sent q].
    split; [done|]. by repeat constructor.
  - exists [Sent q]. split; [done|]. by repeat constructor.
Qed.

Create HintDb autocommit.
#[export] Hint Resolve autocommit_execute_query : autocommit.

Ltac autocommit_step :=
  match goal with
  | |- autocommit (_ ≫= _) => apply autocommit_bind; [|intros ?]
  | |- autocommit (match ?x with _ => _ end) => destruct x
  | |- autocommit (if ?x then _ else _) => destruct x
  | |- autocommit (let _ := _ in _) => cbv zeta
  | |- autocommit _ => solve [auto with autocommit | apply autocommit_quiet; prove_quiet]
  end.

Ltac prove_autocommit := repeat autocommit_step.

Section Autocommit.
Context {J : Type}.
Import team_service user_service.

Lemma autocommit_get_by_id (self : service J) id_value :
  (forall r, quiet (model_class self r)) ->
  autocommit (BaseService.get_by_id self id_value).
Proof. intros H. unfold BaseService.get_by_id. prove_autocommit. Qed.

Lemma autocommit_create (self : service J) obj :
  (forall r, quiet (model_class self r)) ->
  autocommit (BaseService.create self obj).
Proof. intros H. unfold BaseService.create. prove_autocommit. Qed.

Lemma autocommit_update (self : service J) id_value obj :
  (forall r, quiet (model_class self r)) ->
  autocommit (BaseService.update self id_value obj).
Proof.
  intros H. unfold BaseService.update. prove_autocommit.
  by apply autocommit_get_by_id.
Qed.

Lemma autocommit_delete (self : service J) id_value :
  autocommit (BaseService.delete self id_value).
Proof. unfold BaseService.delete. prove_autocommit. Qed.

Lemma autocommit_get_by_alias alias : autocommit (@TeamAliasService.get_by_alias J alias).
Proof. unfold TeamAliasService.get_by_alias. prove_autocommit. Qed.

Lemma autocommit_new_alias team_id alias_str source :
  autocommit (@new_alias J team_id alias_str source).
Proof.
  unfold new_alias. prove_autocommit.
  apply autocommit_create. intros r. apply quiet_TeamAlias.
Qed.

Lemma autocommit_get_by_user_id user_id : autocommit (@get_by_user_id J user_id).
Proof. unfold get_by_user_id. prove_autocommit. Qed.

Lemma bulk_loop_autocommit team_id source aliases :
  forall created_aliases (w : world J),
    exists evs,
      trace (bulk_loop team_id source aliases created_aliases w).2 = evs ++ trace w /\
      Forall (fun ev => transactional ev = false) evs.
Proof.
  induction aliases as [|alias_str rest IH]; intros acc w.
  - exists []. split; [done|constructor].
  - cbn [bulk_loop]. fold (@new_alias J team_id alias_str source).
    destruct (autocommit_get_by_alias alias_str w) as (e1 & H1 & F1).
    destruct (TeamAliasService.get_by_alias alias_str w) as [[[existing|]|e] w1];
      cbn [snd] in *.
    + assert (forall created, exists evs,
                trace (bulk_loop team_id source rest created w1).2 = evs ++ trace w /\
                Forall (fun ev => transactional ev = false) evs) as Hrest.
      { intros created. destruct (IH created w1) as (e2 & H2 & F2).
        exists (e2 ++ e1). rewrite H2, H1, app_assoc. split; [done|].
        by apply Forall_app. }
      destruct (owned_by team_id existing); apply Hrest.
    + destruct (autocommit_new_alias team_id alias_str source w1) as (e2 & H2 & F2).
      destruct (new_alias team_id alias_str source w1) as [[created|e] w2];
        cbn [snd] in *.
      * destruct (IH (acc ++ [created]) w2) as (e3 & H3 & F3).
        exists (e3 ++ e2 ++ e1). rewrite H3, H2, H1, !app_assoc. split; [done|].
        rewrite !Forall_app. done.
      * exists (e2 ++ e1). rewrite H2, H1, app_assoc. split; [done|].
        by apply Forall_app.
    + by exists e1.
Qed.

(** The operations on a user with its settings send their statements
    outside any transaction: the statements of [create_with_settings],
    [delete_with_settings] and [update_with_settings] each take effect on
    their own, and whatever these operations add to the trace, they open,
    commit and roll back nothing. *)
Theorem user_operations_autocommit :
  (forall (R : runtime J) user settings,
     autocommit (UserService.create_with_settings R user settings))
  /\ (forall (R : runtime J) user_id, autocommit (delete_with_settings R user_id))
  /\ (forall (R : runtime J) user_id user_data settings_data,
        autocommit (update_with_settings R user_id user_data settings_data)).
Proof.
  split_and!.
  - intros R user settings. unfold UserService.create_with_settings.
    apply autocommit_bind.
    { apply autocommit_create. intros r. apply quiet_User. }
    intros created. destruct settings; prove_autocommit.
    apply autocommit_create. intros r. apply quiet_UserSettings.
  - intros R user_id. unfold delete_with_settings.
    apply autocommit_bind.
    { apply autocommit_get_by_id. intros r. apply quiet_User. }
    intros [u|]; [|prove_autocommit].
    apply autocommit_bind; [unfold delete_by_user_id; prove_autocommit|].
    intros _. apply autocommit_delete.
  - intros R user_id user_data settings_data. unfold update_with_settings.
    apply autocommit_bind.
    { apply autocommit_update. intros r. apply quiet_User. }
    intros [u|]; [|prove_autocommit].
    destruct settings_data as [sd|]; [|prove_autocommit].
    destruct (decide (sd = ∅)); [prove_autocommit|].
    apply autocommit_bind; [apply autocommit_get_by_user_id|].
    intros [s|].
    + apply autocommit_bind; [|intros ?; prove_autocommit].
      unfold update_by_user_id. destruct (decide (sd = ∅)).
      * apply autocommit_get_by_user_id.
      * prove_autocommit.
    + prove_autocommit. apply autocommit_create. intros r. apply quiet_UserSettings.
Qed.

(** The operations on teams, aliases and the cache that send several
    statements send them outside any transaction: [add_alias],
    [get_or_create], [bulk_create_aliases] and the cache's
    [create_or_update] open, commit and roll back nothing, so what one of
    their statements has written stays written when a later one fails. *)
Theorem team_operations_autocommit :
  (forall (R : runtime J) team_id alias source,
     autocommit (TeamService.add_alias R team_id alias source))
  /\ (forall (R : runtime J) name kwargs, autocommit (get_or_create R name kwargs))
  /\ (forall team_id aliases source,
        autocommit (@bulk_create_aliases J team_id aliases source))
  /\ (forall (R : runtime J) content result email,
        autocommit (GPTCacheService.create_or_update R content result email)).
Proof.
  split_and!.
  - intros R team_id alias source. unfold TeamService.add_alias.
    apply autocommit_bind.
    { apply autocommit_get_by_id. intros r. apply quiet_Team. }
    intros [team|]; [|prove_autocommit].
    apply autocommit_bind; [apply autocommit_get_by_alias|].
    intros [a|]; prove_autocommit.
    apply autocommit_create. intros r. apply quiet_TeamAlias.
  - intros R name kwargs. unfold get_or_create. cbv zeta.
    apply autocommit_bind; [unfold get_by_name; prove_autocommit|].
    intros [team|]; prove_autocommit.
    apply autocommit_create. intros r. apply quiet_Team.
  - intros team_id aliases source w. unfold bulk_create_aliases.
    destruct (bulk_loop_autocommit team_id source aliases [] w) as (evs & H & F).
    destruct (bulk_loop team_id source aliases [] w) as [[created [e|]] w'];
      cbn [snd] in *.
    + exists (LogError e :: evs). unfold_monad. cbn [snd trace push].
      rewrite H. split; [done|]. by constructor.
    + by exists evs.
  - intros R content result email. unfold GPTCacheService.create_or_update. cbv zeta.
    apply autocommit_bind; [unfold GPTCacheService.get_by_content_hash; prove_autocommit|].
    intros [existing|]; prove_autocommit.
    apply autocommit_create. intros r. apply quiet_GPTCache.
Qed.

End Autocommit.

(** ** A user with its settings *)

Section Linked.
Context {J : Type} (R : runtime J).
Import UserService.

Lemma with_default_lookup_ne f c (v : value J) (kw : gmap string (value J)) :
  c <> f -> Models.with_default f v kw !! c = kw !! c.
Proof.
  intros Hc. unfold Models.with_default.
  destruct (kw !! f); [done|]. by rewrite lookup_insert_ne.
Qed.

(** [create] on a store that answers: the statement is sent and the model
    is built from the row the store returns. *)
Lemma create_run (self : service J) (obj : gmap string (value J)) (w : world J) t :
  db w !! table_name self = Some t ->
  faults w (issued w) = None ->
  exists r s data,
    (forall c, c <> "id" -> r !! c = model_dump obj !! c) /\
    BaseService.create self obj w
    = model_class self r
        (set_db (<[table_name self := {| rows := rows t ++ [r]; serial := s |}]> (db w))
           (push (Sent (INSERT (table_name self) data)) (next_statement w))).
Proof.
  intros Ht Hf. unfold BaseService.create.
  match goal with |- context [INSERT _ ?x] =>
    set (data := x);
    assert (forall c, c <> "id" -> data !! c = model_dump obj !! c) as Hdata
  end.
  { intros c Hc. subst data. destruct (model_dump obj !! "id") as [v|]; [|done].
    destruct (is_null v || _); [|done]. by rewrite lookup_delete_ne. }
  clearbody data.
  assert (exists r s, (forall c, c <> "id" -> r !! c = data !! c) /\
            run_sql (INSERT (table_name self) data) (db w)
            = Some ([r], <[table_name self :=
                            {| rows := rows t ++ [r]; serial := s |}]> (db w)))
    as (r & s & Hr & Hq).
  { cbn [run_sql]. rewrite Ht.
    destruct (serial t) as [n|], (data !! "id") as [i|] eqn:Hid;
      eexists _, _; (split; [|reflexivity]); try done.
    intros c Hc. by rewrite lookup_insert_ne. }
  exists r, s, data. split.
  - intros c Hc. rewrite Hr by done. by apply Hdata.
  - unfold mbind, M_bind, bind. by rewrite (execute_query_ok _ _ _ _ Hf Hq).
Qed.

(** A [create] that returned, for a model that carries its id and a
    service that does not strip it. *)
Lemma create_inv_given_id (self : service J) (obj created : gmap string (value J))
    (v : value J) w w1 :
  (forall r, quiet (model_class self r)) ->
  _is_id_auto_assigned self = false ->
  obj !! "id" = Some v ->
  is_null v = false ->
  BaseService.create self obj w = (Ret created, w1) ->
  exists t w0,
    db w !! table_name self = Some t /\
    db w1 = <[table_name self :=
               {| rows := rows t ++ [model_dump obj]; serial := serial t |}]> (db w) /\
    faults w1 = faults w /\
    issued w1 = S (issued w) /\
    model_class self (model_dump obj) w0 = (Ret created, w1).
Proof.
  intros Hmodel Hauto Hid Hv.
  assert (model_dump obj !! "id" = Some v) as Hdump by (by apply model_dump_lookup).
  unfold BaseService.create. rewrite Hdump, Hv, Hauto. cbn [orb].
  unfold mbind at 1, M_bind at 1, bind at 1.
  destruct (execute_query_cases (INSERT (table_name self) (model_dump obj)) w)
    as [(detail & _ & ->)|[(_ & _ & ->)|(Hf & rs & d & Hq & ->)]]; try done.
  cbn [run_sql] in Hq. destruct (db w !! table_name self) as [t|] eqn:Ht; [|done].
  rewrite Hdump in Hq.
  assert (rs = [model_dump obj] /\
          d = <[table_name self :=
                 {| rows := rows t ++ [model_dump obj]; serial := serial t |}]> (db w))
    as [-> ->] by (destruct (serial t); by injection Hq as <- <-).
  intros Hrun.
  match type of Hrun with model_class self _ ?x = _ =>
    destruct (Hmodel (model_dump obj) x) as (Hd & Hfl & Hi & _)
  end.
  rewrite Hrun in Hd, Hfl, Hi.
  cbn [snd db set_db faults issued push next_statement] in Hd, Hfl, Hi.
  eexists t, _. split_and!; try done.
Qed.

Lemma User_keeps_id (kw obj : gmap string (value J)) (v : value J) w w' :
  kw !! "id" = Some v ->
  Models.User R kw w = (Ret obj, w') ->
  obj !! "id" = Some v.
Proof.
  intros Hid. unfold Models.User.
  destruct (TimestampModel_run kw w) as (d & w0 & Hrun & Hkeep & _).
  unfold mbind at 1, M_bind at 1, bind at 1. rewrite Hrun.
  rewrite Hkeep by done. rewrite Hid.
  unfold mbind at 1, M_bind at 1, bind at 1.
  unfold mret at 1, M_ret at 1, ret at 1.
  unfold mbind at 1, M_bind at 1, bind at 1.
  destruct (Models.required ["email"] d w0) as [[[]|e] w2]; [|done].
  unfold mbind at 1, M_bind at 1, bind at 1.
  match goal with |- context [match ?m w2 with _ => _ end] =>
    destruct (m w2) as [[[]|e] w3]
  end; [|done].
  unfold mret, M_ret, ret. intros [= <- <-].
  rewrite !with_default_lookup_ne by done.
  rewrite Hkeep by done. exact Hid.
Qed.

(** When [create_with_settings] has stored the user and the store answers
    the second statement, the settings are stored under the id of the
    created user, whatever [user_id] they carried: the call returns the
    user and the settings, both with that id, and [user_settings] has one
    row more, with that id as its [user_id]. *)
Theorem create_with_settings_links (user settings created : gmap string (value J))
    (w w1 : world J) ss :
  given "id" user ->
  BaseService.create (self R) user w = (Ret created, w1) ->
  db w !! "user_settings" = Some ss ->
  faults w (S (issued w)) = None ->
  exists cs r s,
    (create_with_settings R user (Some settings) w).1 = Ret (created, Some cs) /\
    created !! "id" = user !! "id" /\
    cs !! "user_id" = user !! "id" /\
    r !! "user_id" = user !! "id" /\
    db (create_with_settings R user (Some settings) w).2
      = <["user_settings" := {| rows := rows ss ++ [r]; serial := s |}]> (db w1).
Proof.
  intros (v & Hid & Hv) Hcreate Hss Hf1.
  destruct (create_inv_given_id (self R) user created v w w1
              (fun r => quiet_User R r) eq_refl Hid Hv Hcreate)
    as (us & w0 & Hus & Hd1 & Hfa1 & Hi1 & Hmodel).
  cbn [table_name model_class self] in Hus, Hd1, Hmodel.
  assert (created !! "id" = Some v) as Hcid.
  { apply (User_keeps_id _ _ _ _ _ (proj2 (model_dump_lookup user "id" v) (conj Hid Hv))
             Hmodel). }
  assert (db w1 !! "user_settings" = Some ss) as Hss1.
  { rewrite Hd1. by rewrite lookup_insert_ne. }
  assert (faults w1 (issued w1) = None) as Hf by (by rewrite Hfa1, Hi1).
  set (s' := <["user_id" := id_of created]> settings).
  assert (s' !! "user_id" = Some v) as Hs'.
  { subst s'. rewrite lookup_insert_eq. unfold id_of. by rewrite Hcid. }
  destruct (create_run UserSettingsService.self s' w1 ss Hss1 Hf)
    as (r & s & data & Hr & Hrun).
  cbn [table_name model_class UserSettingsService.self] in Hrun.
  assert (r !! "user_id" = Some v) as Hru.
  { rewrite Hr by done. by apply model_dump_lookup. }
  assert (exists res, res = create_with_settings R user (Some settings) w)
    as (res & Hres) by (by eexists).
  rewrite <- Hres.
  unfold create_with_settings in Hres.
  unfold mbind at 1, M_bind at 1, bind at 1 in Hres. rewrite Hcreate in Hres.
  fold s' in Hres.
  unfold mbind at 1, M_bind at 1, bind at 1 in Hres. rewrite Hrun in Hres.
  unfold Models.UserSettings in Hres.
  unfold mbind at 1, M_bind at 1, bind at 1 in Hres.
  rewrite required_run in Hres by (repeat constructor; by exists v).
  unfold mret, M_ret, ret in Hres. cbv iota beta in Hres.
  eexists _, r, s. subst res. cbn [fst snd db set_db]. rewrite Hid. split_and!.
  - reflexivity.
  - done.
  - by rewrite !with_default_lookup_ne.
  - done.
  - done.
Qed.

End Linked.

(** ** Timestamps and validation *)

Section Stamped.
Context {J : Type}.

(** The timestamps of [TimestampModel]: on keyword arguments that give
    nothing but its two timestamps, each as [None] or a time, the
    constructor never raises and touches neither the store nor the log.
    It keeps each timestamp it is given, one given as [None] included,
    and reads the clock once for each timestamp that is missing,
    [created_at] first. *)
Theorem TimestampModel_stamps (kw : gmap string (value J)) (w : world J) :
  typed TimestampModel_fields kw ->
  exists d w',
    Models.TimestampModel kw w = (Ret d, w') /\
    db w' = db w /\
    trace w' = trace w /\
    reads w' = (reads w + (if kw !! "created_at" is Some _ then 0 else 1)
                        + (if kw !! "updated_at" is Some _ then 0 else 1))%nat /\
    (forall c, is_Some (kw !! c) -> d !! c = kw !! c) /\
    (kw !! "created_at" = None ->
     d !! "created_at" = Some (VTime (clock w (reads w)))) /\
    (kw !! "updated_at" = None ->
     d !! "updated_at"
     = Some (VTime (clock w (reads w + (if kw !! "created_at" is Some _ then 0 else 1))))).
Proof.
  intros _. unfold Models.TimestampModel. unfold_monad.
  destruct (kw !! "created_at") as [c0|] eqn:Hc;
    destruct (kw !! "updated_at") as [u0|] eqn:Hu; cbv iota beta;
    rewrite ?lookup_insert_ne by done; rewrite ?Hu; cbv iota beta;
    eexists _, _; (split; [reflexivity|]);
    cbn [db trace reads next_reading]; split_and!; try done; try lia.
  - intros c [x Hx]. rewrite lookup_insert_ne; [done|]. intros <-. congruence.
  - intros _. rewrite lookup_insert_eq. do 3 f_equal. lia.
  - intros c [x Hx]. rewrite lookup_insert_ne; [done|]. intros <-. congruence.
  - intros _. by rewrite lookup_insert_eq.
  - intros c [x Hx]. rewrite !lookup_insert_ne; [done| |]; intros <-; congruence.
  - intros _. rewrite lookup_insert_ne by done. by rewrite lookup_insert_eq.
  - intros _. rewrite lookup_insert_eq. do 3 f_equal. lia.
Qed.

(** The email check of [Recruit]: on keyword arguments that give a user
    and hold nothing but fields of [Recruit], each with a value of the
    type the field declares, the constructor raises the error of
    [validate_email] exactly when the address is a string with no at sign
    in it, and returns otherwise. *)
Theorem Recruit_validates (kw : gmap string (value J)) (w : world J) :
  given "user_id" kw ->
  typed Recruit_fields kw ->
  ((Models.Recruit kw w).1 = Raise (ValidationError "Invalid email format")
   <-> exists s, kw !! "email_address" = Some (VText s) /\
                 existsb (fun c => (c =? chr "@")%N) s = false)
  /\ ((exists obj, (Models.Recruit kw w).1 = Ret obj)
      <-> ~ exists s, kw !! "email_address" = Some (VText s) /\
                      existsb (fun c => (c =? chr "@")%N) s = false).
Proof.
  intros (u & Hu & Hun) Hfields.
  assert (forall v, kw !! "email_address" = Some v -> v = VNull \/ exists s, v = VText s)
    as Htyped.
  { intros v Hv. specialize (Hfields "email_address" v Hv). cbv beta in Hfields.
    change (optional is_text v = true) in Hfields.
    destruct v; try done; [by left|right; by eexists]. }
  assert (exists res, res = Models.Recruit kw w) as (res & Hres) by (by eexists).
  rewrite <- Hres. unfold Models.Recruit in Hres.
  destruct (TimestampModel_run kw w) as (d & w' & Hrun & Hkeep & _).
  unfold mbind at 1, M_bind at 1, bind at 1 in Hres. rewrite Hrun in Hres.
  unfold mbind at 1, M_bind at 1, bind at 1 in Hres.
  rewrite required_run in Hres
    by (repeat constructor; exists u; by rewrite Hkeep).
  rewrite Hkeep in Hres by done.
  unfold Models.validate_email in Hres.
  destruct (kw !! "email_address") as [v|] eqn:Hv.
  - destruct (Htyped v eq_refl) as [->|[s ->]].
    + subst res. cbn [fst]. split; split.
      * done.
      * by intros (s & [=] & _).
      * by intros _ (s & [=] & _).
      * intros _. by eexists.
    + unfold mbind, M_bind, bind in Hres.
      destruct (existsb (fun c => (c =? chr "@")%N) s) eqn:Hat; subst res;
        unfold mret, M_ret, ret, raise; cbn [fst]; split; split.
      * done.
      * intros (s' & [= <-] & Hs'). congruence.
      * intros _ (s' & [= <-] & Hs'). congruence.
      * intros _. by eexists.
      * intros _. by exists s.
      * done.
      * by intros [obj [=]].
      * intros H. exfalso. apply H. by exists s.
  - subst res. cbn [fst]. split; split.
    + done.
    + by intros (s & [=] & _).
    + by intros _ (s & [=] & _).
    + intros _. by eexists.
Qed.

End Stamped.

(** ** Settings created on update *)

Section LazySettings.
Context {J : Type} (R : runtime J).
Import UserService user_service.

(** [update_with_settings] treats an empty dict of settings as no settings
    at all. When the user was updated, settings were given, each a field
    of [UserSettings] with a value of the type the field declares, and
    the user has none yet, then on a store that answers the settings are
    created under the id of the user, whatever [user_id] the dict carried
    and whatever the type of that: the call
    returns the updated user and the new settings, and [user_settings] has
    one row more, with that id as its [user_id]. *)
Theorem update_with_settings_creates (user_id : str)
    (user_data settings_data u : gmap string (value J)) (w w1 : world J) ss :
  update_with_settings R user_id user_data (Some ∅) w
  = update_with_settings R user_id user_data None w
  /\ (settings_data <> ∅ ->
      typed UserSettings_fields (<["user_id" := VText user_id]> settings_data) ->
      BaseService.update (self R) (VText user_id) (Dict user_data) w
      = (Ret (Some u), w1) ->
      db w1 !! "user_settings" = Some ss ->
      Forall (fun r => matches "user_id" (VText user_id) r = false) (rows ss) ->
      faults w1 (issued w1) = None ->
      faults w1 (S (issued w1)) = None ->
      exists cs r s,
        (update_with_settings R user_id user_data (Some settings_data) w).1
          = Ret (Some u, Some cs) /\
        cs !! "user_id" = Some (VText user_id) /\
        r !! "user_id" = Some (VText user_id) /\
        db (update_with_settings R user_id user_data (Some settings_data) w).2
          = <["user_settings" := {| rows := rows ss ++ [r]; serial := s |}]> (db w1)).
Proof.
  split.
  - unfold update_with_settings. unfold mbind, M_bind, bind.
    destruct (BaseService.update (self R) (VText user_id) (Dict user_data) w)
      as [[[u0|]|e] w0]; [|done|done].
    by rewrite decide_True.
  - intros Hne _ Hupdate Hss Hnone Hf0 Hf1.
    apply filter_nil_Forall in Hnone.
    set (w2 := set_db (db w1)
                 (push (Sent (SELECT "user_settings" "user_id" (VText user_id)))
                    (next_statement w1))).
    assert (get_by_user_id user_id w1 = (Ret None, w2)) as Hget.
    { unfold get_by_user_id. cbn [table_name UserSettingsService.self].
      unfold mbind, M_bind, bind.
      erewrite execute_query_ok; [|exact Hf0|cbn [run_sql]; rewrite Hss; reflexivity].
      by rewrite Hnone. }
    set (kw := <["user_id" := VText user_id]> settings_data).
    set (obj := Models.with_default "batch_process_enabled" (VBool false)
                  (Models.with_default "fetch_frequency" (VText (of_string "manual")) kw)).
    assert (Models.UserSettings kw w2 = (Ret obj, w2)) as Hmodel.
    { unfold Models.UserSettings. unfold mbind, M_bind, bind.
      rewrite required_run; [done|]. repeat constructor.
      exists (VText user_id). subst kw. by rewrite lookup_insert_eq. }
    assert (obj !! "user_id" = Some (VText user_id)) as Hobj.
    { subst obj kw. rewrite !with_default_lookup_ne by done. by rewrite lookup_insert_eq. }
    clearbody obj.
    destruct (create_run UserSettingsService.self obj w2 ss) as (r & s & data & Hr & Hrun).
    { exact Hss. }
    { exact Hf1. }
    cbn [table_name model_class UserSettingsService.self] in Hrun.
    assert (r !! "user_id" = Some (VText user_id)) as Hru.
    { rewrite Hr by done. by apply model_dump_lookup. }
    subst kw w2.
    assert (exists res, res = update_with_settings R user_id user_data
                                (Some settings_data) w) as (res & Hres)
      by (by eexists).
    rewrite <- Hres. unfold update_with_settings in Hres.
    unfold mbind at 1, M_bind at 1, bind at 1 in Hres. rewrite Hupdate in Hres.
    rewrite decide_False in Hres by done.
    unfold mbind at 1, M_bind at 1, bind at 1 in Hres. rewrite Hget in Hres.
    unfold mbind at 1, M_bind at 1, bind at 1 in Hres. rewrite Hmodel in Hres.
    unfold mbind at 1, M_bind at 1, bind at 1 in Hres. rewrite Hrun in Hres.
    unfold Models.UserSettings in Hres.
    unfold mbind at 1, M_bind at 1, bind at 1 in Hres.
    rewrite required_run in Hres by (repeat constructor; by exists (VText user_id)).
    unfold mret, M_ret, ret in Hres. cbv iota beta in Hres.
    eexists _, r, s. subst res. cbn [fst snd db set_db]. split_and!.
    + reflexivity.
    + by rewrite !with_default_lookup_ne.
    + done.
    + done.
Qed.

End LazySettings.

(** ** Counterexamples and failing inputs *)

Import Sample Models.


(** C10, counterexample: a message supplied with PROCESSING is stored, it
    is not set to null. *)
Lemma update_status_keeps_supplied_message :
  let res := EmailQueueService.update_status 1 PROCESSING
               (Some (of_string "retrying")) (world_of queue []) in
  match db res.2 !! "email_queue" with
  | Some t => List.map (fun r => (r !! "processed_at", r !! "error_message")) (rows t)
  | None => []
  end = [(Some VNull, Some (text "retrying"))].
Proof. vm_compute. reflexivity. Qed.

(** C8, counterexample: [to_dict] on a schedule whose home participants
    are not JSON returns them as they are stored, and raises nothing. *)
Lemma schedule_to_dict_keeps_malformed :
  json_loads python (of_string "[oops") = None /\
  exists d, Schedule_to_dict python scrimmage = Ret d /\
            d !! "home_participants" = Some (text "[oops").
Proof. split; [reflexivity|]. eexists. split; [reflexivity|]. vm_compute. reflexivity. Qed.

(** C4: the store fails the insert of the settings; the call raises and
    the user inserted before it is in the store, no transaction having
    been opened. *)
Lemma create_with_settings_leaves_user :
  let res := UserService.create_with_settings python coach (Some coach_settings)
               (world_of accounts [(1%nat, "connection lost")]) in
  res.1 = Raise (StorageError "connection lost") /\
  match db res.2 !! "users" with
  | Some t => List.map (fun r => (r !! "id", r !! "email")) (rows t)
  | None => []
  end = [(Some (text "u-1"), Some (text "coach@example.org"))] /\
  rows <$> (db res.2 !! "user_settings") = Some [] /\
  List.existsb (fun ev => match ev with Begin => true | _ => false end)
    (trace res.2) = false.
Proof. cbv zeta. split; [|split; [|split]]; vm_compute; reflexivity. Qed.

(** C6: on "A-B" the validator of [Team] keeps the hyphen, and
    [_normalize_name] replaces it. *)
Lemma set_normalized_name_keeps_hyphen :
  set_normalized_name latin1 None
    ({[ "name" := text "A-B" ]} : gmap string (value json_literal))
  = Some (of_string "a-b")
  /\ TeamService._normalize_name latin1 (of_string "A-B") = of_string "a_b".
Proof. split; vm_compute; reflexivity. Qed.

(** ** The theorems at concrete inputs *)

(** C7: team 1 asks for the alias that team 2 owns. *)
Lemma add_alias_keeps_aliases_unique_witness :
  (TeamService.add_alias python 1 (of_string "Lakers") None (world_of teams [])).1
    = Ret (Some lakers) /\
  db (TeamService.add_alias python 1 (of_string "Lakers") None (world_of teams [])).2
    = teams.
Proof.
  apply (proj1 (proj2 (add_alias_keeps_aliases_unique python 1 (of_string "Lakers")
                         None (world_of teams [])))
           match (BaseService.get_by_id (TeamService.self python) (VInt 1)
                    (world_of teams [])).1 with
           | Ret (Some team) => team
           | _ => ∅
           end
           (BaseService.get_by_id (TeamService.self python) (VInt 1)
              (world_of teams [])).2
           (table_of [lakers] 2) lakers []).
  - vm_compute. reflexivity.
  - reflexivity.
  - reflexivity.
  - vm_compute. reflexivity.
  - split; [|split; [|split]]; eexists; try split; reflexivity.
Defined.

(** C8 on a schedule whose home participants do not decode. *)
Lemma malformed_json_on_read_witness :
  exists d, Schedule_to_dict python scrimmage = Ret d /\
            d !! "home_participants" = Some (text "[oops").
Proof.
  destruct (proj2 (proj2 (proj2 (malformed_json_on_read python))) scrimmage)
    as (d & Hd & Hkeep).
  exists d. split; [exact Hd|].
  apply Hkeep; [by left|reflexivity|reflexivity].
Defined.


(** C10 on a queue with one failed item. *)
Lemma update_status_overwrites_witness :
  exists t',
    db (EmailQueueService.update_status 1 PROCESSING None (world_of queue [])).2
      !! "email_queue" = Some t' /\
    List.length (rows t') = 1%nat.
Proof.
  destruct (update_status_overwrites (world_of queue []) 1 PROCESSING None
              (table_of [failed_item] 2) eq_refl eq_refl) as (t' & Ht' & Hrows).
  exists t'. split; [exact Ht'|].
  apply Forall2_length in Hrows. symmetry. exact Hrows.
Defined.

(** ** The further theorems at concrete inputs *)

Import Scenario.

(** The result of a run is named through its projections, so that a run
    is evaluated only to see how it ended. *)
Lemma found_eq {J} (x : outcome (option (gmap string (value J))) * world J) :
  match x.1 with Ret (Some _) => true | _ => false end = true ->
  x = (Ret (Some match x.1 with Ret (Some u) => u | _ => ∅ end), x.2).
Proof. destruct x as [[[u|]|e] w]; simpl; intros H; try discriminate; reflexivity. Qed.

Lemma returned_eq {J} (x : outcome (gmap string (value J)) * world J) :
  match x.1 with Ret _ => true | _ => false end = true ->
  x = (Ret match x.1 with Ret c => c | _ => ∅ end, x.2).
Proof. destruct x as [[c|e] w]; simpl; intros H; try discriminate; reflexivity. Qed.

Lemma created_eq {J} (x : outcome (gmap string (value J) * bool) * world J) :
  match x.1 with Ret (_, b) => b | _ => false end = true ->
  x = (Ret (match x.1 with Ret (t, _) => t | _ => ∅ end, true), x.2).
Proof.
  destruct x as [[[t b]|e] w]; simpl; intros H; try discriminate. by subst.
Qed.

Lemma teams_aliases_unique : aliases_unique (db (world_of teams [])).
Proof.
  intros t Ht.
  assert (Some t = Some (table_of [lakers] 2)) as [= ->]
    by (rewrite <- Ht; vm_compute; reflexivity).
  assert (omap alias_of (rows (table_of [lakers] 2)) = [of_string "Lakers"]) as ->
    by (vm_compute; reflexivity).
  apply NoDup_singleton.
Qed.

Lemma teams_names_unique : names_unique (db (world_of teams [])).
Proof.
  intros t Ht.
  assert (omap normalized_of (rows t) = [of_string "lake_city"; of_string "la_lakers"])
    as ->.
  { transitivity (omap normalized_of
                    (rows (default t (db (world_of teams []) !! "teams")))).
    - rewrite Ht. reflexivity.
    - vm_compute. reflexivity. }
  apply NoDup_cons. split; [|apply NoDup_singleton].
  intros Hin. apply list_elem_of_singleton in Hin. vm_compute in Hin. discriminate.
Qed.

(** C1 on recruit 7: the cascade on a store that answers, and on a store
    that fails the schedules delete. *)
Lemma delete_cascade_atomic_witness :
  ((RecruitService.delete_cascade 7 (world_of recruiting [])).1 = Ret true /\
   cascaded 7 recruiting
     (db (RecruitService.delete_cascade 7 (world_of recruiting [])).2))
  /\ ((RecruitService.delete_cascade 7
         (world_of recruiting [(2%nat, "deadlock detected")])).1 = Ret false /\
      db (RecruitService.delete_cascade 7
            (world_of recruiting [(2%nat, "deadlock detected")])).2 = recruiting).
Proof.
  split.
  - destruct (proj1 (proj2 (delete_cascade_atomic (world_of recruiting []) 7))
                match (BaseService.get_by_id RecruitService.self (VInt 7)
                         (world_of recruiting [])).1 with
                | Ret (Some u) => u
                | _ => ∅
                end
                (BaseService.get_by_id RecruitService.self (VInt 7)
                   (world_of recruiting [])).2
                (table_of [] 1)
                (table_of [ {[ "id" := VInt 1; "recruit_id" := VInt 7;
                               "user_id" := text "u1"; "date" := text "2024-05-01" ]};
                            {[ "id" := VInt 2; "recruit_id" := VNull;
                               "user_id" := text "u1"; "date" := text "2024-05-02" ]} ] 3))
      as (H1 & H2 & _).
    + apply found_eq. vm_compute. reflexivity.
    + reflexivity.
    + reflexivity.
    + intros i Hi. reflexivity.
    + split; [exact H1|exact H2].
  - destruct (proj1 (proj2 (proj2 (delete_cascade_atomic
                                     (world_of recruiting [(2%nat, "deadlock detected")])
                                     7)))
                match (BaseService.get_by_id RecruitService.self (VInt 7)
                         (world_of recruiting [(2%nat, "deadlock detected")])).1 with
                | Ret (Some u) => u
                | _ => ∅
                end
                (BaseService.get_by_id RecruitService.self (VInt 7)
                   (world_of recruiting [(2%nat, "deadlock detected")])).2
                2%nat "deadlock detected")
      as (H1 & H2 & _).
    + apply found_eq. vm_compute. reflexivity.
    + cbn. lia.
    + reflexivity.
    + split; [exact H1|exact H2].
Defined.

(** C2 on a cache with no entry: the driver refuses the dict of the
    INSERT, the call raises and nothing is stored. *)
Lemma create_or_update_binds_document_witness :
  (GPTCacheService.create_or_update documents (of_string "abc") Ok None
     (world_of cold_cache [(1%nat, "expected str, got dict")])).1
  = Raise (StorageError "expected str, got dict")
  /\ db (GPTCacheService.create_or_update documents (of_string "abc") Ok None
           (world_of cold_cache [(1%nat, "expected str, got dict")])).2
     = cold_cache.
Proof.
  destruct (proj1 (create_or_update_binds_document documents (of_string "abc") Ok None
                     (world_of cold_cache [(1%nat, "expected str, got dict")])
                     (table_of [] 1) eq_refl eq_refl)
              "expected str, got dict" eq_refl eq_refl) as (H1 & H2 & _).
  split; [exact H1|exact H2].
Defined.

(** The normalized form of "FC United-Youth." has no capital letter. *)
Lemma normalize_name_alphabet_witness :
  Forall (fun c => ~ (65 <= c <= 90)%N)
    (TeamService._normalize_name latin1 (of_string "FC United-Youth.")).
Proof.
  exact (proj2 (normalize_name_alphabet latin1 (of_string "FC United-Youth."))
           latin1_ok).
Defined.

(** The validator and [_normalize_name] agree on "Lake City". *)
Lemma set_normalized_name_agrees_witness :
  Models.set_normalized_name latin1 None
    ({[ "name" := text "Lake City" ]} : gmap string (value json_literal))
  = Some (TeamService._normalize_name latin1 (of_string "Lake City")).
Proof.
  apply (set_normalized_name_agrees latin1 None (of_string "Lake City")).
  - reflexivity.
  - discriminate.
  - reflexivity.
  - split; vm_compute; intros H;
      repeat (destruct H as [H|H]; [discriminate|]); exact H.
Defined.

(** A transaction of two deletes on a store that answers. *)
Lemma execute_transaction_all_or_nothing_witness :
  (execute_transaction
     [DELETE "gpt_cache" "id" (VInt 1); DELETE "gpt_cache" "id" (VInt 2)]
     (world_of cache [])).1 = Ret tt.
Proof.
  refine (proj1 (proj1 (execute_transaction_all_or_nothing
                   [DELETE "gpt_cache" "id" (VInt 1);
                    DELETE "gpt_cache" "id" (VInt 2)]
                   (world_of cache [])) cache _ _)).
  - intros i Hi. reflexivity.
  - vm_compute. reflexivity.
Defined.

(** Alias 1 is deleted. *)
Lemma delete_removes_witness :
  (BaseService.delete TeamAliasService.self (VInt 1) (world_of teams [])).1 = Ret true.
Proof.
  exact (proj1 (delete_removes TeamAliasService.self (VInt 1) (world_of teams [])
                  (table_of [lakers] 2) eq_refl eq_refl)).
Defined.

(** A user is stored under the id it carries. *)
Lemma create_given_id_witness :
  db (BaseService.create (UserService.self python) coach (world_of accounts [])).2
  = <["users" := {| rows := [model_dump coach]; serial := None |}]> accounts.
Proof.
  exact (proj1 (create_given_id (UserService.self python)
                  (fun r => quiet_User python r) coach (text "u-1")
                  (world_of accounts []) {| rows := []; serial := None |}
                  eq_refl eq_refl eq_refl eq_refl) eq_refl).
Defined.

(** Looking up a normalized name over Latin-1. *)
Lemma get_by_name_of_normalized_witness :
  team_service.get_by_name python
    (TeamService._normalize_name latin1 (of_string "LA Lakers")) true
  = team_service.get_by_name python (of_string "LA Lakers") true.
Proof. exact (get_by_name_of_normalized python (of_string "LA Lakers") latin1_ok). Defined.

(** A third team is created next to the two. *)
Lemma get_or_create_keeps_names_unique_witness :
  names_unique
    (db (team_service.get_or_create python (of_string "Lake Forest") ∅
           (world_of teams [])).2).
Proof.
  apply get_or_create_keeps_names_unique.
  - exact latin1_ok.
  - vm_compute. discriminate.
  - reflexivity.
  - reflexivity.
  - exact teams_names_unique.
Defined.

(** "Lake Forest" is created once. *)
Lemma get_or_create_again_witness :
  exists team',
    (team_service.get_or_create python (of_string "Lake Forest") ∅
       (team_service.get_or_create python (of_string "Lake Forest") ∅
          (world_of teams [])).2).1
      = Ret (team', false).
Proof.
  destruct (get_or_create_again python (of_string "Lake Forest") ∅ ∅
              (world_of teams [])
              (team_service.get_or_create python (of_string "Lake Forest") ∅
                 (world_of teams [])).2
              match (team_service.get_or_create python (of_string "Lake Forest") ∅
                       (world_of teams [])).1 with
              | Ret (t, _) => t
              | _ => ∅
              end) as (team' & H1 & _).
  - exact latin1_ok.
  - vm_compute. discriminate.
  - reflexivity.
  - reflexivity.
  - apply created_eq. vm_compute. reflexivity.
  - vm_compute. reflexivity.
  - exists team'. exact H1.
Defined.

(** Three aliases asked for team 2, one of them stored already and one
    asked twice. *)
Lemma bulk_create_aliases_keeps_unique_witness :
  aliases_unique
    (db (team_service.bulk_create_aliases 2
           [of_string "Lakers"; of_string "LAL"; of_string "LAL"] None
           (world_of teams [])).2).
Proof. apply bulk_create_aliases_keeps_unique. exact teams_aliases_unique. Defined.

(** The coach is deleted with the settings. *)
Lemma delete_with_settings_steps_witness :
  (user_service.delete_with_settings python (of_string "u-1")
     (world_of staffed [])).1 = Ret true.
Proof.
  refine (proj1 (proj1 (proj2 (delete_with_settings_steps python (of_string "u-1")
                                 (world_of staffed []))
                          match (BaseService.get_by_id (UserService.self python)
                                   (text "u-1") (world_of staffed [])).1 with
                          | Ret (Some u) => u
                          | _ => ∅
                          end
                          (BaseService.get_by_id (UserService.self python)
                             (text "u-1") (world_of staffed [])).2
                          {| rows := [coach]; serial := None |}
                          {| rows := [coach_settings]; serial := None |}
                          _ _ _ _) _)).
  - apply found_eq. vm_compute. reflexivity.
  - reflexivity.
  - reflexivity.
  - reflexivity.
  - reflexivity.
Defined.

(** Recruit 7 is evaluated. *)
Lemma update_evaluation_stamps_witness :
  exists t',
    db (recruit_service.update_evaluation 7 (of_string "A") (of_string "fast")
          (world_of recruiting [])).2 = <["recruits" := t']> recruiting /\
    List.length (rows t') = 1%nat.
Proof.
  destruct (update_evaluation_stamps 7 (of_string "A") (of_string "fast")
              (world_of recruiting [])
              (table_of [ {[ "id" := VInt 7; "user_id" := text "u1" ]} ] 8)
              eq_refl eq_refl) as (t' & Hdb & _ & Hrows).
  exists t'. split; [exact Hdb|].
  apply Forall2_length in Hrows. symmetry. exact Hrows.
Defined.

(** Email 1 is marked as unprocessed. *)
Lemma mark_processed_overwrites_witness :
  exists t',
    db (email_service.mark_processed 1 false (world_of inbox [])).2
      = <["emails" := t']> inbox /\
    List.length (rows t') = 1%nat.
Proof.
  destruct (mark_processed_overwrites 1 false (world_of inbox [])
              (table_of [processed_email] 2) eq_refl eq_refl)
    as (t' & Hdb & _ & Hrows).
  exists t'. split; [exact Hdb|].
  apply Forall2_length in Hrows. symmetry. exact Hrows.
Defined.

(** A second item is added to the queue. *)
Lemma add_to_queue_then_get_witness :
  exists item w1,
    email_service.add_to_queue (of_string "u1") (of_string "m2") (of_string "gmail")
      (of_string "INBOX") 5 (world_of queue []) = (Ret item, w1) /\
    item !! "id" = Some (VInt 2) /\
    (BaseService.get_by_id EmailQueueService.self (VInt 2) w1).1 = Ret (Some item).
Proof.
  destruct (add_to_queue_then_get (of_string "u1") (of_string "m2") (of_string "gmail")
              (of_string "INBOX") 5 (world_of queue [])
              (table_of [failed_item] 2) 2)
    as (item & w1 & H1 & H2 & _ & _ & _ & _ & _ & H3).
  - reflexivity.
  - reflexivity.
  - repeat constructor.
  - reflexivity.
  - reflexivity.
  - exists item, w1. split; [exact H1|]. split; [exact H2|exact H3].
Defined.

(** The result written over the entry for "abc" is read back. *)
Lemma create_or_update_then_get_witness :
  exists entry,
    (GPTCacheService.get_by_content_hash documents
       (GPTCacheService.generate_hash documents (of_string "abc"))
       (GPTCacheService.create_or_update documents (of_string "abc") Ok None
          (world_of warm_cache [])).2).1
      = Ret (Some entry) /\
    entry !! "result_json" = Some (VJson Ok).
Proof.
  assert (List.filter
            (matches "content_hash"
               (VText (GPTCacheService.generate_hash documents (of_string "abc"))))
            (rows (table_of [cached] 2)) = [cached]) as Hfl
    by (vm_compute; reflexivity).
  destruct (create_or_update_then_get documents (of_string "abc") Ok None
              (world_of warm_cache []) (table_of [cached] 2))
    as (entry & H1 & _ & H2 & _).
  - intros []; vm_compute; reflexivity.
  - reflexivity.
  - intros k. reflexivity.
  - rewrite Hfl. discriminate.
  - rewrite Hfl. constructor; [|constructor]. split.
    + exists (text "900150983cd24fb0d6963f7d28e17f72"). split; reflexivity.
    + exists (text "{}"). split; [reflexivity|]. split; [reflexivity|].
      intros s [= <-]. exists Empty. vm_compute. reflexivity.
  - exists entry. split; [exact H1|exact H2].
Defined.

(** The coach is created with settings that named another user. *)
Lemma create_with_settings_links_witness :
  exists cs,
    (UserService.create_with_settings python coach (Some borrowed_settings)
       (world_of accounts [])).1
      = Ret (match (BaseService.create (UserService.self python) coach
                      (world_of accounts [])).1 with
             | Ret c => c
             | _ => ∅
             end, Some cs) /\
    cs !! "user_id" = Some (text "u-1").
Proof.
  destruct (create_with_settings_links python coach borrowed_settings
              match (BaseService.create (UserService.self python) coach
                       (world_of accounts [])).1 with
              | Ret c => c
              | _ => ∅
              end
              (world_of accounts [])
              (BaseService.create (UserService.self python) coach
                 (world_of accounts [])).2
              {| rows := []; serial := None |})
    as (cs & r & s & H1 & _ & H2 & _).
  - exists (text "u-1"). split; reflexivity.
  - apply returned_eq. vm_compute. reflexivity.
  - reflexivity.
  - reflexivity.
  - exists cs. split; [exact H1|exact H2].
Defined.

(** A model given [created_at] as [None] keeps it and stamps
    [updated_at]. *)
Lemma TimestampModel_stamps_witness :
  exists d w',
    Models.TimestampModel ({[ "created_at" := VNull ]} : gmap string (value json_literal))
      (world_of cache []) = (Ret d, w') /\
    d !! "created_at" = Some VNull /\
    d !! "updated_at" = Some (VTime 1000).
Proof.
  destruct (TimestampModel_stamps
              ({[ "created_at" := VNull ]} : gmap string (value json_literal))
              (world_of cache []))
    as (d & w' & Hrun & _ & _ & _ & Hkeep & _ & Hup).
  - apply map_Forall_singleton. reflexivity.
  - exists d, w'. split; [exact Hrun|]. split.
    + rewrite Hkeep; [reflexivity|]. by eexists.
    + rewrite Hup; reflexivity.
Defined.

(** A recruit whose email address has no at sign is rejected. *)
Lemma Recruit_validates_witness :
  (Models.Recruit applicant (world_of recruiting [])).1
  = Raise (ValidationError "Invalid email format").
Proof.
  destruct (Recruit_validates applicant (world_of recruiting [])) as [[_ H] _].
  - exists (text "u1"). split; reflexivity.
  - apply map_Forall_insert_2; [reflexivity|].
    apply map_Forall_singleton. reflexivity.
  - apply H. exists (of_string "not-an-email"). split; reflexivity.
Defined.

(** The coach is renamed and gets settings that named another user. *)
Lemma update_with_settings_creates_witness :
  exists cs,
    (user_service.update_with_settings python (of_string "u-1")
       {[ "name" := text "Coach" ]} (Some borrowed_settings)
       (world_of hired [])).1
      = Ret (Some match (BaseService.update (UserService.self python) (text "u-1")
                           (Dict {[ "name" := text "Coach" ]})
                           (world_of hired [])).1 with
                  | Ret (Some u) => u
                  | _ => ∅
                  end, Some cs) /\
    cs !! "user_id" = Some (text "u-1").
Proof.
  destruct (proj2 (update_with_settings_creates python (of_string "u-1")
                     {[ "name" := text "Coach" ]} borrowed_settings
                     match (BaseService.update (UserService.self python) (text "u-1")
                              (Dict {[ "name" := text "Coach" ]})
                              (world_of hired [])).1 with
                     | Ret (Some u) => u
                     | _ => ∅
                     end
                     (world_of hired [])
                     (BaseService.update (UserService.self python) (text "u-1")
                        (Dict {[ "name" := text "Coach" ]}) (world_of hired [])).2
                     {| rows := []; serial := None |}))
    as (cs & r & s & H1 & H2 & _).
  - intros H. apply (f_equal (fun m => m !! "user_id")) in H.
    vm_compute in H. discriminate.
  - repeat (apply map_Forall_insert_2; [reflexivity|]).
    apply map_Forall_empty.
  - apply found_eq. vm_compute. reflexivity.
  - vm_compute. reflexivity.
  - constructor.
  - vm_compute. reflexivity.
  - vm_compute. reflexivity.
  - exists cs. split; [exact H1|exact H2].
Defined.
